(** * The template core of django-note: context stack, variable resolution,
      filter expressions, parser and value rendering

    A shallow embedding of [django/template/context.py] and
    [django/template/base.py].  Python objects are modelled by the inductive
    type [value]; exceptions are explicit results ([Ok] / [Raise]); the
    mutable objects of the source ([BaseContext.dicts], [Parser.tokens],
    [Parser.command_stack]) are threaded as explicit state. *)

From Stdlib Require Import ZArith Lia Ascii String Sorted.
From stdpp Require Import base gmap strings list pretty.

#[local] Set Warnings "-register-all".
#[local] Open Scope string_scope.
#[local] Open Scope list_scope.
#[local] Open Scope Z_scope.

(** ** Results and exceptions *)

(** A computation either returns or raises. *)
Inductive result (E A : Type) : Type :=
| Ok (a : A)
| Raise (e : E).
Arguments Ok {E A} a.
Arguments Raise {E A} e.

Definition bind {E A B} (r : result E A) (k : A -> result E B) : result E B :=
  match r with
  | Ok a => k a
  | Raise e => Raise e
  end.

Notation "x <- r ;; k" := (bind r (fun x => k))
  (at level 100, r at next level, right associativity, only parsing).

(** Source positions and tokens ([Token], [TokenType], base.py 105-110 and
    302-328).  Tokens come from the lexer, which always gives a line
    number. *)
Inductive TokenType := TEXT | VAR | BLOCK | COMMENT.

Record Token := mkToken {
  token_type : TokenType;
  contents : string;
  position : option (Z * Z);
  lineno : Z
}.

(** The exception classes that occur in the two modules.  [V] is the type of
    Python values: [VariableDoesNotExist] keeps the failed segment and the
    object it was looked up in ([params], base.py 114-116).  [OtherException]
    is any further exception class, with its [silent_variable_failure]
    attribute. *)
Inductive exn (V : Type) : Type :=
| TypeError
| AttributeError
| KeyError
| ValueError
| IndexError
| VariableDoesNotExist (bit : string) (current : V)
| ContextPopException
| TemplateSyntaxError (msg : string)
| OtherException (name : string) (silent_variable_failure : bool).
Arguments TypeError {V}.
Arguments AttributeError {V}.
Arguments KeyError {V}.
Arguments ValueError {V}.
Arguments IndexError {V}.
Arguments VariableDoesNotExist {V} bit current.
Arguments ContextPopException {V}.
Arguments TemplateSyntaxError {V} msg.
Arguments OtherException {V} name silent_variable_failure.

(** ** Python values *)

(** Keys of mappings and indices of sequences: the resolver subscripts with
    the segment itself (a [str]) and with [int(segment)]. *)
Inductive key := KStr (s : string) | KInt (n : Z).

#[global] Instance key_eq_dec : EqDecision key.
Proof. solve_decision. Defined.

#[global] Instance key_countable : Countable key.
Proof.
  refine (inj_countable'
            (fun k => match k with KStr s => inl s | KInt n => inr n end)
            (fun x => match x with inl s => KStr s | inr n => KInt n end) _).
  intros [s|n]; reflexivity.
Defined.

#[global] Instance KStr_inj : Inj (=) (=) KStr.
Proof. by intros s1 s2 [= ->]. Qed.

(** The engine settings read at render time, and the template a context is
    bound to ([context.template.engine.string_if_invalid]). *)
Record Engine := mkEngine {
  string_if_invalid : string;
  debug : bool
}.

Record Template := mkTemplate {
  name : option string;
  engine : Engine
}.

(** [BaseContext] / [Context] (context.py 33-47, 149-161): the list of
    frames [dicts], bottom frame first as in the Python list, and the
    attributes of [Context]. *)
Record TemplateContext (V : Type) := mkContext {
  dicts : list (gmap key V);
  autoescape : bool;
  use_l10n : option bool;
  use_tz : option bool;
  template_name : string;
  template : option Template
}.
Arguments mkContext {V}.
Arguments dicts {V}.
Arguments autoescape {V}.
Arguments use_l10n {V}.
Arguments use_tz {V}.
Arguments template_name {V}.
Arguments template {V}.

(** The values a template can meet.
    - [VStr] is [str], [VSafe] is [SafeString] (a [str] carrying [SafeData]);
    - [VFloat] is a float, kept as the text of its literal;
    - [VList] and [VDict] are [list] and [dict];
    - [VObj] is an instance or function: [attrs] maps each name in
      [dir(obj)] to the outcome of [getattr(obj, name)] (a raising outcome is
      a property whose getter raises); [call] is [None] for an object that is
      not callable, and otherwise gives the outcome of [obj()] together with
      whether [inspect.getcallargs(obj)] accepts an empty argument list;
    - [VContext] is a [Context] instance.
    The attributes of the built-in types ([dict.items], [str.upper], ...)
    are not listed here: they are looked up in a table given from outside
    ([builtin_getattr] below). *)
Inductive value :=
| VNone
| VBool (b : bool)
| VInt (n : Z)
| VFloat (literal : string)
| VStr (s : string)
| VSafe (s : string)
| VList (l : list value)
| VDict (d : gmap key value)
| VObj (attrs : gmap string (result (exn value) value))
       (call : option (result (exn value) value * bool))
| VContext (c : TemplateContext value).

Abbreviation frame := (gmap key value).
Abbreviation Context_ := (TemplateContext value).
Abbreviation pyexn := (exn value).
Abbreviation res := (result pyexn).

Definition set_dicts (c : Context_) (ds : list frame) : Context_ :=
  mkContext ds (autoescape c) (use_l10n c) (use_tz c) (template_name c) (template c).

(** ** context.py *)

(** [BaseContext._reset_dicts] (context.py 38-42). *)
Definition builtins : frame :=
  {[ KStr "True" := VBool true; KStr "False" := VBool false; KStr "None" := VNone ]}.

Definition BaseContext_reset_dicts (value : option frame) : list frame :=
  [builtins] ++ match value with Some v => [v] | None => [] end.

(** [Context.__init__] (context.py 152-161). *)
Definition Context_init (dict_ : option frame) (autoescape : bool)
    (use_l10n use_tz : option bool) : Context_ :=
  mkContext (BaseContext_reset_dicts dict_) autoescape use_l10n use_tz "unknown" None.

(** A stateful method of a context: the outcome and the context afterwards.
    A raising call still returns the context, so that what an exception
    leaves behind is part of the model. *)
Definition ctxM (A : Type) : Type := Context_ -> res A * Context_.

(** The positional arguments of [push]: contexts or mappings. *)
Inductive push_arg :=
| ArgContext (c : Context_)
| ArgDict (d : frame).

(** The loop of [BaseContext.push] (context.py 56-61):
    [dicts += d.dicts[1:]] for a context, [dicts.append(d)] otherwise. *)
Fixpoint push_collect (args : list push_arg) : list frame :=
  match args with
  | [] => []
  | ArgContext c :: rest => drop 1 (dicts c) ++ push_collect rest
  | ArgDict d :: rest => d :: push_collect rest
  end.

(** Python's [dict] constructor applied to the collected arguments, which [ContextDict.__init__] calls
    through [super().__init__] (context.py 21): no positional argument gives
    the keyword arguments, one mapping is copied and updated with the keyword
    arguments, and more than one positional argument is a [TypeError]. *)
Definition kwargs_frame (kwargs : gmap string value) : frame := kmap KStr kwargs.

Definition py_dict (args : list frame) (kwargs : gmap string value) : res frame :=
  match args with
  | [] => Ok (kwargs_frame kwargs)
  | [m] => Ok (kwargs_frame kwargs ∪ m)
  | _ :: _ :: _ => Raise TypeError
  end.

(** [ContextDict.__init__] (context.py 20-24): build the dict, then append it
    to [context.dicts].  The new frame is returned as the handle. *)
Definition ContextDict_init (args : list frame) (kwargs : gmap string value) : ctxM frame :=
  fun context =>
    match py_dict args kwargs with
    | Ok self => (Ok self, set_dicts context (dicts context ++ [self]))
    | Raise e => (Raise e, context)
    end.

(** [BaseContext.push] (context.py 55-64). *)
Definition BaseContext_push (args : list push_arg) (kwargs : gmap string value) : ctxM frame :=
  ContextDict_init (push_collect args) kwargs.

(** Python's [list.pop()]: the last element and the list without it. *)
Definition list_pop {A} (l : list A) : option (A * list A) :=
  match last l with
  | Some x => Some (x, removelast l)
  | None => None
  end.

(** [BaseContext.pop] (context.py 66-69). *)
Definition BaseContext_pop : ctxM frame :=
  fun self =>
    if (length (dicts self) =? 1)%nat then (Raise ContextPopException, self)
    else match list_pop (dicts self) with
         | Some (top, rest) => (Ok top, set_dicts self rest)
         | None => (Raise IndexError, self)
         end.



(** [BaseContext.__getitem__] (context.py 89-95): scan the frames from the
    top of the stack down. *)
Fixpoint getitem_frames (rev_dicts : list frame) (k : key) : res value :=
  match rev_dicts with
  | [] => Raise KeyError
  | d :: rest =>
      match d !! k with
      | Some v => Ok v
      | None => getitem_frames rest k
      end
  end.

Definition BaseContext_getitem (self : Context_) (k : key) : res value :=
  getitem_frames (reverse (dicts self)) k.

(** A caller's sequence of [push] and [pop] calls; an exception raised by
    one call is caught by the caller and the sequence goes on. *)
Inductive stack_op :=
| OpPush (args : list push_arg) (kwargs : gmap string value)
| OpPop.

Definition run_op (o : stack_op) (c : Context_) : Context_ :=
  match o with
  | OpPush args kwargs => snd (BaseContext_push args kwargs c)
  | OpPop => snd (BaseContext_pop c)
  end.

Fixpoint run_ops (os : list stack_op) (c : Context_) : Context_ :=
  match os with
  | [] => c
  | o :: rest => run_ops rest (run_op o c)
  end.

(** ** Python strings *)

(** Characters are code points; the model covers the Latin-1 range that
    [ascii] offers.  [str.isspace] there: TAB..CR, FS..US, space, NEL, NBSP. *)
Definition py_isspace (a : ascii) : bool :=
  let n := nat_of_ascii a in
  ((9 <=? n) && (n <=? 13) || (28 <=? n) && (n <=? 32) || (n =? 133) || (n =? 160))%nat.

Definition is_digit (a : ascii) : bool :=
  let n := nat_of_ascii a in ((48 <=? n) && (n <=? 57))%nat.

Definition digit_val (a : ascii) : Z := Z.of_nat (nat_of_ascii a) - 48.

Definition chars (s : string) : list ascii := list_ascii_of_string s.
Definition text (l : list ascii) : string := string_of_list_ascii l.

Fixpoint lstrip (l : list ascii) : list ascii :=
  match l with
  | a :: rest => if py_isspace a then lstrip rest else l
  | [] => []
  end.

(** [str.strip()]. *)
Definition py_strip (s : string) : string :=
  text (rev (lstrip (rev (lstrip (chars s))))).

(** [str.split()] with no separator: the maximal runs of non-space
    characters. [word] is the run being read, reversed. *)
Fixpoint split_ws (word : list ascii) (l : list ascii) : list string :=
  match l with
  | [] => match word with [] => [] | _ => [text (rev word)] end
  | a :: rest =>
      if py_isspace a
      then match word with
           | [] => split_ws [] rest
           | _ => text (rev word) :: split_ws [] rest
           end
      else split_ws (a :: word) rest
  end.

Definition py_split (s : string) : list string := split_ws [] (chars s).

(** [str.split(sep)] for a one-character separator: empty pieces are kept. *)
Fixpoint split_on (sep : ascii) (piece : list ascii) (l : list ascii) : list string :=
  match l with
  | [] => [text (rev piece)]
  | a :: rest =>
      if Ascii.eqb a sep then text (rev piece) :: split_on sep [] rest
      else split_on sep (a :: piece) rest
  end.

Definition py_split_sep (sep : ascii) (s : string) : list string :=
  split_on sep [] (chars s).

Definition startswith (s p : string) : bool := String.prefix p s.

Definition endswith (s p : string) : bool :=
  String.prefix (text (rev (chars p))) (text (rev (chars s))).

(** [sub in s]: [sub] starts at some position of [s]. *)
Fixpoint py_in (sub s : string) : bool :=
  String.prefix sub s
  || match s with
     | EmptyString => false
     | String _ rest => py_in sub rest
     end.

(** [s.replace(old, new)] for a one-character [old]. *)
Fixpoint replace_char (old : ascii) (new : string) (s : string) : string :=
  match s with
  | EmptyString => EmptyString
  | String a rest =>
      if Ascii.eqb a old then new +:+ replace_char old new rest
      else String a (replace_char old new rest)
  end.

(** [sep.join(l)]. *)
Definition py_join (sep : string) (l : list string) : string := String.concat sep l.

(** ['%d' % n]. *)
Definition fmt_d (n : Z) : string := pretty n.

(** The digits of a numeric literal: a digit, then digits each optionally
    preceded by one underscore.  Returns the value read, the number of
    digits, and the rest of the text. *)
Fixpoint digits_tail (acc : Z) (l : list ascii) : Z * list ascii :=
  match l with
  | a :: rest =>
      if is_digit a then digits_tail (10 * acc + digit_val a) rest
      else if Ascii.eqb a "_"
      then match rest with
           | b :: rest' =>
               if is_digit b then digits_tail (10 * acc + digit_val b) rest'
               else (acc, l)
           | [] => (acc, l)
           end
      else (acc, l)
  | [] => (acc, [])
  end.

Definition digitpart (l : list ascii) : option (Z * list ascii) :=
  match l with
  | a :: rest => if is_digit a then Some (digits_tail (digit_val a) rest) else None
  | [] => None
  end.

Definition sign_of (l : list ascii) : Z * list ascii :=
  match l with
  | a :: rest =>
      if Ascii.eqb a "-" then (-1, rest)
      else if Ascii.eqb a "+" then (1, rest)
      else (1, l)
  | [] => (1, [])
  end.

(** The white space that [int()] and [float()] skip around a number: the
    C set TAB..CR and space, and of the Latin-1 range above ASCII the two
    spaces NEL and NBSP, which the conversion reads as a space.  The
    separators FS..US, which [str.strip] removes, are not in it. *)
Definition number_isspace (a : ascii) : bool :=
  let n := nat_of_ascii a in
  ((9 <=? n) && (n <=? 13) || (n =? 32) || (n =? 133) || (n =? 160))%nat.

Fixpoint number_lstrip (l : list ascii) : list ascii :=
  match l with
  | a :: rest => if number_isspace a then number_lstrip rest else l
  | [] => []
  end.

Definition number_strip (s : string) : list ascii :=
  rev (number_lstrip (rev (number_lstrip (chars s)))).

(** [int(s)] for a string: surrounding whitespace, a sign, decimal digits.
    [None] stands for [ValueError]. *)
Definition py_int (s : string) : option Z :=
  let '(sg, l) := sign_of (number_strip s) in
  match digitpart l with
  | Some (n, []) => Some (sg * n)
  | _ => None
  end.

(** The exponent of a float literal, if one starts here. *)
Definition exponent_ok (l : list ascii) : bool :=
  match l with
  | a :: rest =>
      if Ascii.eqb a "e" || Ascii.eqb a "E"
      then match digitpart (snd (sign_of rest)) with
           | Some (_, []) => true
           | _ => false
           end
      else false
  | [] => true
  end.

(** Whether [float(s)] accepts the string: a decimal literal with a
    fraction and/or an exponent.  The spellings of infinity and NaN contain
    neither a point nor an [e], so [Variable.__init__] never passes them
    to [float]. *)
Definition py_float_ok (s : string) : bool :=
  let l := snd (sign_of (number_strip s)) in
  match digitpart l with
  | Some (_, rest) =>
      match rest with
      | a :: frac =>
          if Ascii.eqb a "."
          then match digitpart frac with
               | Some (_, rest') => exponent_ok rest'
               | None => exponent_ok frac
               end
          else exponent_ok rest
      | [] => true
      end
  | None =>
      match l with
      | a :: frac =>
          if Ascii.eqb a "."
          then match digitpart frac with
               | Some (_, rest') => exponent_ok rest'
               | None => false
               end
          else false
      | [] => false
      end
  end.

(** ** External collaborators *)

(** What the two modules take from outside and no statement below depends
    on beyond the laws listed: lazy translation
    ([django.utils.translation]), time-zone conversion and localisation
    ([django.utils.timezone], [django.utils.formats]), [str()] of values
    that are not strings, and the attributes of Python's built-in types
    ([dict.items], [str.upper], ...: [builtin_getattr v name] is the bound
    method or attribute, if the type of [v] has one of that name).  The two
    conversions leave strings alone: the first touches datetimes only, the
    second returns a [str] unchanged.  Attribute names are identifiers,
    which [int()] does not read as numbers.  [format_other fmt arg] is
    Python's [fmt % arg] for a format that has a conversion other than
    [%s] and [%%] (a flag, a width, another conversion type). *)
Class Externals := {
  gettext_lazy : value -> value;
  pgettext_lazy : string -> value -> value;
  template_localtime : value -> option bool -> value;
  localize : value -> option bool -> value;
  str_other : value -> string;
  builtin_getattr : value -> string -> option value;
  format_other : string -> string -> res string;
  template_localtime_str : forall s tz, template_localtime (VStr s) tz = VStr s;
  template_localtime_safe : forall s tz, template_localtime (VSafe s) tz = VSafe s;
  localize_str : forall s l, localize (VStr s) l = VStr s;
  localize_safe : forall s l, localize (VSafe s) l = VSafe s;
  builtin_attr_is_identifier :
    forall v name m, builtin_getattr v name = Some m -> py_int name = None
}.

(** A reference instance for the examples: no translation catalogue, no
    localisation, a placeholder text for compound values, no attribute of
    a built-in type in use, and the other formats refused. *)
Definition plain_str_other (v : value) : string :=
  match v with
  | VNone => "None"
  | VBool true => "True"
  | VBool false => "False"
  | VInt n => pretty n
  | VFloat s => s
  | _ => "<object>"
  end.

Definition plain_externals : Externals := {|
  gettext_lazy v := v;
  pgettext_lazy _ v := v;
  template_localtime v _ := v;
  localize v _ := v;
  str_other := plain_str_other;
  builtin_getattr _ _ := None;
  format_other _ _ := Raise ValueError;
  template_localtime_str _ _ := eq_refl;
  template_localtime_safe _ _ := eq_refl;
  localize_str _ _ := eq_refl;
  localize_safe _ _ := eq_refl;
  builtin_attr_is_identifier v name m (E : None = Some m) :=
    match E in (_ = o) return (match o with Some _ => py_int name = None | None => True end)
    with eq_refl => I end
|}.

(** [str(v)]. *)
Definition py_str `{Externals} (v : value) : string :=
  match v with
  | VStr s | VSafe s => s
  | _ => str_other v
  end.

(** Modelled from the spec: [django.utils.safestring.mark_safe] is not among
    the sources; it marks a text as not requiring further escaping, and a
    value that is not a string is converted to one first. *)
Definition mark_safe `{Externals} (v : value) : value :=
  match v with
  | VSafe s => VSafe s
  | v => VSafe (py_str v)
  end.

(** [isinstance(v, SafeData)]. *)
Definition is_SafeData (v : value) : bool :=
  match v with
  | VSafe _ => true
  | _ => false
  end.

(** [issubclass(type(v), str)]. *)
Definition is_str (v : value) : bool :=
  match v with
  | VStr _ | VSafe _ => true
  | _ => false
  end.

(** ** The operations of Python objects the resolver uses *)

(** [bool(v)].  A float is false when its mantissa is zero (underflow of a
    non-zero literal is outside the model). *)
Fixpoint mantissa_nonzero (l : list ascii) : bool :=
  match l with
  | a :: rest =>
      if Ascii.eqb a "e" || Ascii.eqb a "E" then false
      else (is_digit a && negb (Ascii.eqb a "0")) || mantissa_nonzero rest
  | [] => false
  end.

Definition float_nonzero (literal : string) : bool := mantissa_nonzero (chars literal).

Definition py_truthy (v : value) : bool :=
  match v with
  | VNone => false
  | VBool b => b
  | VInt n => negb (n =? 0)
  | VFloat s => float_nonzero s
  | VStr s | VSafe s => negb (String.eqb s "")
  | VList l => match l with [] => false | _ => true end
  | VDict d => negb (bool_decide (d = ∅))
  | VObj _ _ => true
  | VContext _ => true
  end.

(** [callable(v)]. *)
Definition py_callable (v : value) : bool :=
  match v with
  | VObj _ (Some _) => true
  | _ => false
  end.

(** [isinstance(v, BaseContext)]. *)
Definition is_BaseContext (v : value) : bool :=
  match v with
  | VContext _ => true
  | _ => false
  end.

(** [seq[i]] for a list or string of length [len]: negative indices count
    from the end; out of range is [IndexError]. *)
Definition seq_index {A} (l : list A) (i : Z) : option A :=
  let len := Z.of_nat (length l) in
  if (0 <=? i) && (i <? len) then l !! Z.to_nat i
  else if (i <? 0) && (- len <=? i) then l !! Z.to_nat (len + i)
  else None.

(** [current[k]]. *)
Definition py_getitem (current : value) (k : key) : res value :=
  match current, k with
  | VList l, KInt i =>
      match seq_index l i with Some v => Ok v | None => Raise IndexError end
  | VStr s, KInt i | VSafe s, KInt i =>
      match seq_index (chars s) i with
      | Some a => Ok (VStr (text [a]))
      | None => Raise IndexError
      end
  | VDict d, _ =>
      match d !! k with Some v => Ok v | None => Raise KeyError end
  | VContext c, _ => BaseContext_getitem c k
  | _, _ => Raise TypeError
  end.

Definition of_option_bool (b : option bool) : value :=
  match b with Some x => VBool x | None => VNone end.

(** [getattr(current, name)].  A [Context] instance has its data
    attributes; the methods of its class are left out, since the resolver
    rejects a class attribute before it asks the instance. *)
Definition Context_class_attrs : list string :=
  ["push"; "pop"; "get"; "setdefault"; "new"; "flatten"; "set_upward";
   "update"; "bind_template"].

Definition py_getattr `{Externals} (current : value) (name : string) : res value :=
  match current with
  | VObj attrs _ =>
      match attrs !! name with
      | Some outcome => outcome
      | None => Raise AttributeError
      end
  | VContext c =>
      if String.eqb name "dicts" then Ok (VList (VDict <$> dicts c))
      else if String.eqb name "autoescape" then Ok (VBool (autoescape c))
      else if String.eqb name "use_l10n" then Ok (of_option_bool (use_l10n c))
      else if String.eqb name "use_tz" then Ok (of_option_bool (use_tz c))
      else if String.eqb name "template_name" then Ok (VStr (template_name c))
      else Raise AttributeError
  | _ =>
      match builtin_getattr current name with
      | Some m => Ok m
      | None => Raise AttributeError
      end
  end.

(** [getattr(type(current), bit)] for a [BaseContext], up to truthiness: the
    class has its methods, which are true; any other name raises. *)
Definition type_getattr_truthy (bit : string) : res bool :=
  if bool_decide (bit ∈ Context_class_attrs) then Ok true else Raise AttributeError.

(** [bit in dir(current)]. *)
Definition py_dir_contains `{Externals} (current : value) (bit : string) : bool :=
  match current with
  | VObj attrs _ => bool_decide (is_Some (attrs !! bit))
  | VContext _ =>
      bool_decide (bit ∈ ["dicts"; "autoescape"; "use_l10n"; "use_tz"; "template_name"]
                           ++ Context_class_attrs)
  | _ => bool_decide (is_Some (builtin_getattr current bit))
  end.

(** [getattr(v, name, default)]: only [AttributeError] yields the default. *)
Definition getattr_default `{Externals} (v : value) (name : string) (default : value)
    : res value :=
  match py_getattr v name with
  | Ok x => Ok x
  | Raise AttributeError => Ok default
  | Raise e => Raise e
  end.

(** [current()] and whether [getcallargs(current)] succeeds. *)
Definition py_call (current : value) : res value :=
  match current with
  | VObj _ (Some (outcome, _)) => outcome
  | _ => Raise TypeError
  end.

Definition getcallargs_ok (current : value) : bool :=
  match current with
  | VObj _ (Some (_, ok)) => ok
  | _ => false
  end.

(** [context.template.engine.string_if_invalid].  On a context that is not
    bound to a template [context.template] is [None]; a plain mapping has no
    [template] attribute at all.  Both end in [AttributeError]. *)
Definition get_string_if_invalid `{Externals} (context : value) : res value :=
  match context with
  | VContext c =>
      match template c with
      | Some t => Ok (VStr (string_if_invalid (engine t)))
      | None => Raise AttributeError
      end
  | _ =>
      t <- py_getattr context "template";;
      e <- py_getattr t "engine";;
      py_getattr e "string_if_invalid"
  end.

(** [getattr(e, 'silent_variable_failure', False)]. *)
Definition silent (e : pyexn) : bool :=
  match e with
  | OtherException _ s => s
  | _ => false
  end.

(** ** Variable (base.py 780-954) *)

Record TemplateVariable := mkVariable {
  var : string;
  literal : value;
  lookups : option (list string);
  translate : bool;
  message_context : option string
}.

Definition dquote : ascii := ascii_of_nat 34.
Definition squote : ascii := "'"%char.
Definition backslash : ascii := "\"%char.

(** [s.replace(xy, new)] for a two-character [xy] and a one-character
    [new]: occurrences are replaced from the left, without overlap. *)
Fixpoint replace_pair (x y new : ascii) (l : list ascii) : list ascii :=
  match l with
  | a :: tl =>
      match tl with
      | b :: rest =>
          if Ascii.eqb a x && Ascii.eqb b y then new :: replace_pair x y new rest
          else a :: replace_pair x y new tl
      | [] => l
      end
  | [] => []
  end.

(** [s[i:j]] for [0 <= i] and a [j] counted from the start. *)
Definition slice (i j : nat) (s : string) : string := String.substring i (j - i) s.

(** Modelled from the spec: [django.utils.text.unescape_string_literal] is
    not among the sources.  A quoted-string literal is a text wrapped in a
    pair of equal quotes, single or double; the quotes are removed and the
    escaped quotes and backslashes inside are unescaped.  Anything else is
    a [ValueError]; the empty text has no first character to test. *)
Definition unescape_string_literal (s : string) : res string :=
  match chars s with
  | [] => Raise IndexError
  | q :: _ =>
      if (Ascii.eqb q dquote || Ascii.eqb q squote)
         && bool_decide (last (chars s) = Some q)
      then
        let body := chars (slice 1 (String.length s - 1) s) in
        Ok (text (replace_pair backslash backslash backslash
                    (replace_pair backslash q q body)))
      else Raise ValueError
  end.

(** The numeric branch of [Variable.__init__] (base.py 810-825).  [literal]
    is assigned before the trailing-point test, so a rejected ["2."] still
    leaves its float behind. *)
Definition number_literal (var : string) : value * bool :=
  if py_in "." var || py_in "e" var || py_in "E" var
  then if py_float_ok var then (VFloat var, negb (endswith var "."))
       else (VNone, false)
  else match py_int var with
       | Some n => (VInt n, true)
       | None => (VNone, false)
       end.

(** [Variable.__init__] (base.py 800-844). *)
Definition Variable_init `{Externals} (var : string) : res TemplateVariable :=
  let '(lit, is_number) := number_literal var in
  if is_number then Ok (mkVariable var lit None false None)
  else
    let translate := startswith var "_(" && endswith var ")" in
    let var' := if translate then slice 2 (String.length var - 1) var else var in
    match unescape_string_literal var' with
    | Ok s => Ok (mkVariable var (mark_safe (VStr s)) None translate None)
    | Raise ValueError =>
        if py_in "._" var' || startswith var' "_"
        then Raise (TemplateSyntaxError
                      ("Variables and attributes may not begin with underscores: '"
                         +:+ var' +:+ "'"))
        else Ok (mkVariable var lit (Some (py_split_sep "." var')) translate None)
    | Raise e => Raise e
    end.

(** The three stages of a segment lookup (base.py 889-912). *)
Definition caught_by_dict_lookup (e : pyexn) : bool :=
  match e with
  | TypeError | AttributeError | KeyError | ValueError | IndexError => true
  | _ => false
  end.

Definition caught_by_attribute_lookup (e : pyexn) : bool :=
  match e with
  | TypeError | AttributeError => true
  | _ => false
  end.

Definition caught_by_index_lookup (e : pyexn) : bool :=
  match e with
  | IndexError | ValueError | KeyError | TypeError => true
  | _ => false
  end.

Definition dictionary_lookup (current : value) (bit : string) : res value :=
  py_getitem current (KStr bit).

Definition attribute_lookup `{Externals} (current : value) (bit : string) : res value :=
  if is_BaseContext current
  then match type_getattr_truthy bit with
       | Ok true => Raise AttributeError
       | Ok false => py_getattr current bit
       | Raise e => Raise e
       end
  else py_getattr current bit.

Definition list_index_lookup (current : value) (bit : string) : res value :=
  match py_int bit with
  | Some i => py_getitem current (KInt i)
  | None => Raise ValueError
  end.

Definition lookup_bit `{Externals} (current : value) (bit : string) : res value :=
  match dictionary_lookup current bit with
  | Ok v => Ok v
  | Raise e =>
      if caught_by_dict_lookup e then
        match attribute_lookup current bit with
        | Ok v => Ok v
        | Raise e' =>
            if caught_by_attribute_lookup e' then
              if negb (is_BaseContext current) && py_dir_contains current bit
              then Raise e'
              else
                match list_index_lookup current bit with
                | Ok v => Ok v
                | Raise e'' =>
                    if caught_by_index_lookup e''
                    then Raise (VariableDoesNotExist bit current)
                    else Raise e''
                end
            else Raise e'
        end
      else Raise e
  end.

(** What happens to the value of a segment when it is callable
    (base.py 914-939). *)
Definition call_if_callable `{Externals} (context current : value) : res value :=
  if py_callable current then
    dnc <- getattr_default current "do_not_call_in_templates" (VBool false);;
    if py_truthy dnc then Ok current
    else
      ad <- getattr_default current "alters_data" (VBool false);;
      if py_truthy ad then get_string_if_invalid context
      else
        match py_call current with
        | Ok v => Ok v
        | Raise TypeError =>
            if getcallargs_ok current then Raise TypeError
            else get_string_if_invalid context
        | Raise e => Raise e
        end
  else Ok current.

(** The [for bit in self.lookups] loop. *)
Fixpoint resolve_bits `{Externals} (context current : value) (lookups : list string)
    : res value :=
  match lookups with
  | [] => Ok current
  | bit :: rest =>
      v <- lookup_bit current bit;;
      v' <- call_if_callable context v;;
      resolve_bits context v' rest
  end.

(** [Variable._resolve_lookup] (base.py 871-954): the loop, inside the
    catch-all for silent variable failures. *)
Definition Variable_resolve_lookup `{Externals} (lookups : list string) (context : value)
    : res value :=
  match resolve_bits context context lookups with
  | Ok current => Ok current
  | Raise e =>
      if silent e then get_string_if_invalid context
      else Raise e
  end.

(** [Variable.resolve] (base.py 846-863). *)
Definition Variable_resolve `{Externals} (self : TemplateVariable) (context : value) : res value :=
  value <- match lookups self with
           | Some ls => Variable_resolve_lookup ls context
           | None => Ok (literal self)
           end;;
  if translate self then
    msgid <- match value with
             | VStr s => Ok (VStr (replace_char "%" "%%" s))
             | VSafe s => Ok (mark_safe (VStr (replace_char "%" "%%" s)))
             | _ => Raise AttributeError
             end;;
    match message_context self with
    | Some c => Ok (pgettext_lazy c msgid)
    | None => Ok (gettext_lazy msgid)
    end
  else Ok value.

(** ** The filter-expression grammar [filter_re] (base.py 616-651) *)

(** [\w] on the Latin-1 range: letters, digits, the underscore, and the
    alphanumeric code points above 127. *)
Definition is_word (a : ascii) : bool :=
  let n := nat_of_ascii a in
  ((48 <=? n) && (n <=? 57) || (65 <=? n) && (n <=? 90) || (97 <=? n) && (n <=? 122)
   || (n =? 95) || (n =? 170) || (n =? 178) || (n =? 179) || (n =? 181)
   || (n =? 185) || (n =? 186) || (188 <=? n) && (n <=? 190)
   || (192 <=? n) && (n <=? 214) || (216 <=? n) && (n <=? 246) || (248 <=? n))%nat.

Definition is_var_char (a : ascii) : bool := is_word a || Ascii.eqb a ".".

Definition newline : ascii := ascii_of_nat 10.

(** Greedy repetition of a character class: the rest after the longest run. *)
Fixpoint skip_while (p : ascii -> bool) (l : list ascii) : list ascii :=
  match l with
  | a :: rest => if p a then skip_while p rest else l
  | [] => []
  end.

(** What a sub-pattern consumed of [l], given the rest it left. *)
Definition consumed (l rest : list ascii) : string :=
  text (take (length l - length rest) l).

(** After an opening quote [q]: unescaped characters, or a backslash and
    any character but a newline, up to the closing quote. *)
Fixpoint quoted_tail (q : ascii) (l : list ascii) : option (list ascii) :=
  match l with
  | [] => None
  | a :: rest =>
      if Ascii.eqb a q then Some rest
      else if Ascii.eqb a backslash then
        match rest with
        | b :: rest' => if Ascii.eqb b newline then None else quoted_tail q rest'
        | [] => None
        end
      else quoted_tail q rest
  end.

Definition quoted (q : ascii) (l : list ascii) : option (list ascii) :=
  match l with
  | a :: rest => if Ascii.eqb a q then quoted_tail q rest else None
  | [] => None
  end.

Definition i18n_quoted (q : ascii) (l : list ascii) : option (list ascii) :=
  match l with
  | a :: b :: rest =>
      if Ascii.eqb a "_" && Ascii.eqb b "("
      then match quoted q rest with
           | Some (c :: rest') => if Ascii.eqb c ")" then Some rest' else None
           | _ => None
           end
      else None
  | _ => None
  end.

Definition first_of {A} (x y : option A) : option A :=
  match x with Some _ => x | None => y end.

(** [constant_string]: the four alternatives, in order. *)
Definition re_constant (l : list ascii) : option (list ascii) :=
  first_of (i18n_quoted dquote l)
    (first_of (i18n_quoted squote l)
       (first_of (quoted dquote l) (quoted squote l))).

(** [num]: an optional sign or point, a digit, then digits, points and [e]. *)
Definition re_num (l : list ascii) : option (list ascii) :=
  let tail := skip_while (fun a => is_digit a || Ascii.eqb a "." || Ascii.eqb a "e") in
  let plain := match l with
               | d :: rest => if is_digit d then Some (tail rest) else None
               | [] => None
               end in
  match l with
  | a :: d :: rest =>
      if (Ascii.eqb a "-" || Ascii.eqb a "+" || Ascii.eqb a ".") && is_digit d
      then Some (tail rest)
      else plain
  | _ => plain
  end.

(** A run of variable characters, or else a number. *)
Definition re_var (l : list ascii) : option (list ascii) :=
  match l with
  | a :: rest => if is_var_char a then Some (skip_while is_var_char rest) else re_num l
  | [] => None
  end.

Record re_match := mkMatch {
  m_start : nat;
  m_end : nat;
  g_constant : option string;
  g_var : option string;
  g_filter_name : option string;
  g_constant_arg : option string;
  g_var_arg : option string
}.

(** The third alternative: separator, filter name, optional argument. *)
Definition re_filter (pos : nat) (l : list ascii) : option re_match :=
  match skip_while py_isspace l with
  | bar :: l1 =>
      if Ascii.eqb bar "|" then
        let l2 := skip_while py_isspace l1 in
        let l3 := skip_while is_word l2 in
        match consumed l2 l3 with
        | EmptyString => None
        | fname =>
            let finish rest carg varg :=
              Some (mkMatch pos (pos + (length l - length rest)) None None (Some fname) carg varg) in
            match l3 with
            | colon :: l4 =>
                if Ascii.eqb colon ":" then
                  match re_constant l4 with
                  | Some rest => finish rest (Some (consumed l4 rest)) None
                  | None =>
                      match re_var l4 with
                      | Some rest => finish rest None (Some (consumed l4 rest))
                      | None => finish l3 None None
                      end
                  end
                else finish l3 None None
            | [] => finish l3 None None
            end
        end
      else None
  | [] => None
  end.

(** One attempt of the whole pattern at position [pos]; the first two
    alternatives are anchored at the start of the text. *)
Definition match_at (pos : nat) (l : list ascii) : option re_match :=
  let anchored :=
    match pos with
    | O =>
        match re_constant l with
        | Some rest =>
            Some (mkMatch 0 (length l - length rest) (Some (consumed l rest)) None None None None)
        | None =>
            match re_var l with
            | Some rest =>
                Some (mkMatch 0 (length l - length rest) None (Some (consumed l rest)) None None None)
            | None => None
            end
        end
    | S _ => None
    end in
  first_of anchored (re_filter pos l).

(** [filter_re.finditer]: the matches from left to right, without overlap.
    [skip] counts the characters still covered by the previous match. *)
Fixpoint scan (skip pos : nat) (l : list ascii) : list re_match :=
  match l with
  | [] => []
  | _ :: tl =>
      match skip with
      | S k => scan k (S pos) tl
      | O =>
          match match_at pos l with
          | Some m => m :: scan (m_end m - pos - 1) (S pos) tl
          | None => scan 0 (S pos) tl
          end
      end
  end.

Definition filter_re_finditer (token : string) : list re_match := scan 0 0 (chars token).

(** ** FilterExpression (base.py 654-777) *)

(** A registered filter: the callable (input, positional arguments, the
    [autoescape] keyword when it is passed), its three flags, and what
    [getfullargspec] reports: the number of its positional parameters and
    of their defaults. *)
Record Filter := mkFilter {
  func : value -> list value -> option bool -> res value;
  expects_localtime : bool;
  needs_autoescape : bool;
  is_safe : bool;
  alen : Z;
  dlen : Z
}.

(** A filter argument: [(False, value)] or [(True, Variable)]. *)
Inductive filter_arg :=
| ArgLiteral (v : value)
| ArgLookup (v : TemplateVariable).

(** [self.var]: a [Variable], or the value a constant resolved to. *)
Inductive fe_var :=
| VarVariable (v : TemplateVariable)
| VarConst (v : value).

Record FilterExpression := mkFilterExpression {
  token : string;
  filters : list (Filter * list filter_arg);
  fe_var_obj : option fe_var
}.

(** [Parser.find_filter] (base.py 609-613). *)
Definition Parser_find_filter (filters : gmap string Filter) (filter_name : option string)
    : res Filter :=
  let shown := default "None" filter_name in
  match filter_name ≫= (fun n => filters !! n) with
  | Some f => Ok f
  | None => Raise (TemplateSyntaxError ("Invalid filter: '" +:+ shown +:+ "'"))
  end.

(** [FilterExpression.args_check] (base.py 757-772). *)
Definition args_check (name : string) (f : Filter) (provided : list filter_arg) : res bool :=
  let plen := Z.of_nat (length provided) + 1 in
  if (plen <? alen f - dlen f) || (alen f <? plen)
  then Raise (TemplateSyntaxError
                (name +:+ " requires " +:+ fmt_d (alen f - dlen f) +:+ " arguments, "
                   +:+ fmt_d plen +:+ " provided"))
  else Ok true.

Definition nonempty (s : option string) : bool :=
  match s with
  | Some (String _ _) => true
  | _ => false
  end.

(** The empty mapping that constants are resolved against. *)
Definition empty_dict : value := VDict ∅.

(** The body of the [for match in matches] loop (base.py 676-709), on the
    loop state [(var_obj, filters, upto)]. *)
Definition init_step `{Externals} (token : string) (registry : gmap string Filter)
    (m : re_match) (st : option fe_var * list (Filter * list filter_arg) * nat)
    : res (option fe_var * list (Filter * list filter_arg) * nat) :=
  let '(var_obj, filters, upto) := st in
  let start := m_start m in
  if negb (upto =? start)%nat
  then Raise (TemplateSyntaxError
                ("Could not parse some characters: " +:+ slice 0 upto token +:+ "|"
                   +:+ slice upto start token +:+ "|"
                   +:+ slice start (String.length token) token))
  else
    match var_obj with
    | None =>
        if nonempty (g_constant m) then
          v <- Variable_init (default "" (g_constant m));;
          match Variable_resolve v empty_dict with
          | Ok c => Ok (Some (VarConst c), filters, m_end m)
          | Raise (VariableDoesNotExist _ _) => Ok (None, filters, m_end m)
          | Raise e => Raise e
          end
        else
          match g_var m with
          | None => Raise (TemplateSyntaxError
                             ("Could not find variable at start of " +:+ token +:+ "."))
          | Some var =>
              v <- Variable_init var;;
              Ok (Some (VarVariable v), filters, m_end m)
          end
    | Some _ =>
        let filter_name := g_filter_name m in
        args <- (if nonempty (g_constant_arg m) then
                   v <- Variable_init (default "" (g_constant_arg m));;
                   c <- Variable_resolve v empty_dict;;
                   Ok [ArgLiteral c]
                 else if nonempty (g_var_arg m) then
                   v <- Variable_init (default "" (g_var_arg m));;
                   Ok [ArgLookup v]
                 else Ok []);;
        filter_func <- Parser_find_filter registry filter_name;;
        _ <- args_check (default "None" filter_name) filter_func args;;
        Ok (var_obj, filters ++ [(filter_func, args)], m_end m)
    end.

Fixpoint init_loop `{Externals} (token : string) (registry : gmap string Filter)
    (matches : list re_match) (st : option fe_var * list (Filter * list filter_arg) * nat)
    : res (option fe_var * list (Filter * list filter_arg) * nat) :=
  match matches with
  | [] => Ok st
  | m :: rest =>
      st' <- init_step token registry m st;;
      init_loop token registry rest st'
  end.

(** [FilterExpression.__init__] (base.py 670-715); [registry] is
    [parser.filters]. *)
Definition FilterExpression_init `{Externals} (token : string) (registry : gmap string Filter)
    : res FilterExpression :=
  st <- init_loop token registry (filter_re_finditer token) (None, [], 0%nat);;
  let '(var_obj, filters, upto) := st in
  if negb (upto =? String.length token)%nat
  then Raise (TemplateSyntaxError
                ("Could not parse the remainder: '"
                   +:+ slice upto (String.length token) token
                   +:+ "' from '" +:+ token +:+ "'"))
  else Ok (mkFilterExpression token filters var_obj).

(** [FilterExpression.__str__] (base.py 776-777). *)
Definition FilterExpression_str (self : FilterExpression) : string := token self.

(** Python's [fmt % arg] for one argument that is not a tuple, as
    [FilterExpression.resolve] uses it, on the formats whose conversions
    are [%s] and [%%] only: the text is copied, [%%] gives a percent sign
    and [%s] the argument.  A second [%s], or an argument left over at the
    end, is a [TypeError]; a percent sign at the very end is a
    [ValueError].  [None] says that the format has another conversion. *)
Fixpoint py_mod_go (fmt : list ascii) (used : bool) (arg : string) : option (res string) :=
  match fmt with
  | [] => Some (if used then Ok "" else Raise TypeError)
  | a :: tl =>
      if Ascii.eqb a "%" then
        match tl with
        | b :: rest =>
            if Ascii.eqb b "%" then
              match py_mod_go rest used arg with
              | Some r => Some (s <- r;; Ok (String "%" s))
              | None => None
              end
            else if Ascii.eqb b "s" then
              if used then Some (Raise TypeError)
              else
                match py_mod_go rest true arg with
                | Some r => Some (s <- r;; Ok (arg +:+ s))
                | None => None
                end
            else None
        | [] => Some (Raise ValueError)
        end
      else
        match py_mod_go tl used arg with
        | Some r => Some (s <- r;; Ok (String a s))
        | None => None
        end
  end.

Definition py_mod `{Externals} (fmt arg : string) : res string :=
  match py_mod_go (chars fmt) false arg with
  | Some r => r
  | None => format_other fmt arg
  end.

(** [context.template.engine.string_if_invalid] on a [Context]. *)
Definition Context_string_if_invalid (context : Context_) : res string :=
  match template context with
  | Some t => Ok (string_if_invalid (engine t))
  | None => Raise AttributeError
  end.

(** The argument values of one filter (base.py 737-742). *)
Fixpoint resolve_args `{Externals} (context : Context_) (args : list filter_arg)
    : res (list value) :=
  match args with
  | [] => Ok []
  | ArgLiteral arg :: rest =>
      vs <- resolve_args context rest;; Ok (mark_safe arg :: vs)
  | ArgLookup arg :: rest =>
      v <- Variable_resolve arg (VContext context);;
      vs <- resolve_args context rest;; Ok (v :: vs)
  end.

(** One filter of the chain (base.py 736-754). *)
Definition apply_filter `{Externals} (context : Context_) (obj : value)
    (f : Filter * list filter_arg) : res value :=
  let '(func_, args) := f in
  arg_vals <- resolve_args context args;;
  let obj := if expects_localtime func_ then template_localtime obj (use_tz context) else obj in
  new_obj <- (if needs_autoescape func_
              then func func_ obj arg_vals (Some (autoescape context))
              else func func_ obj arg_vals None);;
  if is_safe func_ && is_SafeData obj then Ok (mark_safe new_obj)
  else Ok new_obj.

(** The chain, in the order the filters were registered in [self.filters]. *)
Fixpoint apply_filters `{Externals} (context : Context_) (obj : value)
    (filters : list (Filter * list filter_arg)) : res value :=
  match filters with
  | [] => Ok obj
  | f :: rest =>
      obj' <- apply_filter context obj f;;
      apply_filters context obj' rest
  end.

(** [FilterExpression.resolve] (base.py 717-755). *)
Definition FilterExpression_resolve `{Externals} (self : FilterExpression)
    (context : Context_) (ignore_failures : bool) : res value :=
  match fe_var_obj self with
  | Some (VarVariable v) =>
      match Variable_resolve v (VContext context) with
      | Ok obj => apply_filters context obj (filters self)
      | Raise (VariableDoesNotExist _ _) =>
          if ignore_failures then apply_filters context VNone (filters self)
          else
            string_if_invalid <- Context_string_if_invalid context;;
            if negb (String.eqb string_if_invalid "") then
              if py_in "%s" string_if_invalid
              then s <- py_mod string_if_invalid (var v);; Ok (VStr s)
              else Ok (VStr string_if_invalid)
            else apply_filters context (VStr string_if_invalid) (filters self)
      | Raise e => Raise e
      end
  | Some (VarConst c) => apply_filters context c (filters self)
  | None => apply_filters context VNone (filters self)
  end.

(** ** Nodes (base.py 957-1078) *)

Record Origin := mkOrigin {
  origin_name : string;
  origin_template_name : option string;
  loader : option string
}.

(** A node is a text node, a variable node, or a node built by a tag
    compiler, which has a class name, its [must_be_first] attribute, its
    [repr] and its child node lists.  [node_token] and [node_origin] are
    the attributes [extend_nodelist] sets. *)
Inductive NodeKind :=
| TextNode (s : string)
| VariableNode (filter_expression : FilterExpression)
| TagNode (class_name : string) (must_be_first : bool) (repr : string)
          (child_nodelists : list (list Node))
with Node :=
| MkNode (kind : NodeKind) (node_token : option Token) (node_origin : option Origin).

Definition node_kind (n : Node) : NodeKind :=
  match n with MkNode k _ _ => k end.

Definition node_must_be_first (n : Node) : bool :=
  match node_kind n with
  | TagNode _ b _ _ => b
  | _ => false
  end.

Definition is_TextNode (n : Node) : bool :=
  match node_kind n with
  | TextNode _ => true
  | _ => false
  end.

(** [NodeList] (base.py 1006-1009): a list with the [contains_nontext]
    flag. *)
Record NodeList := mkNodeList {
  nodes : list Node;
  contains_nontext : bool
}.

Definition empty_NodeList : NodeList := mkNodeList [] false.

(** ** Parser (base.py 440-613) *)

(** The mutable part of a parser.  [tokens] is the queue, front first;
    [command_stack] is the Python list, most recent entry last.  The tag
    and filter registries are fixed while a template is parsed and are
    passed beside the state. *)
Record Parser := mkParser {
  tokens : list Token;
  command_stack : list (string * Token);
  origin : option Origin
}.

Definition set_tokens (p : Parser) (ts : list Token) : Parser :=
  mkParser ts (command_stack p) (origin p).

Definition set_command_stack (p : Parser) (cs : list (string * Token)) : Parser :=
  mkParser (tokens p) cs (origin p).

(** An exception travelling through the parser, with the [token]
    attribute that [Parser.error] attaches. *)
Record ParseError := mkParseError {
  exc : pyexn;
  exc_token : option Token
}.

Abbreviation pres := (result ParseError).

(** A parser method: the outcome and the parser afterwards; [None] when the
    recursion budget of the model is used up. *)
Definition parserM (A : Type) : Type := Parser -> option (pres A * Parser).

(** [Parser.error] (base.py 548-559), for a message and for an exception. *)
Definition Parser_error_msg (token : Token) (msg : string) : ParseError :=
  mkParseError (TemplateSyntaxError msg) (Some token).

Definition Parser_error (token : Token) (e : ParseError) : ParseError :=
  match exc_token e with
  | Some _ => e
  | None => mkParseError (exc e) (Some token)
  end.

(** Modelled from the spec: [django.utils.text.get_text_list] is not among
    the sources; the expected stop commands are listed, the last one joined
    with the given word. *)
Definition get_text_list (l : list string) (last_word : string) : string :=
  match list_pop l with
  | None => ""
  | Some (x, []) => x
  | Some (x, front) => py_join ", " front +:+ " " +:+ last_word +:+ " " +:+ x
  end.

(** [Parser.invalid_block_tag] (base.py 561-576): always raises. *)
Definition Parser_invalid_block_tag (token : Token) (command : string)
    (parse_until : list string) : ParseError :=
  match parse_until with
  | _ :: _ =>
      Parser_error_msg token
        ("Invalid block tag on line " +:+ fmt_d (lineno token) +:+ ": '" +:+ command
           +:+ "', expected "
           +:+ get_text_list ((fun p => "'" +:+ p +:+ "'") <$> parse_until) "or"
           +:+ ". Did you forget to register or load this tag?")
  | [] =>
      Parser_error_msg token
        ("Invalid block tag on line " +:+ fmt_d (lineno token) +:+ ": '" +:+ command
           +:+ "'. Did you forget to register or load this tag?")
  end.

Definition unclosed_msg (token : Token) (command : string) (parse_until : list string)
    : string :=
  "Unclosed tag on line " +:+ fmt_d (lineno token) +:+ ": '" +:+ command
    +:+ "'. Looking for one of: " +:+ py_join ", " parse_until +:+ ".".

(** [Parser.unclosed_block_tag] (base.py 578-585): pop the command stack
    and raise; on an empty stack the pop itself raises [IndexError]. *)
Definition Parser_unclosed_block_tag (parse_until : list string) (self : Parser)
    : ParseError * Parser :=
  match list_pop (command_stack self) with
  | Some ((command, token), rest) =>
      (Parser_error_msg token (unclosed_msg token command parse_until),
       set_command_stack self rest)
  | None => (mkParseError IndexError None, self)
  end.

(** [Parser.extend_nodelist] (base.py 534-546). *)
Definition node_repr (n : Node) : string :=
  match node_kind n with
  | TagNode _ _ r _ => r
  | _ => ""
  end.

Definition Parser_extend_nodelist (self : Parser) (nodelist : NodeList) (node : Node)
    (token : Token) : pres NodeList :=
  if node_must_be_first node && contains_nontext nodelist
  then Raise (Parser_error_msg token
                (node_repr node +:+ " must be the first tag in the template."))
  else Ok (mkNodeList (nodes nodelist ++ [MkNode (node_kind node) (Some token) (origin self)])
                      (contains_nontext nodelist || negb (is_TextNode node))).

(** [Parser.compile_filter] (base.py 603-607). *)
Definition Parser_compile_filter `{Externals} (registry : gmap string Filter)
    (token : string) : res FilterExpression :=
  FilterExpression_init token registry.

(** A tag compiler is called with the parser and the block token; it may
    call [parse] again (its first argument) and use the queue. *)
Definition parse_fn : Type := list string -> parserM NodeList.
Definition compile_func : Type := parse_fn -> Token -> parserM Node.

Definition is_TemplateSyntaxError (e : pyexn) : bool :=
  match e with
  | TemplateSyntaxError _ => true
  | _ => false
  end.

(** The [while self.tokens] loop of [Parser.parse] (base.py 470-525);
    [fuel] bounds the iterations and the depth of nested calls. *)
Fixpoint parse_loop `{Externals} (fuel : nat) (tags : gmap string compile_func)
    (registry : gmap string Filter) (parse_until : list string)
    (nodelist : NodeList) (self : Parser) : option (pres NodeList * Parser) :=
  match fuel with
  | O => None
  | S fuel' =>
      let continue nl p := parse_loop fuel' tags registry parse_until nl p in
      match tokens self with
      | [] =>
          match parse_until with
          | _ :: _ =>
              let '(e, self') := Parser_unclosed_block_tag parse_until self in
              Some (Raise e, self')
          | [] => Some (Ok nodelist, self)
          end
      | token :: rest =>
          let self := set_tokens self rest in
          match token_type token with
          | TEXT =>
              match Parser_extend_nodelist self nodelist
                      (MkNode (TextNode (contents token)) None None) token with
              | Ok nl => continue nl self
              | Raise e => Some (Raise e, self)
              end
          | VAR =>
              if String.eqb (contents token) ""
              then Some (Raise (Parser_error_msg token
                                  ("Empty variable tag on line " +:+ fmt_d (lineno token))),
                         self)
              else
                match Parser_compile_filter registry (contents token) with
                | Raise e =>
                    if is_TemplateSyntaxError e
                    then Some (Raise (Parser_error token (mkParseError e None)), self)
                    else Some (Raise (mkParseError e None), self)
                | Ok filter_expression =>
                    match Parser_extend_nodelist self nodelist
                            (MkNode (VariableNode filter_expression) None None) token with
                    | Ok nl => continue nl self
                    | Raise e => Some (Raise e, self)
                    end
                end
          | BLOCK =>
              match py_split (contents token) with
              | [] =>
                  Some (Raise (Parser_error_msg token
                                 ("Empty block tag on line " +:+ fmt_d (lineno token))),
                        self)
              | command :: _ =>
                  if bool_decide (command ∈ parse_until)
                  then Some (Ok nodelist, set_tokens self (token :: tokens self))
                  else
                    let self :=
                      set_command_stack self (command_stack self ++ [(command, token)]) in
                    match tags !! command with
                    | None =>
                        Some (Raise (Parser_invalid_block_tag token command parse_until), self)
                    | Some compile =>
                        match compile
                                (fun until p =>
                                   parse_loop fuel' tags registry until empty_NodeList p)
                                token self with
                        | None => None
                        | Some (Raise e, self) => Some (Raise (Parser_error token e), self)
                        | Some (Ok compiled_result, self) =>
                            match Parser_extend_nodelist self nodelist compiled_result token with
                            | Raise e => Some (Raise e, self)
                            | Ok nl =>
                                match list_pop (command_stack self) with
                                | Some (_, cs) => continue nl (set_command_stack self cs)
                                | None => Some (Raise (mkParseError IndexError None), self)
                                end
                            end
                        end
                    end
              end
          | COMMENT => continue nodelist self
          end
      end
  end.

(** [Parser.parse] (base.py 457-525). *)
Definition Parser_parse `{Externals} (fuel : nat) (tags : gmap string compile_func)
    (registry : gmap string Filter) (parse_until : list string) : parserM NodeList :=
  parse_loop fuel tags registry parse_until empty_NodeList.

(** [Parser.next_token], [prepend_token], [delete_first_token]
    (base.py 587-596). *)
Definition Parser_next_token (self : Parser) : pres Token * Parser :=
  match tokens self with
  | t :: rest => (Ok t, set_tokens self rest)
  | [] => (Raise (mkParseError IndexError None), self)
  end.

Definition Parser_prepend_token (token : Token) (self : Parser) : Parser :=
  set_tokens self (token :: tokens self).

Definition Parser_delete_first_token (self : Parser) : pres unit * Parser :=
  match tokens self with
  | _ :: rest => (Ok tt, set_tokens self rest)
  | [] => (Raise (mkParseError IndexError None), self)
  end.

(** ** The lexer's token constructor (base.py 375-410) *)

(** [Lexer.create_token], on the lexer's [verbatim] attribute ([None] for
    [False], otherwise the end tag awaited).  The result is [None] where
    the Python method falls off its end. *)
Definition Lexer_create_token (verbatim : option string) (token_string : string)
    (position : option (Z * Z)) (lineno : Z) (in_tag : bool)
    : option Token * option string :=
  let inner := py_strip (slice 2 (String.length token_string - 2) token_string) in
  let is_block := in_tag && startswith token_string "{%" in
  let verbatim :=
    if is_block && bool_decide (verbatim = Some inner) then None else verbatim in
  match in_tag, verbatim with
  | true, None =>
      if startswith token_string "{{"
      then (Some (mkToken VAR inner position lineno), verbatim)
      else if startswith token_string "{%"
      then (Some (mkToken BLOCK inner position lineno),
            if bool_decide (slice 0 9 inner ∈ ["verbatim"; "verbatim "])
            then Some ("end" +:+ inner) else verbatim)
      else if startswith token_string "{#"
      then (Some (mkToken COMMENT
                    (match String.index 0 "Translators" token_string with
                     | Some O => ""
                     | _ => inner
                     end) position lineno), verbatim)
      else (None, verbatim)
  | _, _ => (Some (mkToken TEXT token_string position lineno), verbatim)
  end.

(** ** Rendering a value (base.py 1042-1056) *)

(** Modelled from the spec: [django.utils.html.escape] and
    [conditional_escape] are not among the sources.  Escaping replaces the
    HTML-special characters by entities and marks the result safe; the
    conditional form leaves a value alone that already carries the safe
    marking. *)
Definition escape_char (a : ascii) : string :=
  if Ascii.eqb a "&" then "&amp;"
  else if Ascii.eqb a "<" then "&lt;"
  else if Ascii.eqb a ">" then "&gt;"
  else if Ascii.eqb a dquote then "&quot;"
  else if Ascii.eqb a squote then "&#39;"
  else String a "".

Fixpoint html_escape (s : string) : string :=
  match s with
  | EmptyString => EmptyString
  | String a rest => escape_char a +:+ html_escape rest
  end.

Definition escape `{Externals} (v : value) : value := VSafe (html_escape (py_str v)).

Definition conditional_escape `{Externals} (v : value) : value :=
  match v with
  | VSafe s => VSafe s
  | _ => escape v
  end.

(** [str(value)] as a value: a [SafeString] returns itself. *)
Definition str_value `{Externals} (v : value) : value :=
  match v with
  | VSafe s => VSafe s
  | _ => VStr (py_str v)
  end.

(** [render_value_in_context] (base.py 1042-1056). *)
Definition render_value_in_context `{Externals} (val : value) (context : Context_) : value :=
  let val := template_localtime val (use_tz context) in
  let val := localize val (use_l10n context) in
  if autoescape context then
    let val := if negb (is_str val) then VStr (py_str val) else val in
    conditional_escape val
  else str_value val.

(** [VariableNode.render] (base.py 1069-1078). *)
Definition VariableNode_render `{Externals} (filter_expression : FilterExpression)
    (context : Context_) : res value :=
  output <- FilterExpression_resolve filter_expression context false;;
  Ok (render_value_in_context output context).

(** The truth value of a flag attribute: [getattr(v, name, False)] where
    the resolver tests it. *)
Definition flag `{Externals} (v : value) (name : string) : res bool :=
  x <- getattr_default v name (VBool false);; Ok (py_truthy x).

(** ** Sample data for the examples *)

(** A context bound to a template whose engine has the given fallback. *)
Definition bound_context (fallback : string) (frames : list frame) : Context_ :=
  mkContext (builtins :: frames) true None None "unknown"
            (Some (mkTemplate None (mkEngine fallback false))).

(** [{'a': {'b': [10, 20]}}], and its inner mapping [{'b': [10, 20]}]. *)
Definition inner_data : value := VDict {[ KStr "b" := VList [VInt 10; VInt 20] ]}.
Definition nested_data : value := VDict {[ KStr "a" := inner_data ]}.

(** An instance whose property [p] raises [AttributeError] in its getter,
    and a mapping that holds it under the key [o]. *)
Definition raising_property : value := VObj {[ "p" := Raise AttributeError ]} None.
Definition holds_raising_property : value := VDict {[ KStr "o" := raising_property ]}.

(** Callables: one flagged [do_not_call_in_templates], one flagged
    [alters_data], a method returning 7, and a function that needs an
    argument. *)
Definition uncalled_class : value :=
  VObj {[ "do_not_call_in_templates" := Ok (VBool true) ]} (Some (Ok VNone, true)).
Definition delete_method : value :=
  VObj {[ "alters_data" := Ok (VBool true) ]} (Some (Ok VNone, true)).
Definition seven_method : value := VObj ∅ (Some (Ok (VInt 7), true)).
Definition needs_argument : value := VObj ∅ (Some (Raise TypeError, false)).

Definition callables_frame : frame :=
  {[ KStr "cls" := uncalled_class; KStr "delete" := delete_method;
     KStr "seven" := seven_method; KStr "needs" := needs_argument ]}.

(** The filter [upper] ([str.upper] on the letters a-z), alone in a
    registry. *)
Definition upper_char (a : ascii) : ascii :=
  let n := nat_of_ascii a in
  if ((97 <=? n) && (n <=? 122))%nat then ascii_of_nat (n - 32) else a.

Definition upper_filter : Filter :=
  mkFilter (fun v _ _ =>
              match v with
              | VStr s | VSafe s => Ok (VStr (text (upper_char <$> chars s)))
              | _ => Raise AttributeError
              end)
           false false false 1 0.

Definition sample_filters : gmap string Filter := {[ "upper" := upper_filter ]}.

(** What [missing|upper] and [missing] compile to with that registry. *)
Definition missing_variable : TemplateVariable :=
  mkVariable "missing" VNone (Some ["missing"]) false None.

Definition missing_upper : FilterExpression :=
  mkFilterExpression "missing|upper" [(upper_filter, [])]
                     (Some (VarVariable missing_variable)).


(** Tokens the parse loop turns into text nodes or drops, without looking
    at the tag registry or the command stack. *)
Definition inert (t : Token) : bool :=
  match token_type t with
  | TEXT | COMMENT => true
  | _ => false
  end.

(** Modelled from the spec: the compilers of the block tags are not among
    the sources.  A block tag's compiler parses up to one of its end
    commands, takes that end token off the queue and returns a node that
    owns the parsed list. *)
Definition block_tag (class_name : string) (end_commands : list string) : compile_func :=
  fun parse token p =>
    match parse end_commands p with
    | None => None
    | Some (Raise e, p') => Some (Raise e, p')
    | Some (Ok nodelist, p') =>
        match Parser_delete_first_token p' with
        | (Ok _, p'') =>
            Some (Ok (MkNode (TagNode class_name false ("<" +:+ class_name +:+ ">")
                                [nodes nodelist]) None None), p'')
        | (Raise e, p'') => Some (Raise e, p'')
        end
    end.

Definition sample_tags : gmap string compile_func :=
  {[ "if" := block_tag "IfNode" ["endif"] ]}.

(** A context with autoescape switched off. *)
Definition unescaped_context : Context_ := Context_init None false None None.

(** ** The rest of context.py *)

(** [BaseContext.__setitem__] (context.py 71-74): the top frame gets the
    binding. *)
Definition BaseContext_setitem (k : key) (v : value) : ctxM unit :=
  fun self =>
    match list_pop (dicts self) with
    | Some (top, below) => (Ok tt, set_dicts self (below ++ [<[k:=v]> top]))
    | None => (Raise IndexError, self)
    end.

(** The search of [set_upward] on the frames from the top down: the first
    frame that has the key gets the binding. *)
Fixpoint set_in_first_holder (rev_dicts : list frame) (k : key) (v : value)
    : option (list frame) :=
  match rev_dicts with
  | [] => None
  | d :: rest =>
      if bool_decide (is_Some (d !! k)) then Some (<[k:=v]> d :: rest)
      else cons d <$> set_in_first_holder rest k v
  end.

(** [BaseContext.set_upward] (context.py 76-87). *)
Definition BaseContext_set_upward (k : key) (v : value) : ctxM unit :=
  fun self =>
    match reverse (dicts self) with
    | [] => (Raise IndexError, self)
    | top :: rest =>
        match set_in_first_holder (top :: rest) k v with
        | Some ds => (Ok tt, set_dicts self (reverse ds))
        | None => (Ok tt, set_dicts self (reverse (<[k:=v]> top :: rest)))
        end
    end.


(** [BaseContext.__contains__] (context.py 102-103). *)
Definition BaseContext_contains (self : Context_) (k : key) : bool :=
  existsb (fun d => bool_decide (is_Some (d !! k))) (dicts self).

(** [BaseContext.get] (context.py 105-109). *)
Fixpoint get_frames (rev_dicts : list frame) (k : key) (otherwise : value) : value :=
  match rev_dicts with
  | [] => otherwise
  | d :: rest =>
      match d !! k with
      | Some v => v
      | None => get_frames rest k otherwise
      end
  end.

Definition BaseContext_get (self : Context_) (k : key) (otherwise : value) : value :=
  get_frames (reverse (dicts self)) k otherwise.

(** [BaseContext.setdefault] (context.py 111-116). *)
Definition BaseContext_setdefault (k : key) (default : value) : ctxM value :=
  fun self =>
    match BaseContext_getitem self k with
    | Ok v => (Ok v, self)
    | Raise KeyError =>
        match BaseContext_setitem k default self with
        | (Ok _, self') => (Ok default, self')
        | (Raise e, self') => (Raise e, self')
        end
    | Raise e => (Raise e, self)
    end.

(** [BaseContext.new] (context.py 118-125): a copy whose frames are reset. *)
Definition BaseContext_new (self : Context_) (values : option frame) : Context_ :=
  set_dicts self (BaseContext_reset_dicts values).

(** [BaseContext.flatten] (context.py 127-135): [flat.update(d)] for each
    frame from the bottom up. *)
Definition BaseContext_flatten (self : Context_) : frame :=
  foldl (fun flat d => d ∪ flat) ∅ (dicts self).

(** [Context.update] (context.py 178-184).  Of another context only the
    top frame above its builtins is taken: [other_dict.dicts[1:].pop()]. *)
Definition Context_update (other_dict : push_arg) : ctxM frame :=
  fun self =>
    match other_dict with
    | ArgContext other =>
        match list_pop (drop 1 (dicts other)) with
        | Some (top, _) => ContextDict_init [top] ∅ self
        | None => (Raise IndexError, self)
        end
    | ArgDict d => ContextDict_init [d] ∅ self
    end.

Definition set_template (c : Context_) (t : option Template) : Context_ :=
  mkContext (dicts c) (autoescape c) (use_l10n c) (use_tz c) (template_name c) t.

Definition RuntimeError : pyexn := OtherException "RuntimeError" false.

(** [Context.bind_template] (context.py 163-171), around a body. *)
Definition Context_bind_template {A} (t : Template) (body : ctxM A) : ctxM A :=
  fun self =>
    match template self with
    | Some _ => (Raise RuntimeError, self)
    | None =>
        let '(r, c) := body (set_template self (Some t)) in
        (r, set_template c None)
    end.


Definition RenderContext_contains (self : Context_) (k : key) : res bool :=
  match list_pop (dicts self) with
  | Some (top, _) => Ok (bool_decide (is_Some (top !! k)))
  | None => Raise IndexError
  end.

Definition RenderContext_get (self : Context_) (k : key) (otherwise : value) : res value :=
  match list_pop (dicts self) with
  | Some (top, _) => Ok (default otherwise (top !! k))
  | None => Raise IndexError
  end.


(** [RequestContext] (context.py 230-277).  A context processor takes the
    request and returns a mapping. *)
Record RequestContext := mkRequestContext {
  rc_context : Context_;
  request : value;
  _processors : list (value -> frame);
  _processors_index : nat
}.

Definition set_rc_context (rc : RequestContext) (c : Context_) : RequestContext :=
  mkRequestContext c (request rc) (_processors rc) (_processors_index rc).

(** [RequestContext.__init__] (context.py 237-248). *)
Definition RequestContext_init (req : value) (dict_ : option frame)
    (processors : list (value -> frame)) (use_l10n use_tz : option bool)
    (autoescape : bool) : RequestContext :=
  let c := Context_init dict_ autoescape use_l10n use_tz in
  let index := length (dicts c) in
  let c := (Context_update (ArgDict ∅) c).2 in
  let c := (Context_update (ArgDict ∅) c).2 in
  mkRequestContext c req processors index.

(** [self.dicts[i] = d]: an index out of range is an [IndexError]. *)
Definition set_frame (i : nat) (d : frame) (c : Context_) : res Context_ :=
  if bool_decide (i < length (dicts c))%nat then Ok (set_dicts c (<[i:=d]> (dicts c)))
  else Raise IndexError.

(** The [updates] that [bind_template] collects: each processor's mapping
    in turn, later ones overriding. *)
Definition collect_updates (processors : list (value -> frame)) (req : value) : frame :=
  foldl (fun updates p => p req ∪ updates) ∅ processors.

(** [RequestContext.bind_template] (context.py 250-269), around a body;
    [engine_processors] is [template.engine.template_context_processors]. *)
Definition RequestContext_bind_template {A} (t : Template)
    (engine_processors : list (value -> frame)) (body : ctxM A)
    (self : RequestContext) : res A * RequestContext :=
  match template (rc_context self) with
  | Some _ => (Raise RuntimeError, self)
  | None =>
      let c := set_template (rc_context self) (Some t) in
      let updates := collect_updates (engine_processors ++ _processors self) (request self) in
      match set_frame (_processors_index self) updates c with
      | Raise e => (Raise e, set_rc_context self c)
      | Ok c1 =>
          let '(r, c2) := body c1 in
          let c3 := set_template c2 None in
          match set_frame (_processors_index self) ∅ c3 with
          | Ok c4 => (r, set_rc_context self c4)
          | Raise e => (Raise e, set_rc_context self c3)
          end
      end
  end.

(** [make_context] (context.py 280-296) with a request; the mapping is a
    dict or [None]. *)
Definition make_context_for_request (context : option frame) (req : value)
    (processors : list (value -> frame)) (use_l10n use_tz : option bool)
    (autoescape : bool) : RequestContext :=
  let rc := RequestContext_init req None processors use_l10n use_tz autoescape in
  match context with
  | Some original_context =>
      if bool_decide (original_context = ∅) then rc
      else set_rc_context rc (BaseContext_push [ArgDict original_context] ∅ (rc_context rc)).2
  | None => rc
  end.

(** ** The rest of the parser and the nodes *)

(** The loop of [Parser.skip_past] (base.py 527-531) on the queue: the
    tokens after the first block token whose contents are the end tag. *)
Fixpoint skip_tokens (endtag : string) (ts : list Token) : option (list Token) :=
  match ts with
  | [] => None
  | t :: rest =>
      match token_type t with
      | BLOCK => if String.eqb (contents t) endtag then Some rest
                 else skip_tokens endtag rest
      | _ => skip_tokens endtag rest
      end
  end.

(** [Parser.skip_past] (base.py 527-532). *)
Definition Parser_skip_past (endtag : string) (self : Parser) : pres unit * Parser :=
  match skip_tokens endtag (tokens self) with
  | Some rest => (Ok tt, set_tokens self rest)
  | None =>
      let '(e, self') := Parser_unclosed_block_tag [endtag] (set_tokens self []) in
      (Raise e, self')
  end.

(** [linebreak_iter] (base.py 292-299): 0, the position after each
    newline, and one past the end increased by one. *)
Fixpoint after_newlines (pos : nat) (l : list ascii) : list nat :=
  match l with
  | [] => []
  | a :: rest =>
      if Ascii.eqb a newline then S pos :: after_newlines (S pos) rest
      else after_newlines (S pos) rest
  end.

Definition linebreak_iter (template_source : string) : list nat :=
  0%nat :: after_newlines 0 (chars template_source)
    ++ [(String.length template_source + 1)%nat].

(** [VariableNode.render] (base.py 1069-1078), with its handler for
    [UnicodeDecodeError]. *)
Definition VariableNode_render_quietly `{Externals} (filter_expression : FilterExpression)
    (context : Context_) : res value :=
  match FilterExpression_resolve filter_expression context false with
  | Ok output => Ok (render_value_in_context output context)
  | Raise (OtherException "UnicodeDecodeError" s) => Ok (VStr "")
  | Raise e => Raise e
  end.

(** [Node.render] for the node classes of base.py; the [render] method of
    a node built by a tag compiler is given by [render_tag]. *)
Definition Node_render `{Externals} (render_tag : Node -> Context_ -> res value)
    (node : Node) (context : Context_) : res value :=
  match node_kind node with
  | TextNode s => Ok (VStr s)
  | VariableNode filter_expression => VariableNode_render_quietly filter_expression context
  | TagNode _ _ _ _ => render_tag node context
  end.

(** [Node.render_annotated] (base.py 972-984).  The handler of an
    exception reads [context.template.engine.debug] first, which is an
    [AttributeError] on a context bound to no template.  With [debug] off
    the exception is raised again; with [debug] on, [annotate] gives the
    exception that leaves the handler: the same one with its
    [template_debug] attribute, or what [get_exception_info] raised. *)
Definition Node_render_annotated `{Externals} (render_tag : Node -> Context_ -> res value)
    (annotate : pyexn -> Node -> Context_ -> pyexn)
    (node : Node) (context : Context_) : res value :=
  match Node_render render_tag node context with
  | Ok bit => Ok bit
  | Raise e =>
      match template context with
      | None => Raise AttributeError
      | Some t => if debug (engine t) then Raise (annotate e node context) else Raise e
      end
  end.

(** The [bits] of [NodeList.render] (base.py 1013-1019); the lists of the
    model hold nodes only. *)
Fixpoint render_bits `{Externals} (render_tag : Node -> Context_ -> res value)
    (annotate : pyexn -> Node -> Context_ -> pyexn)
    (nodes : list Node) (context : Context_) : res (list string) :=
  match nodes with
  | [] => Ok []
  | node :: rest =>
      bit <- Node_render_annotated render_tag annotate node context;;
      bits <- render_bits render_tag annotate rest context;;
      Ok (py_str bit :: bits)
  end.

(** [NodeList.render] (base.py 1011-1020). *)
Definition NodeList_render `{Externals} (render_tag : Node -> Context_ -> res value)
    (annotate : pyexn -> Node -> Context_ -> pyexn)
    (nodes : list Node) (context : Context_) : res value :=
  bits <- render_bits render_tag annotate nodes context;;
  Ok (mark_safe (VStr (py_join "" bits))).

(** [Node.get_nodes_by_type] and [NodeList.get_nodes_by_type]
    (base.py 990-1003, 1022-1028); [isinstance] tells the nodes of the type
    asked for. *)
Fixpoint Node_get_nodes_by_type (isinstance : Node -> bool) (node : Node) : list Node :=
  (if isinstance node then [node] else [])
    ++ match node with
       | MkNode (TagNode _ _ _ child_nodelists) _ _ =>
           List.flat_map (List.flat_map (Node_get_nodes_by_type isinstance)) child_nodelists
       | _ => []
       end.

Definition NodeList_get_nodes_by_type (isinstance : Node -> bool) (nodes : list Node)
    : list Node :=
  List.flat_map (Node_get_nodes_by_type isinstance) nodes.

(** The text nodes [parse] makes of a run of text and comment tokens. *)
Definition text_nodes (org : option Origin) (ts : list Token) : list Node :=
  List.flat_map (fun t => match token_type t with
                          | TEXT => [MkNode (TextNode (contents t)) (Some t) org]
                          | _ => []
                          end) ts.


(** The contents of the text tokens of a run of tokens, in order. *)
Definition text_contents (ts : list Token) : list string :=
  List.flat_map (fun t => match token_type t with
                          | TEXT => [contents t]
                          | _ => []
                          end) ts.


(** ** The lexers (base.py 352-437) *)

(** [tag_re] (base.py 97-101): a block, variable or comment tag, from its
    opening pair to the first matching closing pair on the same line.
    [tag_close c l] is the number of characters of [l] up to and including
    the first [c] followed by a closing brace, when no newline comes
    before it. *)
Fixpoint tag_close (c : ascii) (l : list ascii) : option nat :=
  match l with
  | a :: tl =>
      match tl with
      | b :: _ =>
          if Ascii.eqb a c && Ascii.eqb b "}" then Some 2%nat
          else if Ascii.eqb a newline then None
          else S <$> tag_close c tl
      | [] => None
      end
  | [] => None
  end.

(** The length of the match of [tag_re] at the head of [l]. *)
Definition tag_at (l : list ascii) : option nat :=
  match l with
  | a :: x :: rest =>
      if Ascii.eqb a "{" then
        if Ascii.eqb x "%" then (fun n => 2 + n)%nat <$> tag_close "%" rest
        else if Ascii.eqb x "{" then (fun n => 2 + n)%nat <$> tag_close "}" rest
        else if Ascii.eqb x "#" then (fun n => 2 + n)%nat <$> tag_close "#" rest
        else None
      else None
  | _ => None
  end.

(** [tag_re.finditer]: the spans of the matches from left to right,
    without overlap; [skip] counts the characters still covered by the
    previous match. *)
Fixpoint tag_scan (skip pos : nat) (l : list ascii) : list (nat * nat) :=
  match l with
  | [] => []
  | _ :: tl =>
      match skip with
      | S k => tag_scan k (S pos) tl
      | O =>
          match tag_at l with
          | Some n => (pos, (pos + n)%nat) :: tag_scan (n - 1) (S pos) tl
          | None => tag_scan 0 (S pos) tl
          end
      end
  end.

Definition tag_re_finditer (s : string) : list (nat * nat) := tag_scan 0 0 (chars s).

(** [tag_re.split]: the pattern is one capturing group, so the result
    alternates the text between the matches with the matches. *)
Fixpoint split_bits (s : string) (upto : nat) (spans : list (nat * nat)) : list string :=
  match spans with
  | [] => [slice upto (String.length s) s]
  | (start, end_) :: rest => slice upto start s :: slice start end_ s :: split_bits s end_ rest
  end.

Definition tag_re_split (s : string) : list string := split_bits s 0 (tag_re_finditer s).

(** [s.count(c)] for a character. *)
Fixpoint py_count (c : ascii) (s : string) : Z :=
  match s with
  | EmptyString => 0
  | String a rest => (if Ascii.eqb a c then 1 else 0) + py_count c rest
  end.

(** The loop of [Lexer.tokenize] (base.py 367-372), on the lexer's
    [verbatim] attribute, [in_tag] and [lineno].  An entry of the result is
    what [create_token] returned. *)
Fixpoint tokenize_bits (bits : list string) (verbatim : option string) (in_tag : bool)
    (lineno : Z) : list (option Token) :=
  match bits with
  | [] => []
  | bit :: rest =>
      let lineno' := lineno + py_count newline bit in
      match bit with
      | String _ _ =>
          let '(t, verbatim) := Lexer_create_token verbatim bit None lineno in_tag in
          t :: tokenize_bits rest verbatim (negb in_tag) lineno'
      | EmptyString => tokenize_bits rest verbatim (negb in_tag) lineno'
      end
  end.

(** [Lexer.tokenize] (base.py 357-373). *)
Definition Lexer_tokenize (template_string : string) : list (option Token) :=
  tokenize_bits (tag_re_split template_string) None false 1.

Definition span_position (start end_ : nat) : option (Z * Z) :=
  Some (Z.of_nat start, Z.of_nat end_).

(** The loop of [DebugLexer.tokenize] (base.py 423-436) and the last bit. *)
Fixpoint debug_tokenize_spans (s : string) (spans : list (nat * nat))
    (verbatim : option string) (lineno : Z) (upto : nat) : list (option Token) :=
  match spans with
  | [] =>
      let last_bit := slice upto (String.length s) s in
      match last_bit with
      | String _ _ =>
          [(Lexer_create_token verbatim last_bit
              (span_position upto (upto + String.length last_bit)) lineno false).1]
      | EmptyString => []
      end
  | (start, end_) :: rest =>
      let token_string := slice start end_ s in
      if (upto <? start)%nat then
        let text_string := slice upto start s in
        let '(t, verbatim) :=
          Lexer_create_token verbatim text_string (span_position upto start) lineno false in
        let lineno := lineno + py_count newline text_string in
        let '(t', verbatim) :=
          Lexer_create_token verbatim token_string (span_position start end_) lineno true in
        t :: t' :: debug_tokenize_spans s rest verbatim
                     (lineno + py_count newline token_string) end_
      else
        let '(t', verbatim) :=
          Lexer_create_token verbatim token_string (span_position start end_) lineno true in
        t' :: debug_tokenize_spans s rest verbatim
                (lineno + py_count newline token_string) end_
  end.

(** [DebugLexer.tokenize] (base.py 414-437). *)
Definition DebugLexer_tokenize (template_string : string) : list (option Token) :=
  debug_tokenize_spans template_string (tag_re_finditer template_string) None 1 0.

(** A token without its position, which only the debug lexer records. *)
Definition without_position (t : Token) : Token :=
  mkToken (token_type t) (contents t) None (lineno t).

(** Spans in order, each one non-empty, none before [upto] or past [len]. *)
Fixpoint spans_in_order (upto : nat) (spans : list (nat * nat)) (len : nat) : Prop :=
  match spans with
  | [] => True
  | (start, end_) :: rest =>
      (upto <= start)%nat /\ (start < end_)%nat /\ (end_ <= len)%nat
      /\ spans_in_order end_ rest len
  end.


(** A token string that opens as one of the three tags. *)
Definition starts_a_tag (token_string : string) : bool :=
  startswith token_string "{{" || startswith token_string "{%"
  || startswith token_string "{#".

(** The recorded positions of a token list cover [upto, len) without gap
    or overlap: each token was made, starts where the one before ended
    and is not empty, and the last one ends at [len]. *)
Fixpoint positions_tile (upto : Z) (ts : list (option Token)) (len : Z) : Prop :=
  match ts with
  | [] => upto = len
  | Some t :: rest =>
      exists end_, position t = Some (upto, end_) /\ upto < end_
                   /\ positions_tile end_ rest len
  | None :: _ => False
  end.


(** ** Keyword arguments of a tag (base.py 1081-1130) *)

Definition not_newline (a : ascii) : bool := negb (Ascii.eqb a newline).

(** [kwarg_re.match(bit)] (base.py 1082) as the pair of its two groups: an
    optional key, a run of word characters before an equals sign, and the
    value, the rest of the line, which is not empty.  When no value is
    left after the equals sign the key group does not take part. *)
Definition kwarg_re_match (bit : string) : option (option string * string) :=
  let l := chars bit in
  let whole :=
    match consumed l (skip_while not_newline l) with
    | EmptyString => None
    | line => Some (None, line)
    end in
  let after_word := skip_while is_word l in
  match consumed l after_word, after_word with
  | String _ _ as key, eq :: val =>
      match consumed val (skip_while not_newline val) with
      | String _ _ as value =>
          if Ascii.eqb eq "=" then Some (Some key, value) else whole
      | EmptyString => whole
      end
  | _, _ => whole
  end.

(** [match and match.group(1)] as a test. *)
Definition kwarg_key (bit : string) : option string :=
  match kwarg_re_match bit with
  | Some (Some key, _) => Some key
  | _ => None
  end.

(** The [while bits] loop of [token_kwargs] in the keyword format
    (base.py 1113-1129): the result and what is left of [bits], which the
    function changes in place. *)
Fixpoint kwargs_loop (compile_filter : string -> res FilterExpression)
    (bits : list string) (kwargs : gmap string FilterExpression)
    : res (gmap string FilterExpression) * list string :=
  match bits with
  | [] => (Ok kwargs, [])
  | bit :: rest =>
      match kwarg_re_match bit with
      | Some (Some key, val) =>
          match compile_filter val with
          | Ok fe => kwargs_loop compile_filter rest (<[key := fe]> kwargs)
          | Raise e => (Raise e, rest)
          end
      | _ => (Ok kwargs, bits)
      end
  end.

(** The same loop in the legacy format, [value as key] joined by [and]. *)
Fixpoint legacy_loop (compile_filter : string -> res FilterExpression)
    (bits : list string) (kwargs : gmap string FilterExpression)
    : res (gmap string FilterExpression) * list string :=
  match bits with
  | val :: as_ :: key :: rest =>
      if String.eqb as_ "as" then
        match compile_filter val with
        | Ok fe =>
            match rest with
            | [] => (Ok (<[key := fe]> kwargs), [])
            | and_ :: rest' =>
                if String.eqb and_ "and"
                then legacy_loop compile_filter rest' (<[key := fe]> kwargs)
                else (Ok (<[key := fe]> kwargs), rest)
            end
        | Raise e => (Raise e, rest)
        end
      else (Ok kwargs, bits)
  | _ => (Ok kwargs, bits)
  end.

(** [token_kwargs] (base.py 1085-1130); [compile_filter] is
    [parser.compile_filter]. *)
Definition token_kwargs (compile_filter : string -> res FilterExpression)
    (bits : list string) (support_legacy : bool)
    : res (gmap string FilterExpression) * list string :=
  match bits with
  | [] => (Ok ∅, [])
  | first :: _ =>
      match kwarg_key first with
      | Some _ => kwargs_loop compile_filter bits ∅
      | None =>
          if negb support_legacy then (Ok ∅, bits)
          else
            match bits with
            | _ :: as_ :: _ :: _ =>
                if String.eqb as_ "as" then legacy_loop compile_filter bits ∅
                else (Ok ∅, bits)
            | _ => (Ok ∅, bits)
            end
      end
  end.


(** ** Splitting a token's contents (base.py 335-349) *)

Definition StopIteration : pyexn := OtherException "StopIteration" false.

(** The test of base.py 341: the bit opens a translation literal, an
    underscore and a parenthesis before a double or a single quote. *)
Definition starts_translation (bit : string) : bool :=
  startswith bit (String "_" (String "(" (String dquote "")))
  || startswith bit (String "_" (String "(" (String squote ""))).

(** The loops of [Token.split_contents] over [bits], the pieces that
    [smart_split(self.contents)] yields.  While a translation literal is
    open, [pending] holds its [sentinel] and the pieces gathered in
    [trans_bit]; [next(bits)] on the exhausted iterator raises
    [StopIteration]. *)
Fixpoint split_contents_go (pending : option (string * list string))
    (bits : list string) : res (list string) :=
  match bits with
  | [] =>
      match pending with
      | None => Ok []
      | Some _ => Raise StopIteration
      end
  | bit :: rest =>
      match pending with
      | Some (sentinel, trans_bit) =>
          if endswith bit sentinel
          then split <- split_contents_go None rest;;
               Ok (py_join " " (trans_bit ++ [bit]) :: split)
          else split_contents_go (Some (sentinel, trans_bit ++ [bit])) rest
      | None =>
          if starts_translation bit then
            let sentinel := slice 2 3 bit +:+ ")" in
            if endswith bit sentinel
            then split <- split_contents_go None rest;;
                 Ok (py_join " " [bit] :: split)
            else split_contents_go (Some (sentinel, [bit])) rest
          else split <- split_contents_go None rest;; Ok (bit :: split)
      end
  end.

(** [Token.split_contents] (base.py 335-349), given what [smart_split]
    yields for the contents. *)
Definition Token_split_contents (smart_split_bits : list string) : res (list string) :=
  split_contents_go None smart_split_bits.


(** The pieces, each one after a space: [' '.join] with a leading space. *)
Definition spaced (l : list string) : string :=
  foldr (fun x acc => " " +:+ x +:+ acc) "" l.


(** Sample data for the examples: a tag compiler that returns a given
    node and leaves the parser alone, and a node whose class sets
    [must_be_first]. *)
Definition simple_tag (node : Node) : compile_func :=
  fun _ _ p => Some (Ok node, p).

Definition extends_node : Node :=
  MkNode (TagNode "ExtendsNode" true "<ExtendsNode: extends 'base.html'>" []) None None.


(** ** The turns of the parse loop *)

(** What one turn of the loop of [Parser.parse] does with the token it took
    from the queue: the loop goes on with a node list and a parser, or the
    call ends with a result; [Starved] is a tag compiler out of fuel. *)
Inductive turn :=
| GoesOn (nodelist : NodeList) (self : Parser)
| Ends (result : pres NodeList) (self : Parser)
| Starved.

(** The body of the loop (base.py 471-521) for [token], already taken off
    the queue of [self]; it is the body of [parse_loop], which
    [parse_loop_turn] below shows. *)
Definition parse_token `{Externals} (fuel' : nat) (tags : gmap string compile_func)
    (registry : gmap string Filter) (parse_until : list string)
    (nodelist : NodeList) (token : Token) (self : Parser) : turn :=
  match token_type token with
  | TEXT =>
      match Parser_extend_nodelist self nodelist
              (MkNode (TextNode (contents token)) None None) token with
      | Ok nl => GoesOn nl self
      | Raise e => Ends (Raise e) self
      end
  | VAR =>
      if String.eqb (contents token) ""
      then Ends (Raise (Parser_error_msg token
                          ("Empty variable tag on line " +:+ fmt_d (lineno token))))
                self
      else
        match Parser_compile_filter registry (contents token) with
        | Raise e =>
            if is_TemplateSyntaxError e
            then Ends (Raise (Parser_error token (mkParseError e None))) self
            else Ends (Raise (mkParseError e None)) self
        | Ok filter_expression =>
            match Parser_extend_nodelist self nodelist
                    (MkNode (VariableNode filter_expression) None None) token with
            | Ok nl => GoesOn nl self
            | Raise e => Ends (Raise e) self
            end
        end
  | BLOCK =>
      match py_split (contents token) with
      | [] =>
          Ends (Raise (Parser_error_msg token
                         ("Empty block tag on line " +:+ fmt_d (lineno token))))
               self
      | command :: _ =>
          if bool_decide (command ∈ parse_until)
          then Ends (Ok nodelist) (set_tokens self (token :: tokens self))
          else
            let self :=
              set_command_stack self (command_stack self ++ [(command, token)]) in
            match tags !! command with
            | None => Ends (Raise (Parser_invalid_block_tag token command parse_until)) self
            | Some compile =>
                match compile
                        (fun until p =>
                           parse_loop fuel' tags registry until empty_NodeList p)
                        token self with
                | None => Starved
                | Some (Raise e, self) => Ends (Raise (Parser_error token e)) self
                | Some (Ok compiled_result, self) =>
                    match Parser_extend_nodelist self nodelist compiled_result token with
                    | Raise e => Ends (Raise e) self
                    | Ok nl =>
                        match list_pop (command_stack self) with
                        | Some (_, cs) => GoesOn nl (set_command_stack self cs)
                        | None => Ends (Raise (mkParseError IndexError None)) self
                        end
                    end
                end
            end
      end
  | COMMENT => GoesOn nodelist self
  end.

(** The state of the loop after [n] turns that all go on, if the first [n]
    tokens it takes are worked through in that way: none raises, none is a
    stop command. *)
Fixpoint turns `{Externals} (n fuel : nat) (tags : gmap string compile_func)
    (registry : gmap string Filter) (parse_until : list string)
    (nodelist : NodeList) (self : Parser) : option (NodeList * Parser) :=
  match n with
  | O => Some (nodelist, self)
  | S n' =>
      match fuel, tokens self with
      | S fuel', token :: rest =>
          match parse_token fuel' tags registry parse_until nodelist token
                  (set_tokens self rest) with
          | GoesOn nl p => turns n' fuel' tags registry parse_until nl p
          | _ => None
          end
      | _, _ => None
      end
  end.


(** Tokens that the loop works through whatever the tags and the stop
    commands are: text, comments, and variable tokens that are not empty
    and whose expression compiles. *)
Definition goes_past `{Externals} (registry : gmap string Filter) (t : Token) : bool :=
  match token_type t with
  | TEXT | COMMENT => true
  | VAR =>
      negb (String.eqb (contents t) "")
      && match Parser_compile_filter registry (contents t) with
         | Ok _ => true
         | Raise _ => false
         end
  | BLOCK => false
  end.

(** * Properties *)

(** ** The context stack *)

Section context_stack.
Implicit Types (c : Context_) (ds : list frame).

Lemma dicts_set_dicts c ds : dicts (set_dicts c ds) = ds.
Proof. reflexivity. Qed.

Lemma list_pop_snoc {A} (l : list A) (x : A) : list_pop (l ++ [x]) = Some (x, l).
Proof. unfold list_pop. rewrite last_snoc. by rewrite removelast_last. Qed.

(** A raising [push] leaves the context as it was; a returning one adds
    exactly one frame on top. *)
Lemma push_dicts args kwargs c :
  dicts (BaseContext_push args kwargs c).2 = dicts c
  \/ exists d, dicts (BaseContext_push args kwargs c).2 = dicts c ++ [d].
Proof.
  unfold BaseContext_push, ContextDict_init.
  destruct (py_dict _ _) as [d|e]; simpl; eauto.
Qed.

(** [pop] never touches the frame at the bottom. *)
Lemma pop_keeps_bottom c b rest :
  dicts c = b :: rest -> exists rest', dicts (BaseContext_pop c).2 = b :: rest'.
Proof.
  intros Hc. unfold BaseContext_pop. rewrite Hc.
  destruct rest as [|r rest _] using rev_ind; simpl.
  - eauto.
  - rewrite length_app. simpl.
    replace (length rest + 1 =? 0)%nat with false
      by (symmetry; apply Nat.eqb_neq; lia).
    change (b :: rest ++ [r]) with ((b :: rest) ++ [r]).
    rewrite list_pop_snoc. simpl. eauto.
Qed.

Lemma run_op_keeps_bottom o c b rest :
  dicts c = b :: rest -> exists rest', dicts (run_op o c) = b :: rest'.
Proof.
  intros Hc. destruct o as [args kwargs|]; simpl.
  - destruct (push_dicts args kwargs c) as [->|[d ->]]; rewrite Hc; eauto.
  - by eapply pop_keeps_bottom.
Qed.

Lemma run_ops_keeps_bottom os : forall c b rest,
  dicts c = b :: rest -> exists rest', dicts (run_ops os c) = b :: rest'.
Proof.
  induction os as [|o os IH]; intros c b rest Hc; simpl.
  - eauto.
  - destruct (run_op_keeps_bottom o c b rest Hc) as [rest' Hrest'].
    by eapply IH.
Qed.
End context_stack.

(** C5.  Whatever sequence of [push] and [pop] calls a context goes through
    after its construction, the frame at the bottom of [dicts] is the
    builtins mapping; [pop] on a stack holding only that frame raises
    [ContextPopException] and leaves the stack as it was, and [pop] on a
    larger stack returns and removes exactly the top frame. *)
Theorem builtins_frame_is_never_popped :
  (forall dict_ ae l10n tz os,
      exists rest, dicts (run_ops os (Context_init dict_ ae l10n tz)) = builtins :: rest)
  /\ (forall c : Context_,
        BaseContext_pop (set_dicts c [builtins])
        = (Raise ContextPopException, set_dicts c [builtins]))
  /\ (forall (c : Context_) bottom below top,
        BaseContext_pop (set_dicts c (bottom :: below ++ [top]))
        = (Ok top, set_dicts c (bottom :: below))).
Proof.
  split; [|split].
  - intros dict_ ae l10n tz os.
    eapply run_ops_keeps_bottom. unfold Context_init. simpl. reflexivity.
  - reflexivity.
  - intros c bottom below top. unfold BaseContext_pop.
    rewrite dicts_set_dicts. simpl. rewrite length_app. simpl.
    replace (length below + 1 =? 0)%nat with false
      by (symmetry; apply Nat.eqb_neq; lia).
    change (bottom :: below ++ [top]) with ((bottom :: below) ++ [top]).
    rewrite list_pop_snoc. reflexivity.
Qed.

(** C8.  [push] with two or more mappings does not create a frame: the
    [dict] constructor it hands them to takes one positional argument, so
    the call raises [TypeError] and the stack keeps its frames. *)
Theorem push_of_several_mappings_raises (m1 m2 : frame) (ms : list push_arg)
    (kwargs : gmap string value) (c : Context_) :
  BaseContext_push (ArgDict m1 :: ArgDict m2 :: ms) kwargs c = (Raise TypeError, c).
Proof. reflexivity. Qed.



(** Item access on a context returns the binding of the topmost frame
    that has the key: a pushed frame shadows the frames below it, and a key
    it does not have is looked up below. *)
Theorem getitem_finds_topmost_binding (c : Context_) (top : frame) (k : key) :
  BaseContext_getitem (set_dicts c (dicts c ++ [top])) k
  = match top !! k with
    | Some v => Ok v
    | None => BaseContext_getitem c k
    end.
Proof.
  unfold BaseContext_getitem. rewrite dicts_set_dicts, reverse_snoc. reflexivity.
Qed.

(** ** Variable lookups *)

Section lookups.
Context {ext : Externals}.
Implicit Types (context current v : value) (bit : string) (e : pyexn).

(** Subscripting fails with [TypeError], [IndexError] or [KeyError] only. *)
Lemma getitem_frames_raises ds k e : getitem_frames ds k = Raise e -> e = KeyError.
Proof.
  induction ds as [|d ds IH]; simpl.
  - congruence.
  - destruct (d !! k); [discriminate | exact IH].
Qed.

Lemma py_getitem_raises current k e :
  py_getitem current k = Raise e -> e = TypeError \/ e = IndexError \/ e = KeyError.
Proof.
  destruct current, k; simpl; try (intros [= <-]; tauto);
    repeat match goal with |- context [match ?x with _ => _ end] => destruct x end;
    try discriminate; try (intros [= <-]; tauto).
  all: intros H; apply getitem_frames_raises in H; tauto.
Qed.

Lemma dictionary_lookup_caught current bit e :
  dictionary_lookup current bit = Raise e -> caught_by_dict_lookup e = true.
Proof.
  intros H. apply py_getitem_raises in H as [->|[->| ->]]; reflexivity.
Qed.

Lemma list_index_lookup_caught current bit e :
  list_index_lookup current bit = Raise e -> caught_by_index_lookup e = true.
Proof.
  unfold list_index_lookup. destruct (py_int bit).
  - intros H. apply py_getitem_raises in H as [->|[->| ->]]; reflexivity.
  - intros [= <-]. reflexivity.
Qed.

(** The loop handles a path piece by piece. *)
Lemma resolve_bits_app context pre : forall current post,
  resolve_bits context current (pre ++ post)
  = (v <- resolve_bits context current pre;; resolve_bits context v post).
Proof.
  induction pre as [|bit pre IH]; intros current post; simpl.
  - reflexivity.
  - destruct (lookup_bit current bit) as [v|e]; simpl; [|reflexivity].
    destruct (call_if_callable context v) as [v'|e]; simpl; [|reflexivity].
    apply IH.
Qed.

Lemma lookup_bit_by_key current bit v :
  dictionary_lookup current bit = Ok v -> lookup_bit current bit = Ok v.
Proof. intros Hd. unfold lookup_bit. by rewrite Hd. Qed.

(** A value of a built-in type has no attribute whose name is a number, so
    a numeric segment that is no key goes on to the index stage. *)
Lemma lookup_bit_by_index current bit e v :
  dictionary_lookup current bit = Raise e ->
  is_BaseContext current = false ->
  match current with VObj _ _ => false | _ => true end = true ->
  list_index_lookup current bit = Ok v ->
  lookup_bit current bit = Ok v.
Proof.
  intros Hd Hctx Hdata Hi. unfold lookup_bit.
  rewrite Hd, (dictionary_lookup_caught _ _ _ Hd).
  assert (Hint : exists i, py_int bit = Some i).
  { unfold list_index_lookup in Hi. destruct (py_int bit); [eauto | discriminate]. }
  destruct Hint as [i Hint].
  assert (Hnone : builtin_getattr current bit = None).
  { destruct (builtin_getattr current bit) as [m|] eqn:Hm; [|reflexivity].
    apply builtin_attr_is_identifier in Hm. congruence. }
  unfold attribute_lookup, py_dir_contains. rewrite Hctx.
  destruct current; try discriminate; simpl; rewrite Hnone; simpl; by rewrite Hi.
Qed.

Lemma lookup_bit_all_fail current bit e e' e'' :
  dictionary_lookup current bit = Raise e ->
  attribute_lookup current bit = Raise e' ->
  caught_by_attribute_lookup e' = true ->
  is_BaseContext current || negb (py_dir_contains current bit) = true ->
  list_index_lookup current bit = Raise e'' ->
  lookup_bit current bit = Raise (VariableDoesNotExist bit current).
Proof.
  intros Hd Ha Hc Hguard Hi. unfold lookup_bit.
  rewrite Hd, (dictionary_lookup_caught _ _ _ Hd), Ha, Hc.
  replace (negb (is_BaseContext current) && py_dir_contains current bit) with false
    by (destruct (is_BaseContext current), (py_dir_contains current bit);
        simpl in *; congruence).
  by rewrite Hi, (list_index_lookup_caught _ _ _ Hi).
Qed.
End lookups.

(** C1, as the code has it.  The loop walks the segments from left to
    right.  A segment is looked up by key first; if that raises, as an
    attribute; and, if that raises [TypeError] or [AttributeError] and the
    segment is not a name in [dir(current)] of an object that is not a
    context, by integer index.  When all three have failed the lookup
    raises [VariableDoesNotExist] with the segment and the current value,
    and [resolve] passes it on.  An attribute that exists and raises is
    re-raised instead.  [Variable("a.b.0")] resolves to 10 on
    [{'a': {'b': [10, 20]}}]. *)
Theorem lookup_stages_in_order `{Externals} (context : value) :
  (forall current pre post,
      resolve_bits context current (pre ++ post)
      = (v <- resolve_bits context current pre;; resolve_bits context v post))
  /\ (forall current bit v,
        dictionary_lookup current bit = Ok v -> lookup_bit current bit = Ok v)
  /\ (forall current bit e v,
        dictionary_lookup current bit = Raise e ->
        caught_by_dict_lookup e = true ->
        attribute_lookup current bit = Ok v -> lookup_bit current bit = Ok v)
  /\ (forall current bit e e' v,
        dictionary_lookup current bit = Raise e ->
        caught_by_dict_lookup e = true ->
        attribute_lookup current bit = Raise e' ->
        caught_by_attribute_lookup e' = true ->
        is_BaseContext current || negb (py_dir_contains current bit) = true ->
        list_index_lookup current bit = Ok v -> lookup_bit current bit = Ok v)
  /\ (forall pre current bit post e e' e'' self,
        lookups self = Some (pre ++ bit :: post) ->
        resolve_bits context context pre = Ok current ->
        dictionary_lookup current bit = Raise e ->
        caught_by_dict_lookup e = true ->
        attribute_lookup current bit = Raise e' ->
        caught_by_attribute_lookup e' = true ->
        is_BaseContext current || negb (py_dir_contains current bit) = true ->
        list_index_lookup current bit = Raise e'' ->
        caught_by_index_lookup e'' = true ->
        Variable_resolve self context = Raise (VariableDoesNotExist bit current))
  /\ (forall current bit e e',
        dictionary_lookup current bit = Raise e ->
        caught_by_dict_lookup e = true ->
        attribute_lookup current bit = Raise e' ->
        is_BaseContext current = false ->
        py_dir_contains current bit = true ->
        lookup_bit current bit = Raise e')
  /\ (v <- Variable_init "a.b.0";; Variable_resolve v nested_data) = Ok (VInt 10).
Proof.
  split; [|split; [|split; [|split; [|split; [|split]]]]].
  - intros. apply resolve_bits_app.
  - intros current bit v Hd. unfold lookup_bit. by rewrite Hd.
  - intros current bit e v Hd He Ha. unfold lookup_bit. by rewrite Hd, He, Ha.
  - intros current bit e e' v Hd He Ha Hc Hguard Hi. unfold lookup_bit.
    rewrite Hd, He, Ha, Hc.
    replace (negb (is_BaseContext current) && py_dir_contains current bit) with false
      by (destruct (is_BaseContext current), (py_dir_contains current bit);
          simpl in *; congruence).
    by rewrite Hi.
  - intros pre current bit post e e' e'' self Hl Hpre Hd He Ha Hc Hguard Hi Hi'.
    unfold Variable_resolve, Variable_resolve_lookup. rewrite Hl.
    rewrite resolve_bits_app, Hpre. simpl.
    by rewrite (lookup_bit_all_fail _ _ _ _ _ Hd Ha Hc Hguard Hi).
  - intros current bit e e' Hd He Ha Hctx Hdir. unfold lookup_bit.
    rewrite Hd, He, Ha, Hctx, Hdir. simpl.
    by destruct (caught_by_attribute_lookup e').
  - change (Variable_init "a.b.0")
      with (Ok (E := pyexn) (mkVariable "a.b.0" VNone (Some ["a"; "b"; "0"]) false None)).
    unfold Variable_resolve, Variable_resolve_lookup. cbn [bind lookups translate resolve_bits].
    rewrite (lookup_bit_by_key nested_data "a" inner_data eq_refl).
    cbn [bind call_if_callable py_callable inner_data].
    rewrite (lookup_bit_by_key inner_data "b" (VList [VInt 10; VInt 20]) eq_refl).
    cbn [bind call_if_callable py_callable].
    rewrite (lookup_bit_by_index (VList [VInt 10; VInt 20]) "0" TypeError (VInt 10)
               eq_refl eq_refl eq_refl eq_refl).
    reflexivity.
Qed.

(** The index stage and the failure of all three stages, on
    [{'a': {'b': [10, 20]}}]. *)
Lemma lookup_stages_in_order_witness :
  @lookup_bit plain_externals (VList [VInt 10; VInt 20]) "0" = Ok (VInt 10)
  /\ @Variable_resolve plain_externals
       (mkVariable "a.c" VNone (Some ["a"; "c"]) false None) nested_data
     = Raise (VariableDoesNotExist "c" inner_data).
Proof.
  pose proof (@lookup_stages_in_order plain_externals nested_data)
    as (_ & _ & _ & Hindex & Hfail & _).
  split.
  - apply (Hindex _ _ TypeError AttributeError); reflexivity.
  - apply (Hfail ["a"] _ "c" [] KeyError AttributeError ValueError); reflexivity.
Defined.

(** On an instance whose property [p] raises, the three accesses for the
    segment [p] all fail, and yet the lookup of [o.p] does not end in
    [VariableDoesNotExist]: the property's own [AttributeError] comes out. *)
Lemma raising_property_is_reraised :
  dictionary_lookup raising_property "p" = Raise TypeError
  /\ @attribute_lookup plain_externals raising_property "p" = Raise AttributeError
  /\ list_index_lookup raising_property "p" = Raise ValueError
  /\ (v <- @Variable_init plain_externals "o.p";;
      @Variable_resolve plain_externals v holds_raising_property)
     = Raise AttributeError
  /\ (v <- @Variable_init plain_externals "o.p";;
      @Variable_resolve plain_externals v holds_raising_property)
     <> Raise (VariableDoesNotExist "p" raising_property).
Proof. repeat split; try reflexivity. discriminate. Qed.

(** C2, as the code has it.  Let a segment resolve to a callable [v].  If
    [v] is flagged [do_not_call_in_templates] the loop goes on with [v]
    itself.  Otherwise, if it is flagged [alters_data], it is not called:
    the loop reads [context.template.engine.string_if_invalid] and goes on
    with it.  Otherwise [v] is called without arguments: a returned value
    is what the loop goes on with, a [TypeError] from a call that needed
    arguments is replaced by the same fallback, and any other [TypeError]
    is raised again.  On a context bound to a template the fallback is
    the engine's string.  On a context bound to no template reading it
    raises [AttributeError], which ends the lookup: nothing is put in the
    place of the callable. *)
Theorem callable_segment_policy `{Externals} (context current : value)
    (bit : string) (rest : list string) (v : value) :
  lookup_bit current bit = Ok v ->
  py_callable v = true ->
  (flag v "do_not_call_in_templates" = Ok true ->
   resolve_bits context current (bit :: rest) = resolve_bits context v rest)
  /\ (forall r,
        flag v "do_not_call_in_templates" = Ok false ->
        flag v "alters_data" = Ok false ->
        py_call v = Ok r ->
        resolve_bits context current (bit :: rest) = resolve_bits context r rest)
  /\ (forall c t,
        context = VContext c ->
        template c = Some t ->
        flag v "do_not_call_in_templates" = Ok false ->
        flag v "alters_data" = Ok true ->
        resolve_bits context current (bit :: rest)
        = resolve_bits context (VStr (string_if_invalid (engine t))) rest)
  /\ (forall c t,
        context = VContext c ->
        template c = Some t ->
        flag v "do_not_call_in_templates" = Ok false ->
        flag v "alters_data" = Ok false ->
        py_call v = Raise TypeError ->
        getcallargs_ok v = false ->
        resolve_bits context current (bit :: rest)
        = resolve_bits context (VStr (string_if_invalid (engine t))) rest)
  /\ (forall c,
        context = VContext c ->
        template c = None ->
        flag v "do_not_call_in_templates" = Ok false ->
        flag v "alters_data" = Ok true ->
        resolve_bits context current (bit :: rest) = Raise AttributeError)
  /\ (forall c,
        context = VContext c ->
        template c = None ->
        flag v "do_not_call_in_templates" = Ok false ->
        flag v "alters_data" = Ok false ->
        py_call v = Raise TypeError ->
        getcallargs_ok v = false ->
        resolve_bits context current (bit :: rest) = Raise AttributeError)
  /\ (flag v "do_not_call_in_templates" = Ok false ->
      flag v "alters_data" = Ok true ->
      resolve_bits context current (bit :: rest)
      = (fallback <- get_string_if_invalid context;; resolve_bits context fallback rest))
  /\ (flag v "do_not_call_in_templates" = Ok false ->
      flag v "alters_data" = Ok false ->
      py_call v = Raise TypeError ->
      getcallargs_ok v = false ->
      resolve_bits context current (bit :: rest)
      = (fallback <- get_string_if_invalid context;; resolve_bits context fallback rest))
  /\ (flag v "do_not_call_in_templates" = Ok false ->
      flag v "alters_data" = Ok false ->
      py_call v = Raise TypeError ->
      getcallargs_ok v = true ->
      resolve_bits context current (bit :: rest) = Raise TypeError).
Proof.
  intros Hl Hc.
  assert (Hflag : forall name b, flag v name = Ok b ->
            exists x, getattr_default v name (VBool false) = Ok x /\ py_truthy x = b).
  { intros name b. unfold flag.
    destruct (getattr_default v name (VBool false)) as [x|e]; simpl; [|discriminate].
    intros [= <-]. eauto. }
  assert (Halters : flag v "do_not_call_in_templates" = Ok false ->
                    flag v "alters_data" = Ok true ->
                    resolve_bits context current (bit :: rest)
                    = (fallback <- get_string_if_invalid context;;
                       resolve_bits context fallback rest)).
  { intros (x & Hx & Tx)%Hflag (y & Hy & Ty)%Hflag.
    cbn [resolve_bits]. rewrite Hl. simpl. unfold call_if_callable. rewrite Hc.
    rewrite Hx. simpl. rewrite Tx, Hy. simpl. by rewrite Ty. }
  assert (Hneeds : flag v "do_not_call_in_templates" = Ok false ->
                   flag v "alters_data" = Ok false ->
                   py_call v = Raise TypeError ->
                   getcallargs_ok v = false ->
                   resolve_bits context current (bit :: rest)
                   = (fallback <- get_string_if_invalid context;;
                      resolve_bits context fallback rest)).
  { intros (x & Hx & Tx)%Hflag (y & Hy & Ty)%Hflag Hcall Hargs.
    cbn [resolve_bits]. rewrite Hl. simpl. unfold call_if_callable. rewrite Hc.
    rewrite Hx. simpl. rewrite Tx, Hy. simpl. by rewrite Ty, Hcall, Hargs. }
  split; [|split; [|split; [|split; [|split; [|split; [|split; [|split]]]]]]].
  - intros (x & Hx & Tx)%Hflag.
    cbn [resolve_bits]. rewrite Hl. simpl. unfold call_if_callable. rewrite Hc.
    rewrite Hx. simpl. by rewrite Tx.
  - intros r (x & Hx & Tx)%Hflag (y & Hy & Ty)%Hflag Hcall.
    cbn [resolve_bits]. rewrite Hl. simpl. unfold call_if_callable. rewrite Hc.
    rewrite Hx. simpl. rewrite Tx, Hy. simpl. by rewrite Ty, Hcall.
  - intros c t -> Ht Hdnc Had. rewrite (Halters Hdnc Had). simpl. by rewrite Ht.
  - intros c t -> Ht Hdnc Had Hcall Hargs.
    rewrite (Hneeds Hdnc Had Hcall Hargs). simpl. by rewrite Ht.
  - intros c -> Ht Hdnc Had. rewrite (Halters Hdnc Had). simpl. by rewrite Ht.
  - intros c -> Ht Hdnc Had Hcall Hargs.
    rewrite (Hneeds Hdnc Had Hcall Hargs). simpl. by rewrite Ht.
  - exact Halters.
  - exact Hneeds.
  - intros (x & Hx & Tx)%Hflag (y & Hy & Ty)%Hflag Hcall Hargs.
    cbn [resolve_bits]. rewrite Hl. simpl. unfold call_if_callable. rewrite Hc.
    rewrite Hx. simpl. rewrite Tx, Hy. simpl. by rewrite Ty, Hcall, Hargs.
Qed.

(** The four cases on a context whose engine falls back to ["N/A"], and
    the flagged method on a context bound to no template. *)
Lemma callable_segment_policy_witness :
  @resolve_bits plain_externals
    (VContext (bound_context "N/A" [callables_frame]))
    (VContext (bound_context "N/A" [callables_frame])) ["cls"]
  = Ok uncalled_class
  /\ @resolve_bits plain_externals
       (VContext (bound_context "N/A" [callables_frame]))
       (VContext (bound_context "N/A" [callables_frame])) ["delete"]
     = Ok (VStr "N/A")
  /\ @resolve_bits plain_externals
       (VContext (bound_context "N/A" [callables_frame]))
       (VContext (bound_context "N/A" [callables_frame])) ["seven"]
     = Ok (VInt 7)
  /\ @resolve_bits plain_externals
       (VContext (bound_context "N/A" [callables_frame]))
       (VContext (bound_context "N/A" [callables_frame])) ["needs"]
     = Ok (VStr "N/A")
  /\ @resolve_bits plain_externals
       (VContext (Context_init (Some callables_frame) true None None))
       (VContext (Context_init (Some callables_frame) true None None)) ["delete"]
     = Raise AttributeError.
Proof.
  pose (c := bound_context "N/A" [callables_frame]).
  pose (t := mkTemplate None (mkEngine "N/A" false)).
  pose (u := Context_init (Some callables_frame) true None None).
  split; [|split; [|split; [|split]]].
  - apply (proj1 (@callable_segment_policy plain_externals (VContext c) (VContext c)
                    "cls" [] uncalled_class eq_refl eq_refl)).
    reflexivity.
  - pose proof (@callable_segment_policy plain_externals (VContext c) (VContext c)
                  "delete" [] delete_method eq_refl eq_refl)
      as (_ & _ & Hbound & _).
    apply (Hbound c t); reflexivity.
  - pose proof (@callable_segment_policy plain_externals (VContext c) (VContext c)
                  "seven" [] seven_method eq_refl eq_refl)
      as (_ & Hcall & _).
    apply (Hcall (VInt 7)); reflexivity.
  - pose proof (@callable_segment_policy plain_externals (VContext c) (VContext c)
                  "needs" [] needs_argument eq_refl eq_refl)
      as (_ & _ & _ & Hneeds & _).
    apply (Hneeds c t); reflexivity.
  - pose proof (@callable_segment_policy plain_externals (VContext u) (VContext u)
                  "delete" [] delete_method eq_refl eq_refl)
      as (_ & _ & _ & _ & Hunbound & _).
    apply (Hunbound u); reflexivity.
Defined.

(** A template variable that names a method flagged [alters_data], and
    one that names a function needing an argument, resolved against a
    [Context] that no template is bound to: the lookup ends in
    [AttributeError], and no fallback string is put in their place. *)
Lemma callable_on_unbound_context_raises :
  (v <- @Variable_init plain_externals "delete";;
   @Variable_resolve plain_externals v
     (VContext (Context_init (Some callables_frame) true None None)))
  = Raise AttributeError
  /\ (v <- @Variable_init plain_externals "needs";;
      @Variable_resolve plain_externals v
        (VContext (Context_init (Some callables_frame) true None None)))
     = Raise AttributeError.
Proof. split; reflexivity. Qed.

(** ** Filter expressions *)

Section fallback_format.
Context {ext : Externals}.
Implicit Types (pre post arg : string).

Lemma chars_app pre post : chars (pre +:+ post) = chars pre ++ chars post.
Proof. induction pre as [|a pre IH]; simpl; [reflexivity | by rewrite IH]. Qed.

Lemma py_in_middle sub pre post : py_in sub (pre +:+ sub +:+ post) = true.
Proof.
  induction pre as [|a pre IH]; simpl.
  - assert (Hp : String.prefix sub (sub +:+ post) = true).
    { clear. induction sub as [|b sub IH]; simpl.
      - by destruct post.
      - destruct (ascii_dec b b); [exact IH | congruence]. }
    destruct (sub +:+ post); simpl in *; rewrite Hp; reflexivity.
  - rewrite IH. apply orb_true_r.
Qed.

(** A text without a percent sign is copied by the formatting. *)
Lemma py_mod_go_plain post used arg :
  forallb (fun a => negb (Ascii.eqb a "%")) (chars post) = true ->
  py_mod_go (chars post) used arg = Some (if used then Ok post else Raise TypeError).
Proof.
  induction post as [|a post IH]; simpl.
  - intros _. by destruct used.
  - intros [Ha Hpost]%andb_true_iff. apply negb_true_iff in Ha. rewrite Ha.
    rewrite (IH Hpost). by destruct used.
Qed.

(** One placeholder between two plain texts is replaced by the argument. *)
Lemma py_mod_go_placeholder pre post arg :
  forallb (fun a => negb (Ascii.eqb a "%")) (chars pre) = true ->
  forallb (fun a => negb (Ascii.eqb a "%")) (chars post) = true ->
  py_mod_go (chars pre ++ "%"%char :: "s"%char :: chars post) false arg
  = Some (Ok (pre +:+ arg +:+ post)).
Proof.
  intros Hpre Hpost. induction pre as [|a pre IH].
  - cbn. rewrite (py_mod_go_plain post true arg Hpost). reflexivity.
  - cbn in Hpre. apply andb_true_iff in Hpre as [Ha Hpre].
    apply negb_true_iff in Ha.
    cbn [chars list_ascii_of_string app py_mod_go]. rewrite Ha.
    change (list_ascii_of_string pre) with (chars pre). by rewrite (IH Hpre).
Qed.

Lemma py_mod_placeholder pre post arg :
  forallb (fun a => negb (Ascii.eqb a "%")) (chars pre) = true ->
  forallb (fun a => negb (Ascii.eqb a "%")) (chars post) = true ->
  py_mod (pre +:+ "%s" +:+ post) arg = Ok (pre +:+ arg +:+ post).
Proof.
  intros Hpre Hpost. unfold py_mod. rewrite chars_app.
  change (chars ("%s" +:+ post)) with ("%"%char :: "s"%char :: chars post).
  by rewrite (py_mod_go_placeholder pre post arg Hpre Hpost).
Qed.
End fallback_format.

(** C3, as the code has it.  When the base variable of a filter expression
    fails with [VariableDoesNotExist], failures are not ignored and the
    engine has a non-empty fallback, [resolve] returns the fallback at
    once, with the text of the variable in the place of a [%s] if the
    fallback contains one; no filter of the chain is applied. *)
Theorem fallback_is_returned_unfiltered `{Externals} (self : FilterExpression)
    (context : Context_) (t : Template) (v : TemplateVariable)
    (bit : string) (current : value) :
  fe_var_obj self = Some (VarVariable v) ->
  Variable_resolve v (VContext context) = Raise (VariableDoesNotExist bit current) ->
  template context = Some t ->
  string_if_invalid (engine t) <> "" ->
  FilterExpression_resolve self context false
  = (if py_in "%s" (string_if_invalid (engine t))
     then s <- py_mod (string_if_invalid (engine t)) (var v);; Ok (VStr s)
     else Ok (VStr (string_if_invalid (engine t))))
  /\ (py_in "%s" (string_if_invalid (engine t)) = false ->
      FilterExpression_resolve self context false = Ok (VStr (string_if_invalid (engine t))))
  /\ (forall pre post,
        string_if_invalid (engine t) = pre +:+ "%s" +:+ post ->
        forallb (fun a => negb (Ascii.eqb a "%")) (chars pre) = true ->
        forallb (fun a => negb (Ascii.eqb a "%")) (chars post) = true ->
        FilterExpression_resolve self context false = Ok (VStr (pre +:+ var v +:+ post))).
Proof.
  intros Hvar Hfail Ht Hne.
  assert (Heq : FilterExpression_resolve self context false
                = (if py_in "%s" (string_if_invalid (engine t))
                   then s <- py_mod (string_if_invalid (engine t)) (var v);; Ok (VStr s)
                   else Ok (VStr (string_if_invalid (engine t))))).
  { unfold FilterExpression_resolve, Context_string_if_invalid.
    rewrite Hvar, Hfail, Ht. simpl.
    destruct (String.eqb_spec (string_if_invalid (engine t)) ""); [contradiction|].
    reflexivity. }
  split; [exact Heq|split].
  - intros Hno. by rewrite Heq, Hno.
  - intros pre post Hshape Hpre Hpost. rewrite Heq, Hshape.
    by rewrite py_in_middle, (py_mod_placeholder pre post (var v) Hpre Hpost).
Qed.

(** [missing|upper] on a context without [missing], with the fallbacks
    ["n/a"] and ["no %s!"]. *)
Lemma fallback_is_returned_unfiltered_witness :
  @FilterExpression_resolve plain_externals missing_upper (bound_context "n/a" []) false
  = Ok (VStr "n/a")
  /\ @FilterExpression_resolve plain_externals missing_upper (bound_context "no %s!" []) false
     = Ok (VStr "no missing!").
Proof.
  split.
  - apply (proj1 (proj2 (@fallback_is_returned_unfiltered plain_externals missing_upper
                           (bound_context "n/a" []) (mkTemplate None (mkEngine "n/a" false))
                           missing_variable "missing" (VContext (bound_context "n/a" []))
                           eq_refl eq_refl eq_refl ltac:(discriminate))));
      reflexivity.
  - apply (proj2 (proj2 (@fallback_is_returned_unfiltered plain_externals missing_upper
                           (bound_context "no %s!" [])
                           (mkTemplate None (mkEngine "no %s!" false))
                           missing_variable "missing" (VContext (bound_context "no %s!" []))
                           eq_refl eq_refl eq_refl ltac:(discriminate)))
             "no " "!"); reflexivity.
Defined.

(** The expression [missing|upper], compiled, on a context whose engine
    falls back to ["n/a"]: applying the chain to the fallback would give
    ["N/A"], and [resolve] returns ["n/a"]. *)
Lemma fallback_is_not_filtered :
  @FilterExpression_init plain_externals "missing|upper" sample_filters = Ok missing_upper
  /\ @Variable_resolve plain_externals missing_variable (VContext (bound_context "n/a" []))
     = Raise (VariableDoesNotExist "missing" (VContext (bound_context "n/a" [])))
  /\ @apply_filters plain_externals (bound_context "n/a" []) (VStr "n/a")
       (filters missing_upper)
     = Ok (VStr "N/A")
  /\ @FilterExpression_resolve plain_externals missing_upper (bound_context "n/a" []) false
     = Ok (VStr "n/a").
Proof. repeat split. Qed.




(** C9.  A filter expression that compiles keeps its raw text: the string
    form of the compiled expression is the text it was compiled from. *)
Theorem compiled_expression_prints_its_source `{Externals} (raw : string)
    (registry : gmap string Filter) (fe : FilterExpression) :
  FilterExpression_init raw registry = Ok fe ->
  FilterExpression_str fe = raw.
Proof.
  unfold FilterExpression_init.
  destruct (init_loop raw registry (filter_re_finditer raw) (None, [], 0%nat))
    as [[[var_obj fs] upto]|e]; simpl; [|discriminate].
  destruct (negb (upto =? String.length raw)%nat); [discriminate|].
  by intros [= <-].
Qed.

(** [missing|upper] compiles, and prints as it was written. *)
Lemma compiled_expression_prints_its_source_witness :
  @FilterExpression_init plain_externals "missing|upper" sample_filters = Ok missing_upper
  /\ FilterExpression_str missing_upper = "missing|upper".
Proof.
  split; [reflexivity|].
  apply (@compiled_expression_prints_its_source plain_externals _ sample_filters).
  reflexivity.
Defined.

(** ** The parser *)

Section parse_loop_facts.
Context `{Externals}.
Variables (tags : gmap string compile_func) (registry : gmap string Filter).
Variable parse_until : list string.

(** The loop works through text and comment tokens and leaves the rest
    of the queue and the command stack alone. *)
Lemma parse_loop_inert_prefix rest stack org texts : forall nodelist,
  forallb inert texts = true ->
  exists nodelist', forall fuel,
    parse_loop (length texts + fuel) tags registry parse_until nodelist
               (mkParser (texts ++ rest) stack org)
    = parse_loop fuel tags registry parse_until nodelist' (mkParser rest stack org).
Proof.
  induction texts as [|t texts IH]; intros nodelist Hinert.
  - exists nodelist. reflexivity.
  - simpl in Hinert. apply andb_true_iff in Hinert as [Ht Hinert].
    unfold inert in Ht. destruct (token_type t) eqn:Hty; try discriminate.
    + destruct (IH (mkNodeList
                      (nodes nodelist
                         ++ [MkNode (TextNode (contents t)) (Some t) org])
                      (contains_nontext nodelist || false)) Hinert)
        as [nodelist' Hnl].
      exists nodelist'. intros fuel. simpl. rewrite Hty. exact (Hnl fuel).
    + destruct (IH nodelist Hinert) as [nodelist' Hnl].
      exists nodelist'. intros fuel. simpl. rewrite Hty. exact (Hnl fuel).
Qed.

(** [str.split()] of a text of white space is the empty list. *)
Lemma split_ws_blank l : forallb py_isspace l = true -> split_ws [] l = [].
Proof.
  induction l as [|a l IH]; simpl; [reflexivity|].
  intros [Ha Hl]%andb_true_iff. rewrite Ha. exact (IH Hl).
Qed.
End parse_loop_facts.

Section parse_turns.
Context {ext : Externals}.
Variables (tags : gmap string compile_func) (registry : gmap string Filter).
Variable parse_until : list string.

(** The loop, one turn at a time. *)
Lemma parse_loop_turn fuel nodelist self :
  parse_loop (S fuel) tags registry parse_until nodelist self
  = match tokens self with
    | [] =>
        match parse_until with
        | _ :: _ =>
            let '(e, self') := Parser_unclosed_block_tag parse_until self in
            Some (Raise e, self')
        | [] => Some (Ok nodelist, self)
        end
    | token :: rest =>
        match parse_token fuel tags registry parse_until nodelist token
                (set_tokens self rest) with
        | GoesOn nl p => parse_loop fuel tags registry parse_until nl p
        | Ends r p => Some (r, p)
        | Starved => None
        end
    end.
Proof.
  cbn [parse_loop]. destruct (tokens self) as [|token rest]; [reflexivity|].
  unfold parse_token. repeat case_match; reflexivity.
Qed.

(** After [n] turns that go on, the loop is where [turns] says. *)
Lemma parse_loop_turns n : forall fuel nodelist self nodelist' self',
  turns n fuel tags registry parse_until nodelist self = Some (nodelist', self') ->
  (n <= fuel)%nat
  /\ parse_loop fuel tags registry parse_until nodelist self
     = parse_loop (fuel - n) tags registry parse_until nodelist' self'.
Proof.
  induction n as [|n IH]; intros fuel nodelist self nodelist' self'; cbn [turns].
  - intros [= <- <-]. split; [lia|]. by rewrite Nat.sub_0_r.
  - destruct fuel as [|fuel]; [discriminate|].
    destruct (tokens self) as [|token rest] eqn:Htokens; [discriminate|].
    destruct (parse_token fuel tags registry parse_until nodelist token
                (set_tokens self rest)) as [nl p|r p|] eqn:Hturn; try discriminate.
    intros [Hle Heq]%IH. split; [lia|].
    rewrite parse_loop_turn, Htokens, Hturn. exact Heq.
Qed.

(** Text, comments and variable tokens that compile are worked through,
    and leave the rest of the queue, the command stack and the origin
    alone. *)
Lemma turns_past prefix : forall nodelist rest stack org,
  forallb (goes_past registry) prefix = true ->
  exists nodelist', forall fuel,
    turns (length prefix) (length prefix + fuel) tags registry parse_until nodelist
          (mkParser (prefix ++ rest) stack org)
    = Some (nodelist', mkParser rest stack org).
Proof.
  induction prefix as [|t prefix IH]; intros nodelist rest stack org Hpast.
  - exists nodelist. reflexivity.
  - cbn [forallb] in Hpast. apply andb_true_iff in Hpast as [Ht Hpast].
    unfold goes_past in Ht.
    assert (Hturn : exists nl, forall fuel,
              parse_token fuel tags registry parse_until nodelist t
                          (mkParser (prefix ++ rest) stack org)
              = GoesOn nl (mkParser (prefix ++ rest) stack org)).
    { unfold parse_token. destruct (token_type t); try discriminate.
      - eexists. intros fuel. reflexivity.
      - apply andb_true_iff in Ht as [Hne Hfe].
        apply negb_true_iff in Hne. rewrite Hne.
        destruct (Parser_compile_filter registry (contents t)) as [fe|]; [|discriminate].
        eexists. intros fuel. reflexivity.
      - eexists. intros fuel. reflexivity. }
    destruct Hturn as [nl Hturn].
    destruct (IH nl rest stack org Hpast) as [nodelist' Hrest].
    exists nodelist'. intros fuel.
    cbn [length Nat.add turns app tokens set_tokens]. rewrite Hturn. apply Hrest.
Qed.

Lemma parse_loop_past prefix nodelist rest stack org :
  forallb (goes_past registry) prefix = true ->
  exists nodelist', forall fuel,
    parse_loop (length prefix + fuel) tags registry parse_until nodelist
               (mkParser (prefix ++ rest) stack org)
    = parse_loop fuel tags registry parse_until nodelist' (mkParser rest stack org).
Proof.
  intros Hpast.
  destruct (turns_past prefix nodelist rest stack org Hpast) as [nodelist' Hturns].
  exists nodelist'. intros fuel.
  destruct (parse_loop_turns _ _ _ _ _ _ (Hturns fuel)) as [_ ->].
  f_equal. lia.
Qed.


End parse_turns.

Section unclosed_if.
Context {ext : Externals}.
Variable registry : gmap string Filter.

End unclosed_if.




(** C10.  A block token whose contents are empty or white space makes
    [parse] fail with the empty-block-tag message carrying the token's
    line number, and the error carries the token.  This is so in every
    state in which the loop takes the token from the queue, whatever nodes
    it has read by then: after any number of turns of a [parse] call, and
    so after text, comments and variable tokens.  The tag registry plays
    no part, and the command stack is as it was: the error comes before
    any tag is looked up. *)
Theorem empty_block_tag_is_rejected `{Externals}
    (tags : gmap string compile_func) (registry : gmap string Filter)
    (parse_until : list string) (token : Token) :
  token_type token = BLOCK ->
  forallb py_isspace (chars (contents token)) = true ->
  (forall fuel nodelist self rest,
      tokens self = token :: rest ->
      parse_loop (S fuel) tags registry parse_until nodelist self
      = Some (Raise (mkParseError
                       (TemplateSyntaxError
                          ("Empty block tag on line " +:+ fmt_d (lineno token)))
                       (Some token)),
              set_tokens self rest))
  /\ (forall n fuel self nodelist' self' rest,
        turns n fuel tags registry parse_until empty_NodeList self
        = Some (nodelist', self') ->
        tokens self' = token :: rest ->
        (n < fuel)%nat ->
        Parser_parse fuel tags registry parse_until self
        = Some (Raise (mkParseError
                         (TemplateSyntaxError
                            ("Empty block tag on line " +:+ fmt_d (lineno token)))
                         (Some token)),
                set_tokens self' rest))
  /\ (forall prefix rest stack org fuel,
        forallb (goes_past registry) prefix = true ->
        (length prefix < fuel)%nat ->
        Parser_parse fuel tags registry parse_until
                     (mkParser (prefix ++ token :: rest) stack org)
        = Some (Raise (mkParseError
                         (TemplateSyntaxError
                            ("Empty block tag on line " +:+ fmt_d (lineno token)))
                         (Some token)),
                mkParser rest stack org)).
Proof.
  intros Hty Hblank.
  assert (Hstate : forall fuel nodelist self rest,
            tokens self = token :: rest ->
            parse_loop (S fuel) tags registry parse_until nodelist self
            = Some (Raise (mkParseError
                             (TemplateSyntaxError
                                ("Empty block tag on line " +:+ fmt_d (lineno token)))
                             (Some token)),
                    set_tokens self rest)).
  { intros fuel nodelist self rest Htokens.
    rewrite parse_loop_turn, Htokens. unfold parse_token. rewrite Hty.
    unfold py_split. by rewrite (split_ws_blank _ Hblank). }
  split; [exact Hstate|split].
  - intros n fuel self nodelist' self' rest Hturns Htokens Hfuel.
    unfold Parser_parse.
    destruct (parse_loop_turns _ _ _ _ _ _ _ _ _ Hturns) as [_ ->].
    replace (fuel - n)%nat with (S (fuel - n - 1)) by lia.
    by apply Hstate.
  - intros prefix rest stack org fuel Hpast Hfuel. unfold Parser_parse.
    destruct (parse_loop_past tags registry parse_until prefix empty_NodeList
                (token :: rest) stack org Hpast) as [nodelist' Hskip].
    replace fuel with (length prefix + S (fuel - length prefix - 1))%nat by lia.
    rewrite Hskip. by apply Hstate.
Qed.

(** The token of [{% %}] on line 4, after a text token and a variable
    token. *)
Lemma empty_block_tag_is_rejected_witness :
  @Parser_parse plain_externals 3 sample_tags sample_filters []
    (mkParser ([mkToken TEXT "<p>" None 4; mkToken VAR "x" None 4]
                 ++ mkToken BLOCK "" None 4 :: [mkToken TEXT "</p>" None 4])
              [] None)
  = Some (Raise (mkParseError (TemplateSyntaxError "Empty block tag on line 4")
                              (Some (mkToken BLOCK "" None 4))),
          mkParser [mkToken TEXT "</p>" None 4] [] None).
Proof.
  apply (proj2 (proj2 (@empty_block_tag_is_rejected plain_externals sample_tags
                         sample_filters [] (mkToken BLOCK "" None 4)
                         eq_refl eq_refl))
           [mkToken TEXT "<p>" None 4; mkToken VAR "x" None 4]
           [mkToken TEXT "</p>" None 4] [] None 3%nat).
  - reflexivity.
  - simpl. lia.
Defined.

(** ** Rendering values *)

Section escaping.
Context `{Externals}.

Lemma string_app_assoc (x y z : string) : x +:+ (y +:+ z) = (x +:+ y) +:+ z.
Proof.
  induction x as [|a x IH]; [reflexivity|].
  change (String a (x +:+ (y +:+ z)) = String a ((x +:+ y) +:+ z)).
  by rewrite IH.
Qed.

Lemma html_escape_app pre post :
  html_escape (pre +:+ post) = html_escape pre +:+ html_escape post.
Proof.
  induction pre as [|a pre IH]; simpl; [reflexivity|].
  by rewrite IH, string_app_assoc.
Qed.

Lemma escape_char_no_lt a :
  forallb (fun b => negb (Ascii.eqb b "<")) (chars (escape_char a)) = true.
Proof.
  unfold escape_char.
  repeat match goal with
         | |- context [if Ascii.eqb a ?c then _ else _] =>
             destruct (Ascii.eqb_spec a c)
         end; try reflexivity.
  simpl. destruct (Ascii.eqb_spec a "<"); [contradiction | reflexivity].
Qed.

Lemma html_escape_no_lt s :
  forallb (fun b => negb (Ascii.eqb b "<")) (chars (html_escape s)) = true.
Proof.
  induction s as [|a s IH]; simpl; [reflexivity|].
  by rewrite chars_app, forallb_app, escape_char_no_lt, IH.
Qed.

Lemma render_autoescape_is_safe v context :
  autoescape context = true ->
  exists s, render_value_in_context v context = VSafe s.
Proof.
  intros Ha. unfold render_value_in_context. rewrite Ha.
  destruct (localize (template_localtime v (use_tz context)) (use_l10n context));
    simpl; eauto.
Qed.
End escaping.

(** C7.  With autoescape active, a value carrying the safe marking is
    returned as it is, and rendering what was rendered changes nothing, so
    nothing is escaped twice; an unmarked string comes out escaped and
    marked safe, each [<] replaced by [&lt;], with no [<] left, and so
    does the text of every other unmarked value.  With autoescape inactive
    the result is always a string: the text [str()] gives for the
    localised value, not escaped, safe exactly when that value was; a
    value that is not a string comes out as the plain string of its text,
    and a string is returned unchanged. *)
Theorem autoescape_escapes_unmarked_values_once `{Externals} (context : Context_) :
  (forall s, autoescape context = true ->
             render_value_in_context (VSafe s) context = VSafe s)
  /\ (forall v, autoescape context = true ->
                render_value_in_context (render_value_in_context v context) context
                = render_value_in_context v context)
  /\ (forall s, autoescape context = true ->
                render_value_in_context (VStr s) context = VSafe (html_escape s))
  /\ (forall pre post,
        html_escape (pre +:+ "<" +:+ post)
        = html_escape pre +:+ "&lt;" +:+ html_escape post)
  /\ (forall s, forallb (fun b => negb (Ascii.eqb b "<")) (chars (html_escape s)) = true)
  /\ (forall v, autoescape context = false ->
                render_value_in_context v context
                = match localize (template_localtime v (use_tz context))
                                 (use_l10n context) with
                  | VSafe s => VSafe s
                  | w => VStr (py_str w)
                  end)
  /\ (forall s, autoescape context = false ->
                render_value_in_context (VStr s) context = VStr s)
  /\ (forall v, autoescape context = false ->
                is_str (render_value_in_context v context) = true
                /\ py_str (render_value_in_context v context)
                   = py_str (localize (template_localtime v (use_tz context))
                                      (use_l10n context))
                /\ is_SafeData (render_value_in_context v context)
                   = is_SafeData (localize (template_localtime v (use_tz context))
                                           (use_l10n context)))
  /\ (forall v, autoescape context = false ->
                is_str (localize (template_localtime v (use_tz context))
                                 (use_l10n context)) = false ->
                render_value_in_context v context
                = VStr (str_other (localize (template_localtime v (use_tz context))
                                            (use_l10n context))))
  /\ (forall v, autoescape context = true ->
                is_SafeData (localize (template_localtime v (use_tz context))
                                      (use_l10n context)) = false ->
                render_value_in_context v context
                = VSafe (html_escape
                           (py_str (localize (template_localtime v (use_tz context))
                                             (use_l10n context))))).
Proof.
  assert (Hsafe : forall s, autoescape context = true ->
                            render_value_in_context (VSafe s) context = VSafe s).
  { intros s Ha. unfold render_value_in_context.
    by rewrite Ha, template_localtime_safe, localize_safe. }
  split; [exact Hsafe|].
  split; [|split; [|split; [|split; [|split; [|split; [|split; [|split]]]]]]].
  - intros v Ha. destruct (render_autoescape_is_safe v context Ha) as [s ->].
    by apply Hsafe.
  - intros s Ha. unfold render_value_in_context.
    by rewrite Ha, template_localtime_str, localize_str.
  - intros pre post. by rewrite !html_escape_app.
  - apply html_escape_no_lt.
  - intros v Ha. unfold render_value_in_context. rewrite Ha.
    by destruct (localize _ _).
  - intros s Ha. unfold render_value_in_context.
    by rewrite Ha, template_localtime_str, localize_str.
  - intros v Ha. unfold render_value_in_context. rewrite Ha.
    by destruct (localize _ _).
  - intros v Ha. unfold render_value_in_context. rewrite Ha.
    by destruct (localize _ _).
  - intros v Ha. unfold render_value_in_context. rewrite Ha.
    by destruct (localize _ _).
Qed.

(** A safe and an unmarked text through a context with autoescape on, and
    the unmarked text and the number 5 through a context with autoescape
    off. *)
Lemma autoescape_escapes_unmarked_values_once_witness :
  @render_value_in_context plain_externals (VSafe "<b>bold</b>") (bound_context "" [])
  = VSafe "<b>bold</b>"
  /\ @render_value_in_context plain_externals (VStr "a < b") (bound_context "" [])
     = VSafe "a &lt; b"
  /\ @render_value_in_context plain_externals (VStr "a < b") unescaped_context
     = VStr "a < b"
  /\ @render_value_in_context plain_externals (VInt 5) unescaped_context
     = VStr "5".
Proof.
  pose proof (@autoescape_escapes_unmarked_values_once plain_externals (bound_context "" []))
    as (Hsafe & _ & Hstr & _).
  pose proof (@autoescape_escapes_unmarked_values_once plain_externals unescaped_context)
    as (_ & _ & _ & _ & _ & _ & Hoff & _ & Hother & _).
  split; [|split; [|split]].
  - apply Hsafe. reflexivity.
  - rewrite Hstr; reflexivity.
  - apply Hoff. reflexivity.
  - rewrite Hother; reflexivity.
Defined.

(** ** Further facts about the parser and the lexer *)

(** The source text of a block tag with nothing between its delimiters
    becomes a block token with empty contents. *)
Lemma bare_block_delimiters_give_an_empty_token :
  Lexer_create_token None "{% %}" None 4 true = (Some (mkToken BLOCK "" None 4), None).
Proof. reflexivity. Qed.

(** A block token whose command is neither a stop command nor registered
    makes [parse] fail with the invalid-block-tag error, which carries the
    token and names the command; the command is on the stack by then.
    This is so in every state in which the loop takes the token from the
    queue, whatever nodes it has read by then: after any number of turns
    of a [parse] call, and so after text, comments and variable tokens. *)
Theorem unregistered_tag_is_rejected `{Externals}
    (tags : gmap string compile_func) (registry : gmap string Filter)
    (parse_until : list string) (token : Token)
    (command : string) (words : list string) :
  token_type token = BLOCK ->
  py_split (contents token) = command :: words ->
  command ∉ parse_until ->
  tags !! command = None ->
  (forall fuel nodelist self rest,
      tokens self = token :: rest ->
      parse_loop (S fuel) tags registry parse_until nodelist self
      = Some (Raise (Parser_invalid_block_tag token command parse_until),
              set_command_stack (set_tokens self rest)
                                (command_stack self ++ [(command, token)])))
  /\ (forall n fuel self nodelist' self' rest,
        turns n fuel tags registry parse_until empty_NodeList self
        = Some (nodelist', self') ->
        tokens self' = token :: rest ->
        (n < fuel)%nat ->
        Parser_parse fuel tags registry parse_until self
        = Some (Raise (Parser_invalid_block_tag token command parse_until),
                set_command_stack (set_tokens self' rest)
                                  (command_stack self' ++ [(command, token)])))
  /\ (forall prefix rest stack org fuel,
        forallb (goes_past registry) prefix = true ->
        (length prefix < fuel)%nat ->
        Parser_parse fuel tags registry parse_until
                     (mkParser (prefix ++ token :: rest) stack org)
        = Some (Raise (Parser_invalid_block_tag token command parse_until),
                mkParser rest (stack ++ [(command, token)]) org))
  /\ exc_token (Parser_invalid_block_tag token command parse_until) = Some token
  /\ exists before after,
       exc (Parser_invalid_block_tag token command parse_until)
       = TemplateSyntaxError (before +:+ ": '" +:+ command +:+ "'" +:+ after).
Proof.
  intros Hty Hsplit Hstop Htag.
  assert (Hstate : forall fuel nodelist self rest,
            tokens self = token :: rest ->
            parse_loop (S fuel) tags registry parse_until nodelist self
            = Some (Raise (Parser_invalid_block_tag token command parse_until),
                    set_command_stack (set_tokens self rest)
                                      (command_stack self ++ [(command, token)]))).
  { intros fuel nodelist self rest Htokens.
    rewrite parse_loop_turn, Htokens. unfold parse_token. rewrite Hty, Hsplit.
    rewrite bool_decide_eq_false_2 by exact Hstop.
    match goal with
    | |- context [match ?x with Some _ => _ | None => _ end] =>
        assert (Hx : x = None) by exact Htag; rewrite Hx
    end.
    reflexivity. }
  split; [exact Hstate|split; [|split; [|split]]].
  - intros n fuel self nodelist' self' rest Hturns Htokens Hfuel.
    unfold Parser_parse.
    destruct (parse_loop_turns _ _ _ _ _ _ _ _ _ Hturns) as [_ ->].
    replace (fuel - n)%nat with (S (fuel - n - 1)) by lia.
    by apply Hstate.
  - intros prefix rest stack org fuel Hpast Hfuel. unfold Parser_parse.
    destruct (parse_loop_past tags registry parse_until prefix empty_NodeList
                (token :: rest) stack org Hpast) as [nodelist' Hskip].
    replace fuel with (length prefix + S (fuel - length prefix - 1))%nat by lia.
    rewrite Hskip.
    exact (Hstate _ nodelist' (mkParser (token :: rest) stack org) rest eq_refl).
  - unfold Parser_invalid_block_tag. by destruct parse_until.
  - exists ("Invalid block tag on line " +:+ fmt_d (lineno token)).
    unfold Parser_invalid_block_tag. destruct parse_until as [|u us]; simpl.
    + exists ". Did you forget to register or load this tag?". reflexivity.
    + eexists. rewrite <- !string_app_assoc. reflexivity.
Qed.

(** The tag [for] on line 2 of a template, after a text token and a
    variable token, with only [if] registered. *)
Lemma unregistered_tag_is_rejected_witness :
  @Parser_parse plain_externals 3 sample_tags sample_filters []
    (mkParser ([mkToken TEXT "<ul>" None 1; mkToken VAR "title" None 1]
                 ++ mkToken BLOCK "for x in xs" None 2 :: [])
              [] None)
  = Some (Raise (mkParseError
                   (TemplateSyntaxError
                      "Invalid block tag on line 2: 'for'. Did you forget to register or load this tag?")
                   (Some (mkToken BLOCK "for x in xs" None 2))),
          mkParser [] [("for", mkToken BLOCK "for x in xs" None 2)] None).
Proof.
  apply (proj1 (proj2 (proj2
           (@unregistered_tag_is_rejected plain_externals sample_tags sample_filters []
              (mkToken BLOCK "for x in xs" None 2) "for" ["x"; "in"; "xs"]
              eq_refl eq_refl ltac:(apply not_elem_of_nil) eq_refl)))
           [mkToken TEXT "<ul>" None 1; mkToken VAR "title" None 1] [] [] None 3%nat).
  - reflexivity.
  - simpl. lia.
Defined.

(** ** Reading and writing a context *)

Section context_access.
Implicit Types (c : Context_) (ds : list frame) (d : frame) (k : key) (v : value).

Lemma set_dicts_same c : set_dicts c (dicts c) = c.
Proof. by destruct c. Qed.

Lemma nonempty_snoc {A} (l : list A) : l <> [] -> exists front x, l = front ++ [x].
Proof.
  destruct l as [|x l _] using rev_ind; [contradiction | eauto].
Qed.

Lemma getitem_snoc c below top k :
  dicts c = below ++ [top] ->
  BaseContext_getitem c k
  = match top !! k with
    | Some v => Ok v
    | None => getitem_frames (reverse below) k
    end.
Proof. intros Hc. unfold BaseContext_getitem. by rewrite Hc, reverse_snoc. Qed.

(** What [set_in_first_holder] does to lookups and to the key sets. *)
Lemma set_in_first_holder_Some ds k v : forall ds',
  set_in_first_holder ds k v = Some ds' ->
  getitem_frames ds' k = Ok v
  /\ (forall k', k' <> k -> getitem_frames ds' k' = getitem_frames ds k')
  /\ dom <$> ds' = dom <$> ds.
Proof.
  induction ds as [|d ds IH]; intros ds'; simpl; [discriminate|].
  case_bool_decide as Hd.
  - intros [= <-]. simpl. rewrite lookup_insert_eq. split; [reflexivity|]. split.
    + intros k' Hk'. by rewrite lookup_insert_ne.
    + f_equal. apply set_eq. intros x. rewrite dom_insert, elem_of_union, elem_of_singleton.
      split; [|tauto]. intros [->|Hx]; [by apply elem_of_dom | exact Hx].
  - destruct (set_in_first_holder ds k v) as [ds''|] eqn:Hrec; simpl; [|discriminate].
    intros [= <-]. destruct (IH ds'' eq_refl) as (Hk & Hother & Hdom).
    simpl. destruct (d !! k) eqn:Hdk; [exfalso; apply Hd; eauto|].
    split; [exact Hk|]. split.
    + intros k' Hk'. destruct (d !! k'); [reflexivity | by apply Hother].
    + f_equal. exact Hdom.
Qed.

Lemma set_in_first_holder_None ds k v :
  set_in_first_holder ds k v = None <->
  existsb (fun d => bool_decide (is_Some (d !! k))) ds = false.
Proof.
  induction ds as [|d ds IH]; simpl; [tauto|].
  case_bool_decide; simpl; [split; discriminate|].
  rewrite <- IH. destruct (set_in_first_holder ds k v); simpl; split; congruence.
Qed.

Lemma existsb_reverse {A} (p : A -> bool) (l : list A) :
  existsb p (reverse l) = existsb p l.
Proof.
  induction l as [|a l IH]; [reflexivity|].
  rewrite reverse_cons, existsb_app, IH. simpl. by rewrite orb_false_r, orb_comm.
Qed.

(** [flatten] and the scan from the top agree on every key. *)
Lemma flatten_lookup ds k :
  foldl (fun flat d => d ∪ flat) ∅ ds !! k
  = match getitem_frames (reverse ds) k with
    | Ok v => Some v
    | Raise _ => None
    end.
Proof.
  induction ds as [|d ds IH] using rev_ind; [reflexivity|].
  rewrite foldl_snoc, reverse_snoc. simpl.
  destruct (d !! k) as [v|] eqn:Hd.
  - by apply lookup_union_Some_l.
  - rewrite lookup_union_r by exact Hd. exact IH.
Qed.
End context_access.

Section assignment.

Lemma setitem_on_top (c : Context_) (k : key) (v : value) :
  dicts c <> [] ->
  (BaseContext_setitem k v c).1 = Ok tt
  /\ BaseContext_getitem (BaseContext_setitem k v c).2 k = Ok v.
Proof.
  intros (below & top & Hc)%nonempty_snoc.
  unfold BaseContext_setitem. rewrite Hc, list_pop_snoc. simpl.
  split; [reflexivity|].
  rewrite (getitem_snoc _ below (<[k:=v]> top)) by reflexivity.
  by rewrite lookup_insert_eq.
Qed.
End assignment.

(** Assigning to a context binds the key in the top frame: the assignment
    returns, the key then resolves to the value, every other key resolves as
    before, and no frame is added or removed. *)
Theorem setitem_then_getitem (c : Context_) (k : key) (v : value) :
  dicts c <> [] ->
  (BaseContext_setitem k v c).1 = Ok tt
  /\ BaseContext_getitem (BaseContext_setitem k v c).2 k = Ok v
  /\ (forall k', k' <> k ->
        BaseContext_getitem (BaseContext_setitem k v c).2 k' = BaseContext_getitem c k')
  /\ length (dicts (BaseContext_setitem k v c).2) = length (dicts c).
Proof.
  intros (below & top & Hc)%nonempty_snoc.
  unfold BaseContext_setitem. rewrite Hc, list_pop_snoc. simpl.
  split; [reflexivity|]. split; [|split].
  - rewrite (getitem_snoc _ below (<[k:=v]> top)) by reflexivity.
    by rewrite lookup_insert_eq.
  - intros k' Hk'.
    rewrite (getitem_snoc _ below (<[k:=v]> top)) by reflexivity.
    rewrite (getitem_snoc c below top) by exact Hc.
    by rewrite lookup_insert_ne.
  - by rewrite !length_app.
Qed.

(** A binding added on top of the builtins. *)
Lemma setitem_then_getitem_witness :
  BaseContext_getitem
    (BaseContext_setitem (KStr "x") (VInt 1) (Context_init None true None None)).2
    (KStr "x")
  = Ok (VInt 1).
Proof.
  apply (proj1 (proj2 (setitem_then_getitem (Context_init None true None None)
                         (KStr "x") (VInt 1) ltac:(discriminate)))).
Defined.

(** [set_upward] rebinds a key in the topmost frame that already has it,
    and binds it in the top frame if no frame has it.  Either way the key
    then resolves to the value and the other keys resolve as before; when
    some frame had the key, no frame's key set changes. *)
Theorem set_upward_rebinds_where_bound (c : Context_) (k : key) (v : value) :
  dicts c <> [] ->
  (BaseContext_set_upward k v c).1 = Ok tt
  /\ BaseContext_getitem (BaseContext_set_upward k v c).2 k = Ok v
  /\ (forall k', k' <> k ->
        BaseContext_getitem (BaseContext_set_upward k v c).2 k' = BaseContext_getitem c k')
  /\ (BaseContext_contains c k = true ->
      dom <$> dicts (BaseContext_set_upward k v c).2 = dom <$> dicts c)
  /\ (BaseContext_contains c k = false ->
      BaseContext_set_upward k v c = BaseContext_setitem k v c).
Proof.
  intros Hne. destruct (nonempty_snoc _ Hne) as (below & top & Hc).
  unfold BaseContext_set_upward, BaseContext_contains, BaseContext_getitem.
  rewrite Hc, reverse_snoc.
  destruct (set_in_first_holder (top :: reverse below) k v) as [ds|] eqn:Hs.
  - destruct (set_in_first_holder_Some _ _ _ _ Hs) as (Hk & Hother & Hdom). simpl.
    rewrite reverse_involutive. split; [reflexivity|]. split; [exact Hk|]. split; [|split].
    + intros k' Hk'. rewrite (Hother k' Hk'). reflexivity.
    + intros _. rewrite fmap_reverse, Hdom, <- fmap_reverse. simpl.
      by rewrite reverse_cons, reverse_involutive.
    + intros Hno. exfalso.
      rewrite <- (existsb_reverse _ (below ++ [top])), reverse_snoc in Hno.
      apply set_in_first_holder_None with (v := v) in Hno. congruence.
  - simpl. rewrite reverse_involutive. simpl. rewrite lookup_insert_eq.
    split; [reflexivity|]. split; [reflexivity|]. split; [|split].
    + intros k' Hk'. by rewrite lookup_insert_ne.
    + intros Hyes. exfalso.
      rewrite <- (existsb_reverse _ (below ++ [top])), reverse_snoc in Hyes.
      apply set_in_first_holder_None in Hs. congruence.
    + intros _. unfold BaseContext_setitem. rewrite Hc, list_pop_snoc.
      by rewrite reverse_cons, reverse_involutive.
Qed.

(** A key bound below a pushed frame is rebound where it is, and the pushed
    frame stays empty. *)
Lemma set_upward_rebinds_where_bound_witness :
  dicts (BaseContext_set_upward (KStr "x") (VInt 2)
           (set_dicts (Context_init None true None None)
                      [builtins; {[ KStr "x" := VInt 1 ]}; ∅])).2
  = [builtins; {[ KStr "x" := VInt 2 ]}; ∅]
  /\ BaseContext_getitem
       (BaseContext_set_upward (KStr "x") (VInt 2)
          (set_dicts (Context_init None true None None)
                     [builtins; {[ KStr "x" := VInt 1 ]}; ∅])).2 (KStr "x")
     = Ok (VInt 2).
Proof.
  split.
  - vm_compute. reflexivity.
  - apply (proj1 (proj2 (set_upward_rebinds_where_bound
                           (set_dicts (Context_init None true None None)
                                      [builtins; {[ KStr "x" := VInt 1 ]}; ∅])
                           (KStr "x") (VInt 2) ltac:(discriminate)))).
Defined.

(** [flatten], [in], [get] and item access tell the same story: the
    flattened mapping binds a key to what item access returns, a key is in
    the context exactly when the flattened mapping has it, and [get] returns
    the flattened binding or else its default. *)
Theorem flatten_agrees_with_lookup (c : Context_) (k : key) (otherwise : value) :
  BaseContext_flatten c !! k
  = match BaseContext_getitem c k with
    | Ok v => Some v
    | Raise _ => None
    end
  /\ BaseContext_contains c k = bool_decide (is_Some (BaseContext_flatten c !! k))
  /\ BaseContext_get c k otherwise = default otherwise (BaseContext_flatten c !! k)
  /\ (BaseContext_flatten c !! k = None -> BaseContext_getitem c k = Raise KeyError).
Proof.
  unfold BaseContext_flatten, BaseContext_getitem, BaseContext_contains, BaseContext_get.
  rewrite flatten_lookup.
  rewrite <- (existsb_reverse _ (dicts c)).
  induction (reverse (dicts c)) as [|d ds IH]; simpl.
  - repeat split; reflexivity.
  - destruct (d !! k) as [v|] eqn:Hd; simpl.
    + repeat split; try reflexivity. discriminate.
    + exact IH.
Qed.

Section context_frames.
Implicit Types (c : Context_) (d : frame) (k : key) (v : value).

Lemma kwargs_frame_empty : kwargs_frame ∅ = ∅.
Proof. unfold kwargs_frame. apply kmap_empty. Qed.

Lemma ContextDict_init_one d c :
  ContextDict_init [d] ∅ c = (Ok d, set_dicts c (dicts c ++ [d])).
Proof.
  unfold ContextDict_init, py_dict. rewrite kwargs_frame_empty.
  by rewrite (left_id_L ∅ (∪)).
Qed.


End context_frames.



(** [setdefault] never overwrites: a key that resolves is returned with the
    context untouched; a key that does not is bound to the default in the
    top frame, and then resolves to it. *)
Theorem setdefault_keeps_existing_binding (c : Context_) (k : key) (default : value) :
  (forall v, BaseContext_getitem c k = Ok v ->
             BaseContext_setdefault k default c = (Ok v, c))
  /\ (dicts c <> [] ->
      BaseContext_getitem c k = Raise KeyError ->
      BaseContext_setdefault k default c = (Ok default, (BaseContext_setitem k default c).2)
      /\ BaseContext_getitem (BaseContext_setdefault k default c).2 k = Ok default).
Proof.
  split.
  - intros v Hv. unfold BaseContext_setdefault. by rewrite Hv.
  - intros Hne Hmiss.
    destruct (setitem_on_top c k default Hne) as (Hok & Hget).
    assert (Heq : BaseContext_setdefault k default c
                  = (Ok default, (BaseContext_setitem k default c).2)).
    { unfold BaseContext_setdefault. rewrite Hmiss.
      destruct (BaseContext_setitem k default c) as [r c']. simpl in *. by rewrite Hok. }
    split; [exact Heq|]. by rewrite Heq.
Qed.

(** The builtin [True] is kept, and a new key gets its default. *)
Lemma setdefault_keeps_existing_binding_witness :
  BaseContext_setdefault (KStr "True") (VInt 0) (Context_init None true None None)
  = (Ok (VBool true), Context_init None true None None)
  /\ BaseContext_getitem
       (BaseContext_setdefault (KStr "x") (VInt 0) (Context_init None true None None)).2
       (KStr "x")
     = Ok (VInt 0).
Proof.
  destruct (setdefault_keeps_existing_binding (Context_init None true None None)
              (KStr "True") (VInt 0)) as [Hkeep _].
  destruct (setdefault_keeps_existing_binding (Context_init None true None None)
              (KStr "x") (VInt 0)) as [_ Hset].
  split.
  - apply Hkeep. reflexivity.
  - apply Hset; [discriminate | reflexivity].
Defined.

(** [Context.update] with another context pushes that context's top frame
    and nothing else of it; with a context that holds its builtins only it
    raises [IndexError] and pushes nothing; with a mapping it pushes the
    mapping. *)
Theorem update_takes_the_top_frame_of_a_context (c other : Context_)
    (bottom top d : frame) (between : list frame) :
  Context_update (ArgContext (set_dicts other (bottom :: between ++ [top]))) c
  = (Ok top, set_dicts c (dicts c ++ [top]))
  /\ Context_update (ArgContext (set_dicts other [bottom])) c = (Raise IndexError, c)
  /\ Context_update (ArgDict d) c = (Ok d, set_dicts c (dicts c ++ [d])).
Proof.
  split; [|split].
  - unfold Context_update. rewrite dicts_set_dicts. simpl. rewrite drop_0.
    rewrite list_pop_snoc. apply ContextDict_init_one.
  - reflexivity.
  - apply ContextDict_init_one.
Qed.



Section request_context.
Implicit Types (req : value) (procs : list (value -> frame)).

Lemma Context_update_mapping (d : frame) (c : Context_) :
  Context_update (ArgDict d) c = (Ok d, set_dicts c (dicts c ++ [d])).
Proof. apply ContextDict_init_one. Qed.

Lemma push_one_mapping (d : frame) (c : Context_) :
  BaseContext_push [ArgDict d] ∅ c = (Ok d, set_dicts c (dicts c ++ [d])).
Proof. apply ContextDict_init_one. Qed.

Lemma RequestContext_init_frames req procs l10n tz ae :
  RequestContext_init req None procs l10n tz ae
  = mkRequestContext (mkContext [builtins; ∅; ∅] ae l10n tz "unknown" None) req procs 1.
Proof.
  unfold RequestContext_init. by rewrite !Context_update_mapping.
Qed.

Lemma make_context_frames (mapping : frame) req procs l10n tz ae :
  make_context_for_request (Some mapping) req procs l10n tz ae
  = mkRequestContext
      (mkContext ([builtins; ∅; ∅] ++ (if bool_decide (mapping = ∅) then [] else [mapping]))
                 ae l10n tz "unknown" None) req procs 1.
Proof.
  unfold make_context_for_request. rewrite RequestContext_init_frames.
  case_bool_decide; [reflexivity|].
  by rewrite push_one_mapping.
Qed.
End request_context.

(** In a context made for a request and bound to a template, a key of the
    caller's mapping resolves to the caller's value whatever the context
    processors return for it; a key that only a processor returns resolves
    to the processor's value; and when the block ends the processors'
    values are gone and the context is as it was made. *)
Theorem context_values_override_processors (mapping : frame) (req : value)
    (procs engine_procs : list (value -> frame)) (l10n tz : option bool) (ae : bool)
    (t : Template) (k : key) :
  (forall v,
      mapping !! k = Some v ->
      RequestContext_bind_template t engine_procs (fun c => (BaseContext_getitem c k, c))
        (make_context_for_request (Some mapping) req procs l10n tz ae)
      = (Ok v, make_context_for_request (Some mapping) req procs l10n tz ae))
  /\ (forall w,
        mapping !! k = None ->
        collect_updates (engine_procs ++ procs) req !! k = Some w ->
        RequestContext_bind_template t engine_procs (fun c => (BaseContext_getitem c k, c))
          (make_context_for_request (Some mapping) req procs l10n tz ae)
        = (Ok w, make_context_for_request (Some mapping) req procs l10n tz ae)).
Proof.
  split.
  - intros v Hk. rewrite make_context_frames.
    rewrite bool_decide_eq_false_2 by (intros ->; by rewrite lookup_empty in Hk).
    unfold RequestContext_bind_template, set_frame, BaseContext_getitem. simpl.
    unfold reverse. simpl. by rewrite Hk.
  - intros w Hk Hw. rewrite make_context_frames.
    unfold RequestContext_bind_template, set_frame, BaseContext_getitem.
    case_bool_decide; simpl; unfold reverse; simpl.
    + by rewrite lookup_empty, Hw.
    + by rewrite Hk, lookup_empty, Hw.
Qed.

(** A processor and the caller both give [user]. *)
Lemma context_values_override_processors_witness :
  RequestContext_bind_template (mkTemplate None (mkEngine "" false))
    [fun _ => {[ KStr "user" := VStr "from processor" ]}]
    (fun c => (BaseContext_getitem c (KStr "user"), c))
    (make_context_for_request (Some {[ KStr "user" := VStr "from view" ]}) VNone []
       None None true)
  = (Ok (VStr "from view"),
     make_context_for_request (Some {[ KStr "user" := VStr "from view" ]}) VNone []
       None None true).
Proof.
  apply (proj1 (context_values_override_processors
                  {[ KStr "user" := VStr "from view" ]} VNone []
                  [fun _ => {[ KStr "user" := VStr "from processor" ]}]
                  None None true (mkTemplate None (mkEngine "" false)) (KStr "user"))).
  reflexivity.
Defined.

(** ** Text runs, stop commands and skipping *)

Section parse_text.
Context {ext : Externals}.
Variables (tags : gmap string compile_func) (registry : gmap string Filter).
Variable parse_until : list string.

Lemma text_nodes_cons org t ts :
  text_nodes org (t :: ts)
  = match token_type t with
    | TEXT => [MkNode (TextNode (contents t)) (Some t) org]
    | _ => []
    end ++ text_nodes org ts.
Proof. reflexivity. Qed.

(** The loop turns a run of text and comment tokens into the text nodes of
    its text tokens, appended to the list it has. *)
Lemma parse_loop_text_prefix rest stack org texts : forall nodelist fuel,
  forallb inert texts = true ->
  parse_loop (length texts + fuel) tags registry parse_until nodelist
             (mkParser (texts ++ rest) stack org)
  = parse_loop fuel tags registry parse_until
      (mkNodeList (nodes nodelist ++ text_nodes org texts) (contains_nontext nodelist))
      (mkParser rest stack org).
Proof.
  induction texts as [|t texts IH]; intros nodelist fuel Hinert.
  - simpl. unfold text_nodes. simpl. rewrite app_nil_r. by destruct nodelist.
  - simpl in Hinert. apply andb_true_iff in Hinert as [Ht Hinert].
    rewrite text_nodes_cons.
    unfold inert in Ht. destruct (token_type t) eqn:Hty; try discriminate.
    + simpl. rewrite Hty. unfold Parser_extend_nodelist. simpl.
      rewrite (IH _ fuel Hinert). simpl.
      rewrite orb_false_r, <- app_assoc. reflexivity.
    + simpl. rewrite Hty. exact (IH nodelist fuel Hinert).
Qed.

Lemma render_bits_text_nodes render_tag annotate org context texts :
  render_bits render_tag annotate (text_nodes org texts) context
  = Ok (text_contents texts).
Proof.
  induction texts as [|t texts IH]; [reflexivity|].
  rewrite text_nodes_cons. unfold text_contents. simpl.
  destruct (token_type t); simpl; try exact IH.
  unfold text_contents in IH. rewrite IH. reflexivity.
Qed.
End parse_text.

(** A queue of text and comment tokens parses, with no stop command, to
    one text node per text token, in order; the queue is used up and the
    command stack is as before.  Rendering the list in any context gives
    the contents of the text tokens joined, marked safe. *)
Theorem text_run_renders_to_its_text `{Externals}
    (tags : gmap string compile_func) (registry : gmap string Filter)
    (render_tag : Node -> Context_ -> res value)
    (annotate : pyexn -> Node -> Context_ -> pyexn)
    (texts : list Token) (stack : list (string * Token)) (org : option Origin)
    (fuel : nat) (context : Context_) :
  forallb inert texts = true ->
  (length texts < fuel)%nat ->
  exists nodelist,
    Parser_parse fuel tags registry [] (mkParser texts stack org)
    = Some (Ok nodelist, mkParser [] stack org)
    /\ nodes nodelist = text_nodes org texts
    /\ contains_nontext nodelist = false
    /\ NodeList_render render_tag annotate (nodes nodelist) context
       = Ok (VSafe (py_join "" (text_contents texts))).
Proof.
  intros Hinert Hfuel.
  exists (mkNodeList (text_nodes org texts) false).
  split; [|split; [reflexivity|split; [reflexivity|]]].
  - unfold Parser_parse.
    replace fuel with (length texts + S (fuel - S (length texts)))%nat by lia.
    pose proof (parse_loop_text_prefix tags registry [] [] stack org texts
                  empty_NodeList (S (fuel - S (length texts))) Hinert) as Hrun.
    rewrite app_nil_r in Hrun. rewrite Hrun. reflexivity.
  - unfold NodeList_render. simpl. rewrite render_bits_text_nodes. reflexivity.
Qed.

Lemma text_run_renders_to_its_text_witness :
  exists nodelist,
    @Parser_parse plain_externals 3 sample_tags sample_filters []
      (mkParser [mkToken TEXT "Hello, " None 1; mkToken COMMENT "note" None 1]
                [] None)
    = Some (Ok nodelist, mkParser [] [] None)
    /\ nodes nodelist
       = text_nodes None [mkToken TEXT "Hello, " None 1; mkToken COMMENT "note" None 1]
    /\ contains_nontext nodelist = false
    /\ @NodeList_render plain_externals (fun _ _ => Ok VNone) (fun e _ _ => e)
         (nodes nodelist) unescaped_context
       = Ok (VSafe (py_join ""
                      (text_contents
                         [mkToken TEXT "Hello, " None 1; mkToken COMMENT "note" None 1]))).
Proof.
  apply (@text_run_renders_to_its_text plain_externals sample_tags sample_filters
           (fun _ _ => Ok VNone) (fun e _ _ => e)
           [mkToken TEXT "Hello, " None 1; mkToken COMMENT "note" None 1]
           [] None 3%nat unescaped_context).
  - reflexivity.
  - simpl. lia.
Defined.

(** [parse] returns at the first block token whose command is one of the
    stop commands: what it returns are the text nodes read so far, the
    stop token is back at the head of the queue, and the command stack is
    untouched. *)
Theorem parse_returns_at_a_stop_command `{Externals}
    (tags : gmap string compile_func) (registry : gmap string Filter)
    (parse_until : list string) (texts rest : list Token) (token : Token)
    (command : string) (words : list string)
    (stack : list (string * Token)) (org : option Origin) (fuel : nat) :
  forallb inert texts = true ->
  token_type token = BLOCK ->
  py_split (contents token) = command :: words ->
  command ∈ parse_until ->
  (length texts < fuel)%nat ->
  Parser_parse fuel tags registry parse_until
    (mkParser (texts ++ token :: rest) stack org)
  = Some (Ok (mkNodeList (text_nodes org texts) false),
          mkParser (token :: rest) stack org).
Proof.
  intros Hinert Hty Hsplit Hstop Hfuel.
  unfold Parser_parse.
  replace fuel with (length texts + S (fuel - S (length texts)))%nat by lia.
  rewrite parse_loop_text_prefix by exact Hinert.
  simpl. rewrite Hty, Hsplit.
  rewrite bool_decide_eq_true_2 by exact Hstop.
  reflexivity.
Qed.

Lemma parse_returns_at_a_stop_command_witness :
  @Parser_parse plain_externals 2 sample_tags sample_filters ["else"; "endif"]
    (mkParser ([mkToken TEXT "yes" None 1]
                 ++ mkToken BLOCK "endif" None 1 :: [mkToken TEXT "after" None 1])
              [] None)
  = Some (Ok (mkNodeList (text_nodes None [mkToken TEXT "yes" None 1]) false),
          mkParser (mkToken BLOCK "endif" None 1 :: [mkToken TEXT "after" None 1])
                   [] None).
Proof.
  apply (@parse_returns_at_a_stop_command plain_externals sample_tags sample_filters
           ["else"; "endif"] [mkToken TEXT "yes" None 1] [mkToken TEXT "after" None 1]
           (mkToken BLOCK "endif" None 1) "endif" []).
  - reflexivity.
  - reflexivity.
  - reflexivity.
  - set_solver.
  - simpl. lia.
Defined.

Section skipping.

Lemma skip_tokens_found endtag before token after :
  Forall (fun t => token_type t = BLOCK -> contents t <> endtag) before ->
  token_type token = BLOCK ->
  contents token = endtag ->
  skip_tokens endtag (before ++ token :: after) = Some after.
Proof.
  intros Hbefore Hty Hc. induction Hbefore as [|t before Ht _ IH]; simpl.
  - rewrite Hty, Hc, String.eqb_refl. reflexivity.
  - destruct (token_type t) eqn:Et; try exact IH.
    destruct (String.eqb_spec (contents t) endtag) as [E|_]; [|exact IH].
    by destruct (Ht eq_refl).
Qed.

Lemma skip_tokens_missing endtag ts :
  Forall (fun t => token_type t = BLOCK -> contents t <> endtag) ts ->
  skip_tokens endtag ts = None.
Proof.
  induction 1 as [|t ts Ht _ IH]; simpl; [reflexivity|].
  destruct (token_type t) eqn:Et; try exact IH.
  destruct (String.eqb_spec (contents t) endtag) as [E|_]; [|exact IH].
  by destruct (Ht eq_refl).
Qed.
End skipping.

(** [skip_past] drops the queue up to and including the first block token
    whose contents are exactly the end tag, and leaves the command stack
    alone.  When no token of the queue is such a block token, the whole
    queue is dropped and the call ends in [unclosed_block_tag]: with an
    open block, the unclosed-tag error for the innermost one, looking for
    the end tag. *)
Theorem skip_past_stops_after_the_end_tag (endtag : string)
    (stack : list (string * Token)) (org : option Origin) :
  (forall before token after,
      Forall (fun t => token_type t = BLOCK -> contents t <> endtag) before ->
      token_type token = BLOCK ->
      contents token = endtag ->
      Parser_skip_past endtag (mkParser (before ++ token :: after) stack org)
      = (Ok tt, mkParser after stack org))
  /\ (forall ts below command opened,
      Forall (fun t => token_type t = BLOCK -> contents t <> endtag) ts ->
      stack = below ++ [(command, opened)] ->
      Parser_skip_past endtag (mkParser ts stack org)
      = (Raise (Parser_error_msg opened (unclosed_msg opened command [endtag])),
         mkParser [] below org)).
Proof.
  split.
  - intros before token after Hbefore Hty Hc. unfold Parser_skip_past. simpl.
    rewrite skip_tokens_found by assumption. reflexivity.
  - intros ts below command opened Hts ->. unfold Parser_skip_past. simpl.
    rewrite skip_tokens_missing by assumption.
    unfold Parser_unclosed_block_tag. simpl. rewrite list_pop_snoc. reflexivity.
Qed.

Lemma skip_past_stops_after_the_end_tag_witness :
  Parser_skip_past "endcomment"
    (mkParser ([mkToken TEXT "x" None 1; mkToken BLOCK "endcomment now" None 1]
                 ++ mkToken BLOCK "endcomment" None 2 :: [mkToken TEXT "y" None 2])
              [] None)
  = (Ok tt, mkParser [mkToken TEXT "y" None 2] [] None).
Proof.
  apply (proj1 (skip_past_stops_after_the_end_tag "endcomment" [] None)
           [mkToken TEXT "x" None 1; mkToken BLOCK "endcomment now" None 1]
           (mkToken BLOCK "endcomment" None 2) [mkToken TEXT "y" None 2]).
  - repeat constructor; simpl; intros; discriminate.
  - reflexivity.
  - reflexivity.
Defined.

(** ** What a compiled variable can reach *)

Section underscore.
Context {ext : Externals}.

Lemma text_cons a l : text (a :: l) = String a (text l).
Proof. reflexivity. Qed.

Lemma prefix_cons a s1 b s2 :
  String.prefix (String a s1) (String b s2)
  = if ascii_dec a b then String.prefix s1 s2 else false.
Proof. reflexivity. Qed.

Lemma py_in_cons sub a s :
  py_in sub (String a s) = String.prefix sub (String a s) || py_in sub s.
Proof. reflexivity. Qed.

Lemma starts_with_underscore l :
  String.prefix "_" (text l)
  = match l with
    | c :: _ => if ascii_dec "_" c then true else false
    | [] => false
    end.
Proof.
  destruct l as [|c l]; [reflexivity|].
  rewrite text_cons, prefix_cons.
  destruct (ascii_dec "_" c); [|reflexivity]. by destruct (text l).
Qed.

Lemma prefix_underscore_app p q :
  String.prefix "_" (text (p ++ q)) = false -> String.prefix "_" (text p) = false.
Proof.
  rewrite !starts_with_underscore. destruct p as [|c p]; [reflexivity|]. exact id.
Qed.

Lemma split_on_no_underscore l : forall piece,
  String.prefix "_" (text (rev piece ++ l)) = false ->
  py_in "._" (text l) = false ->
  Forall (fun bit => startswith bit "_" = false) (split_on "." piece l).
Proof.
  induction l as [|a l IH]; intros piece Hstart Hin; simpl.
  - constructor; [|constructor]. rewrite app_nil_r in Hstart. exact Hstart.
  - rewrite text_cons, py_in_cons in Hin.
    apply orb_false_iff in Hin as [Hhere Hrest].
    destruct (Ascii.eqb_spec a ".") as [->|Ha].
    + constructor.
      * exact (prefix_underscore_app _ _ Hstart).
      * apply IH; [|exact Hrest]. simpl.
        rewrite prefix_cons in Hhere.
        destruct (ascii_dec "." "."); [exact Hhere|congruence].
    + apply IH; [|exact Hrest]. simpl. rewrite <- app_assoc. exact Hstart.
Qed.

Lemma split_on_nonempty sep l : forall piece, split_on sep piece l <> [].
Proof.
  induction l as [|a l IH]; intros piece; simpl; [discriminate|].
  destruct (Ascii.eqb a sep); [discriminate|apply IH].
Qed.
End underscore.

(** Whatever text a variable is compiled from, the lookup path it gets has
    at least one segment and none of its segments begins with an
    underscore: private attributes cannot be reached from a template. *)
Theorem compiled_lookups_never_begin_with_underscore `{Externals}
    (var : string) (v : TemplateVariable) (bits : list string) :
  Variable_init var = Ok v ->
  lookups v = Some bits ->
  bits <> [] /\ Forall (fun bit => startswith bit "_" = false) bits.
Proof.
  unfold Variable_init. destruct (number_literal var) as [lit is_number].
  destruct is_number.
  { intros [= <-]. discriminate. }
  set (var' := if startswith var "_(" && endswith var ")" then _ else _).
  destruct (unescape_string_literal var') as [s|e].
  { intros [= <-]. discriminate. }
  destruct e; try discriminate.
  destruct (py_in "._" var' || startswith var' "_") eqn:Hcheck; [discriminate|].
  apply orb_false_iff in Hcheck as [Hin Hstart].
  intros [= <-]. simpl. intros [= <-]. split.
  - apply split_on_nonempty.
  - apply split_on_no_underscore; unfold chars, text; simpl;
      rewrite string_of_list_ascii_of_string; assumption.
Qed.

Lemma compiled_lookups_never_begin_with_underscore_witness :
  @Variable_init plain_externals "article.section"
  = Ok (mkVariable "article.section" VNone (Some ["article"; "section"]) false None)
  /\ ["article"; "section"] <> []
  /\ Forall (fun bit => startswith bit "_" = false) ["article"; "section"].
Proof.
  split; [reflexivity|].
  apply (@compiled_lookups_never_begin_with_underscore plain_externals
           "article.section"
           (mkVariable "article.section" VNone (Some ["article"; "section"]) false None)
           ["article"; "section"]).
  - reflexivity.
  - reflexivity.
Defined.

(** ** What a compiled filter chain holds *)

Section compiled_filters.
Context {ext : Externals}.
Variables (token : string) (registry : gmap string Filter).

#[local] Abbreviation fits := (fun fa : Filter * list filter_arg =>
  (exists name, registry !! name = Some fa.1)
  /\ alen fa.1 - dlen fa.1 <= Z.of_nat (length fa.2) + 1 <= alen fa.1
  /\ (length fa.2 <= 1)%nat).

Lemma find_filter_registered filter_name f :
  Parser_find_filter registry filter_name = Ok f ->
  exists name, registry !! name = Some f.
Proof.
  unfold Parser_find_filter. destruct filter_name as [n|]; simpl; [|discriminate].
  destruct (registry !! n) as [g|] eqn:Hn; [|discriminate].
  intros [= <-]. by exists n.
Qed.

Lemma args_check_bounds name f provided b :
  args_check name f provided = Ok b ->
  alen f - dlen f <= Z.of_nat (length provided) + 1 <= alen f.
Proof.
  unfold args_check.
  destruct (Z.ltb_spec (Z.of_nat (length provided) + 1) (alen f - dlen f));
    [discriminate|].
  destruct (Z.ltb_spec (alen f) (Z.of_nat (length provided) + 1));
    [discriminate|].
  intros _. lia.
Qed.

Lemma init_step_fits m var_obj fs upto var_obj' fs' upto' :
  init_step token registry m (var_obj, fs, upto) = Ok (var_obj', fs', upto') ->
  Forall fits fs -> Forall fits fs'.
Proof.
  unfold init_step. destruct (negb (upto =? m_start m)%nat); [discriminate|].
  destruct var_obj as [v|].
  - set (args := if nonempty (g_constant_arg m) then _ else _).
    assert (Hargs : forall l, args = Ok l -> (length l <= 1)%nat).
    { subst args. intros l.
      destruct (nonempty (g_constant_arg m)).
      - destruct (Variable_init _) as [x|]; simpl; [|discriminate].
        destruct (Variable_resolve x empty_dict); simpl; [|discriminate].
        intros [= <-]. simpl. lia.
      - destruct (nonempty (g_var_arg m)).
        + destruct (Variable_init _) as [x|]; simpl; [|discriminate].
          intros [= <-]. simpl. lia.
        + intros [= <-]. simpl. lia. }
    destruct args as [l|]; simpl; [|discriminate].
    destruct (Parser_find_filter registry (g_filter_name m)) as [f|] eqn:Hf;
      simpl; [|discriminate].
    destruct (args_check _ f l) as [b|] eqn:Hc; simpl; [|discriminate].
    intros [= <- <- <-] Hfs. apply Forall_app. split; [exact Hfs|].
    constructor; [|constructor]. simpl. split; [|split].
    + exact (find_filter_registered _ _ Hf).
    + exact (args_check_bounds _ _ _ _ Hc).
    + exact (Hargs l eq_refl).
  - destruct (nonempty (g_constant m)).
    + destruct (Variable_init _) as [x|]; simpl; [|discriminate].
      destruct (Variable_resolve x empty_dict) as [c|e].
      * by intros [= <- <- <-].
      * destruct e; try discriminate. by intros [= <- <- <-].
    + destruct (g_var m) as [s|]; [|discriminate].
      destruct (Variable_init s) as [x|]; simpl; [|discriminate].
      by intros [= <- <- <-].
Qed.

Lemma init_loop_fits matches : forall st st',
  init_loop token registry matches st = Ok st' ->
  Forall fits st.1.2 -> Forall fits st'.1.2.
Proof.
  induction matches as [|m matches IH]; intros st st'; simpl.
  - by intros [= <-].
  - destruct (init_step token registry m st) as [st1|] eqn:Hstep; simpl; [|discriminate].
    intros Hloop Hst. apply (IH _ _ Hloop).
    destruct st as [[v fs] u], st1 as [[v1 fs1] u1].
    exact (init_step_fits _ _ _ _ _ _ _ Hstep Hst).
Qed.
End compiled_filters.

(** Every filter of a compiled expression was found in the parser's
    registry under some name, and the arguments compiled for it fit its
    signature: with the piped value they are no fewer than its parameters
    without default and no more than its parameters; the syntax gives a
    filter at most one argument. *)
Theorem compiled_filters_are_registered_and_fit `{Externals}
    (token : string) (registry : gmap string Filter) (fe : FilterExpression) :
  FilterExpression_init token registry = Ok fe ->
  Forall (fun fa : Filter * list filter_arg =>
            (exists name, registry !! name = Some fa.1)
            /\ alen fa.1 - dlen fa.1 <= Z.of_nat (length fa.2) + 1 <= alen fa.1
            /\ (length fa.2 <= 1)%nat)
         (filters fe).
Proof.
  unfold FilterExpression_init.
  destruct (init_loop token registry (filter_re_finditer token) (None, [], 0%nat))
    as [[[v fs] u]|] eqn:Hloop; simpl; [|discriminate].
  destruct (negb (u =? String.length token)%nat); [discriminate|].
  intros [= <-]. simpl.
  apply (init_loop_fits token registry _ _ _ Hloop). constructor.
Qed.

Lemma compiled_filters_are_registered_and_fit_witness :
  Forall (fun fa : Filter * list filter_arg =>
            (exists name, sample_filters !! name = Some fa.1)
            /\ alen fa.1 - dlen fa.1 <= Z.of_nat (length fa.2) + 1 <= alen fa.1
            /\ (length fa.2 <= 1)%nat)
         (filters missing_upper).
Proof.
  apply (@compiled_filters_are_registered_and_fit plain_externals
           "missing|upper" sample_filters missing_upper).
  reflexivity.
Defined.

(** ** Safe data through a filter chain *)

Section filter_chain.
Context {ext : Externals}.

Lemma apply_filters_app context fs1 : forall obj fs2,
  apply_filters context obj (fs1 ++ fs2)
  = (obj' <- apply_filters context obj fs1;; apply_filters context obj' fs2).
Proof.
  induction fs1 as [|f fs1 IH]; intros obj fs2; simpl; [reflexivity|].
  destruct (apply_filter context obj f) as [obj'|e]; simpl; [apply IH|reflexivity].
Qed.

Lemma safe_filter_keeps_safe context s f out :
  is_safe f.1 = true ->
  apply_filter context (VSafe s) f = Ok out ->
  exists s', out = VSafe s'.
Proof.
  destruct f as [f args]. simpl. intros Hsafe. unfold apply_filter.
  destruct (resolve_args context args) as [vals|]; simpl; [|discriminate].
  assert (Hobj : (if expects_localtime f
                  then template_localtime (VSafe s) (use_tz context)
                  else VSafe s) = VSafe s).
  { destruct (expects_localtime f); [apply template_localtime_safe|reflexivity]. }
  rewrite Hobj, Hsafe. simpl.
  destruct (if needs_autoescape f then _ else _) as [new_obj|]; simpl; [|discriminate].
  intros [= <-]. destruct new_obj; simpl; eauto.
Qed.
End filter_chain.

(** A chain of filters that are all registered as [is_safe] gives safe
    data whenever it is applied to safe data and no filter raises: each
    result is marked safe again before the next filter sees it. *)
Theorem safe_filters_keep_safe_data_safe `{Externals} (context : Context_)
    (fs : list (Filter * list filter_arg)) (s : string) (out : value) :
  Forall (fun fa : Filter * list filter_arg => is_safe fa.1 = true) fs ->
  apply_filters context (VSafe s) fs = Ok out ->
  is_SafeData out = true.
Proof.
  intros Hfs. revert s. induction Hfs as [|f fs Hf _ IH]; intros s; simpl.
  - by intros [= <-].
  - destruct (apply_filter context (VSafe s) f) as [obj'|] eqn:Hstep; simpl;
      [|discriminate].
    destruct (safe_filter_keeps_safe _ _ _ _ Hf Hstep) as [s' ->]. apply IH.
Qed.

Lemma safe_filters_keep_safe_data_safe_witness :
  @apply_filters plain_externals unescaped_context (VSafe "a&b")
    [(mkFilter (func upper_filter) false false true 1 0, [])]
  = Ok (VSafe "A&B")
  /\ is_SafeData (VSafe "A&B") = true.
Proof.
  split; [reflexivity|].
  apply (@safe_filters_keep_safe_data_safe plain_externals unescaped_context
           [(mkFilter (func upper_filter) false false true 1 0, [])] "a&b"
           (VSafe "A&B")).
  - constructor; [reflexivity|constructor].
  - reflexivity.
Defined.

(** ** The two lexers *)

Section lexers.

Lemma create_token_position verbatim token_string position lineno in_tag :
  Lexer_create_token verbatim token_string None lineno in_tag
  = (without_position
       <$> (Lexer_create_token verbatim token_string position lineno in_tag).1,
     (Lexer_create_token verbatim token_string position lineno in_tag).2).
Proof.
  unfold Lexer_create_token. cbv zeta.
  repeat case_match; reflexivity.
Qed.

Lemma substring_nothing s : forall i, String.substring i 0 s = "".
Proof.
  induction s as [|a s IH]; intros [|i]; simpl; try reflexivity. apply IH.
Qed.

Lemma slice_nothing i s : slice i i s = "".
Proof. unfold slice. rewrite Nat.sub_diag. apply substring_nothing. Qed.

Lemma substring_something s : forall i m,
  (i < String.length s)%nat -> exists a r, String.substring i (S m) s = String a r.
Proof.
  induction s as [|a s IH]; intros i m Hi; simpl in Hi; [lia|].
  destruct i as [|i]; simpl; [eauto|]. apply IH. lia.
Qed.

Lemma slice_something i j s :
  (i < j)%nat -> (j <= String.length s)%nat -> exists a r, slice i j s = String a r.
Proof.
  intros Hij Hj. unfold slice.
  replace (j - i)%nat with (S (j - i - 1)) by lia.
  apply substring_something. lia.
Qed.

Lemma tag_close_bounds c l : forall n,
  tag_close c l = Some n -> (2 <= n <= length l)%nat.
Proof.
  induction l as [|a l IH]; intros n; simpl; [discriminate|].
  destruct l as [|b l]; [discriminate|].
  destruct (Ascii.eqb a c && Ascii.eqb b "}").
  { intros [= <-]. simpl. lia. }
  destruct (Ascii.eqb a newline); [discriminate|].
  destruct (tag_close c (b :: l)) as [k|]; [|discriminate].
  intros [= <-]. specialize (IH k eq_refl). simpl in *. lia.
Qed.

Lemma tag_at_bounds l n : tag_at l = Some n -> (4 <= n <= length l)%nat.
Proof.
  unfold tag_at. destruct l as [|a [|x rest]]; try discriminate.
  destruct (Ascii.eqb a "{"); [|discriminate].
  assert (Hc : forall c, (fun n => 2 + n)%nat <$> tag_close c rest = Some n ->
                         (4 <= n <= length (a :: x :: rest))%nat).
  { intros c. destruct (tag_close c rest) as [k|] eqn:Hk; [|discriminate].
    intros [= <-]. apply tag_close_bounds in Hk. simpl. lia. }
  destruct (Ascii.eqb x "%"); [apply Hc|].
  destruct (Ascii.eqb x "{"); [apply Hc|].
  destruct (Ascii.eqb x "#"); [apply Hc|discriminate].
Qed.

Lemma spans_in_order_from upto upto' spans len :
  (upto' <= upto)%nat -> spans_in_order upto spans len -> spans_in_order upto' spans len.
Proof.
  destruct spans as [|[start end_] rest]; simpl; [done|].
  intros Hle (H1 & H2 & H3 & H4). repeat split; try assumption. lia.
Qed.

Lemma tag_scan_in_order l : forall skip pos,
  spans_in_order (pos + skip) (tag_scan skip pos l) (pos + length l).
Proof.
  induction l as [|a l IH]; intros skip pos; cbn [tag_scan length]; [exact I|].
  destruct skip as [|k].
  - destruct (tag_at (a :: l)) as [n|] eqn:Hn.
    + apply tag_at_bounds in Hn. cbn [length] in Hn. cbn [spans_in_order].
      split; [lia|]. split; [lia|]. split; [lia|].
      specialize (IH (n - 1)%nat (S pos)).
      replace (S pos + (n - 1))%nat with (pos + n)%nat in IH by lia.
      replace (S pos + length l)%nat with (pos + S (length l))%nat in IH by lia.
      exact IH.
    + specialize (IH 0%nat (S pos)).
      replace (S pos + length l)%nat with (pos + S (length l))%nat in IH by lia.
      apply (spans_in_order_from (S pos + 0)); [lia|exact IH].
  - specialize (IH k (S pos)).
    replace (S pos + k)%nat with (pos + S k)%nat in IH by lia.
    replace (S pos + length l)%nat with (pos + S (length l))%nat in IH by lia.
    exact IH.
Qed.

Lemma length_chars s : length (chars s) = String.length s.
Proof.
  induction s as [|a s IH]; [reflexivity|].
  change (S (length (chars s)) = S (String.length s)). by rewrite IH.
Qed.

Lemma finditer_in_order s :
  spans_in_order 0 (tag_re_finditer s) (String.length s).
Proof.
  unfold tag_re_finditer. rewrite <- length_chars. exact (tag_scan_in_order (chars s) 0 0)%nat.
Qed.

Lemma debug_loop_agrees s spans : forall upto verbatim lineno,
  spans_in_order upto spans (String.length s) ->
  (fun t : option Token => without_position <$> t) <$> debug_tokenize_spans s spans verbatim lineno upto
  = tokenize_bits (split_bits s upto spans) verbatim false lineno.
Proof.
  induction spans as [|[start end_] rest IH]; intros upto verbatim lineno Hord.
  - simpl. destruct (slice upto (String.length s) s) as [|a r] eqn:Hlast; [reflexivity|].
    reflexivity.
  - simpl in Hord. destruct Hord as (Hle & Hlt & Hend & Hrest).
    destruct (slice_something start end_ s Hlt Hend) as (a2 & r2 & Htag).
    cbn [debug_tokenize_spans split_bits tokenize_bits]. rewrite Htag.
    destruct (Nat.ltb_spec upto start) as [Hup|Hup].
    + destruct (slice_something upto start s Hup ltac:(lia)) as (a1 & r1 & Htext).
      rewrite Htext.
      rewrite (create_token_position verbatim (String a1 r1) (span_position upto start)).
      destruct (Lexer_create_token verbatim _ (span_position upto start) _ _) as [t vb].
      cbn [fst snd negb].
      rewrite (create_token_position vb (String a2 r2) (span_position start end_)).
      destruct (Lexer_create_token vb _ (span_position start end_) _ _) as [t' vb'].
      cbn [fst snd negb fmap list_fmap]. f_equal. f_equal. apply IH. exact Hrest.
    + assert (upto = start) as -> by lia. rewrite slice_nothing.
      cbn [py_count negb]. rewrite Z.add_0_r.
      rewrite (create_token_position verbatim (String a2 r2) (span_position start end_)).
      destruct (Lexer_create_token verbatim _ (span_position start end_) _ _) as [t' vb'].
      cbn [fst snd negb fmap list_fmap]. f_equal. apply IH. exact Hrest.
Qed.
End lexers.

(** The debug lexer gives the same tokens as the plain lexer: the same
    types, contents and line numbers in the same order; the only
    difference is the position the debug lexer records. *)
Theorem debug_lexer_agrees_with_lexer (template_string : string) :
  (fun t : option Token => without_position <$> t) <$> DebugLexer_tokenize template_string
  = Lexer_tokenize template_string.
Proof.
  unfold DebugLexer_tokenize, Lexer_tokenize, tag_re_split.
  apply debug_loop_agrees, finditer_in_order.
Qed.

Section lexer_positions.

Lemma substring_opening s : forall start n a x rest,
  drop start (chars s) = a :: x :: rest ->
  exists r, String.substring start (S (S n)) s = String a (String x r).
Proof.
  induction s as [|c s IH]; intros start n a x rest.
  - destruct start; discriminate.
  - destruct start as [|start].
    + intros Hs. change (c :: chars s = a :: x :: rest) in Hs.
      injection Hs as -> Hs.
      destruct s as [|y s]; [discriminate|].
      change (y :: chars s = x :: rest) in Hs. injection Hs as -> _.
      simpl. eauto.
    + intros Hs. change (drop start (chars s) = a :: x :: rest) in Hs.
      simpl. exact (IH start n a x rest Hs).
Qed.

Lemma tag_at_starts_a_tag s start n :
  tag_at (drop start (chars s)) = Some n ->
  starts_a_tag (slice start (start + n) s) = true.
Proof.
  intros Hn. pose proof (tag_at_bounds _ _ Hn) as [Hlo _].
  unfold tag_at in Hn.
  destruct (drop start (chars s)) as [|a [|x rest]] eqn:Hdrop; try discriminate.
  unfold slice. replace (start + n - start)%nat with (S (S (n - 2))) by lia.
  destruct (substring_opening s start (n - 2) a x rest Hdrop) as [r ->].
  unfold starts_a_tag, startswith.
  destruct (Ascii.eqb_spec a "{") as [->|]; [|discriminate].
  destruct (Ascii.eqb_spec x "%") as [->|]; [by destruct r|].
  destruct (Ascii.eqb_spec x "{") as [->|]; [by destruct r|].
  destruct (Ascii.eqb_spec x "#") as [->|]; [by destruct r|discriminate].
Qed.

Lemma tag_scan_spans_match l : forall pre skip,
  Forall (fun sp : nat * nat =>
            exists n, sp.2 = (sp.1 + n)%nat /\ tag_at (drop sp.1 (pre ++ l)) = Some n)
         (tag_scan skip (length pre) l).
Proof.
  induction l as [|a l IH]; intros pre skip; cbn [tag_scan]; [constructor|].
  assert (Hnext : forall k,
    Forall (fun sp : nat * nat =>
              exists n, sp.2 = (sp.1 + n)%nat
                        /\ tag_at (drop sp.1 (pre ++ a :: l)) = Some n)
           (tag_scan k (S (length pre)) l)).
  { intros k. specialize (IH (pre ++ [a]) k).
    rewrite <- app_assoc in IH. rewrite length_app in IH. simpl in IH.
    replace (length pre + 1)%nat with (S (length pre)) in IH by lia. exact IH. }
  destruct skip as [|k]; [|apply Hnext].
  destruct (tag_at (a :: l)) as [n|] eqn:Hn; [|apply Hnext].
  constructor; [|apply Hnext].
  exists n. split; [reflexivity|]. cbn [fst].
  by rewrite drop_app_length.
Qed.

Lemma finditer_spans_start_a_tag s :
  Forall (fun sp : nat * nat => starts_a_tag (slice sp.1 sp.2 s) = true)
         (tag_re_finditer s).
Proof.
  unfold tag_re_finditer.
  pose proof (tag_scan_spans_match (chars s) [] 0) as Hspans.
  simpl in Hspans. eapply Forall_impl; [exact Hspans|].
  intros [start end_] (n & -> & Hn). cbn [fst snd] in *.
  exact (tag_at_starts_a_tag _ _ _ Hn).
Qed.

Lemma create_token_made verbatim token_string pos lineno in_tag :
  in_tag = false \/ starts_a_tag token_string = true ->
  exists t, (Lexer_create_token verbatim token_string pos lineno in_tag).1 = Some t
            /\ position t = pos.
Proof.
  unfold Lexer_create_token, starts_a_tag. cbv zeta. intros Hcase.
  repeat case_match; simpl; eauto;
    destruct Hcase as [Hcase|Hcase]; discriminate.
Qed.

Lemma length_substring s : forall i m,
  (i + m <= String.length s)%nat -> String.length (String.substring i m s) = m.
Proof.
  induction s as [|a s IH]; intros i m; simpl.
  - intros Hle. assert (i = 0%nat /\ m = 0%nat) as [-> ->] by lia. reflexivity.
  - destruct i as [|i].
    + destruct m as [|m]; [reflexivity|]. intros Hle. simpl.
      rewrite (IH 0%nat m) by lia. reflexivity.
    + intros Hle. apply IH. lia.
Qed.

Lemma debug_loop_tiles s spans : forall upto verbatim lineno,
  (upto <= String.length s)%nat ->
  spans_in_order upto spans (String.length s) ->
  Forall (fun sp : nat * nat => starts_a_tag (slice sp.1 sp.2 s) = true) spans ->
  positions_tile (Z.of_nat upto) (debug_tokenize_spans s spans verbatim lineno upto)
                 (Z.of_nat (String.length s)).
Proof.
  induction spans as [|[start end_] rest IH]; intros upto verbatim lineno Hupto Hord Htags.
  - cbn [debug_tokenize_spans].
    destruct (slice upto (String.length s) s) as [|a r] eqn:Hlast.
    + simpl. destruct (Nat.eq_dec upto (String.length s)) as [->|Hne]; [reflexivity|].
      destruct (slice_something upto (String.length s) s) as (a & r & Hs);
        [lia|lia|congruence].
    + destruct (create_token_made verbatim (String a r)
                  (span_position upto (upto + String.length (String a r))) lineno false
                  (or_introl eq_refl)) as (t & Ht & Hpos).
      cbn [positions_tile]. rewrite Ht. eexists. split; [exact Hpos|].
      assert (Hlen : String.length (String a r) = (String.length s - upto)%nat).
      { rewrite <- Hlast. unfold slice. apply length_substring. lia. }
      rewrite Hlen. cbn [positions_tile]. split; [|lia].
      destruct (Nat.eq_dec upto (String.length s)) as [E|Hne]; [|lia].
      rewrite E, Nat.sub_diag in Hlen. discriminate.
  - cbn [spans_in_order] in Hord. destruct Hord as (Hle & Hlt & Hend & Hrest).
    apply Forall_cons in Htags as [Htag Htags]. cbn [fst snd] in Htag.
    cbn [debug_tokenize_spans].
    destruct (Nat.ltb_spec upto start) as [Hup|Hup].
    + destruct (Lexer_create_token verbatim (slice upto start s)
                  (span_position upto start) lineno false) as [t vb] eqn:Ht.
      destruct (create_token_made verbatim (slice upto start s)
                  (span_position upto start) lineno false (or_introl eq_refl))
        as (t1 & Ht1 & Hpos1).
      rewrite Ht in Ht1. cbn [fst] in Ht1. subst t.
      destruct (Lexer_create_token vb (slice start end_ s)
                  (span_position start end_) _ true) as [t' vb'] eqn:Ht'.
      destruct (create_token_made vb (slice start end_ s)
                  (span_position start end_)
                  (lineno + py_count newline (slice upto start s)) true
                  (or_intror Htag)) as (t2 & Ht2 & Hpos2).
      rewrite Ht' in Ht2. cbn [fst] in Ht2. subst t'.
      cbn [positions_tile].
      exists (Z.of_nat start). split; [exact Hpos1|]. split; [lia|].
      exists (Z.of_nat end_). split; [exact Hpos2|]. split; [lia|].
      apply IH; assumption.
    + assert (upto = start) as -> by lia.
      destruct (Lexer_create_token verbatim (slice start end_ s)
                  (span_position start end_) lineno true) as [t' vb'] eqn:Ht'.
      destruct (create_token_made verbatim (slice start end_ s)
                  (span_position start end_) lineno true (or_intror Htag))
        as (t2 & Ht2 & Hpos2).
      rewrite Ht' in Ht2. cbn [fst] in Ht2. subst t'.
      cbn [positions_tile].
      exists (Z.of_nat end_). split; [exact Hpos2|]. split; [lia|].
      apply IH; assumption.
Qed.

Lemma positions_tile_made upto ts len :
  positions_tile upto ts len -> Forall is_Some ts.
Proof.
  revert upto. induction ts as [|[t|] ts IH]; intros upto; simpl.
  - constructor.
  - intros (end_ & _ & _ & Hrest). constructor; [by eexists|exact (IH _ Hrest)].
  - intros [].
Qed.
End lexer_positions.

(** The positions the debug lexer records tile the template: every token
    was made by [create_token], the first one starts at 0, each token
    starts where the one before it ended and spans at least one character,
    and the last one ends at the end of the template. *)
Theorem debug_positions_tile_the_template (template_string : string) :
  positions_tile 0 (DebugLexer_tokenize template_string)
                 (Z.of_nat (String.length template_string)).
Proof.
  unfold DebugLexer_tokenize.
  apply (debug_loop_tiles template_string _ 0%nat None 1).
  - lia.
  - apply finditer_in_order.
  - apply finditer_spans_start_a_tag.
Qed.

(** Neither lexer ever appends a missing token: for every bit that
    [tokenize] hands to [create_token] the method returns a token. *)
Theorem tokenize_always_makes_tokens (template_string : string) :
  Forall is_Some (Lexer_tokenize template_string)
  /\ Forall is_Some (DebugLexer_tokenize template_string).
Proof.
  assert (Hdebug : Forall is_Some (DebugLexer_tokenize template_string)).
  { eapply positions_tile_made. unfold DebugLexer_tokenize.
    apply (debug_loop_tiles template_string _ 0%nat None 1);
      [lia|apply finditer_in_order|apply finditer_spans_start_a_tag]. }
  split; [|exact Hdebug].
  unfold Lexer_tokenize, tag_re_split.
  rewrite <- (debug_loop_agrees template_string _ 0%nat None 1 (finditer_in_order _)).
  apply Forall_fmap. eapply Forall_impl; [exact Hdebug|].
  intros t [x ->]. by eexists.
Qed.

Section lexer_linenos.

Lemma append_cons c a b : String c a +:+ b = String c (a +:+ b).
Proof. reflexivity. Qed.

Lemma substring_split s : forall i m n,
  String.substring i m s +:+ String.substring (i + m) n s
  = String.substring i (m + n) s.
Proof.
  induction s as [|c s IH]; intros i m n.
  - destruct i, m, n; reflexivity.
  - destruct i as [|i].
    + destruct m as [|m]; [reflexivity|].
      change (String c (String.substring 0 m s) +:+ String.substring (0 + m) n s
              = String c (String.substring 0 (m + n) s)).
      rewrite append_cons. f_equal. apply (IH 0%nat).
    + exact (IH i m n).
Qed.

Lemma slice_split a b c s :
  (a <= b)%nat -> (b <= c)%nat -> slice a b s +:+ slice b c s = slice a c s.
Proof.
  intros Hab Hbc. unfold slice.
  replace b with (a + (b - a))%nat at 2 by lia.
  rewrite substring_split. f_equal. lia.
Qed.

Lemma py_count_app c s1 s2 :
  py_count c (s1 +:+ s2) = py_count c s1 + py_count c s2.
Proof.
  induction s1 as [|a s1 IH]; [reflexivity|].
  rewrite append_cons. cbn [py_count]. rewrite IH. lia.
Qed.

Lemma py_count_slice c a b s :
  (a <= b)%nat ->
  py_count c (slice 0 a s) + py_count c (slice a b s) = py_count c (slice 0 b s).
Proof.
  intros Hab. rewrite <- py_count_app, slice_split by lia. reflexivity.
Qed.

Lemma create_token_lineno verbatim token_string pos line in_tag t :
  (Lexer_create_token verbatim token_string pos line in_tag).1 = Some t ->
  position t = pos /\ lineno t = line.
Proof.
  unfold Lexer_create_token. cbv zeta.
  repeat case_match; simpl; intros [= <-]; split; reflexivity.
Qed.

Lemma debug_loop_linenos s spans : forall upto verbatim line,
  line = 1 + py_count newline (slice 0 upto s) ->
  spans_in_order upto spans (String.length s) ->
  Forall (fun t : option Token =>
            forall tok, t = Some tok ->
              exists start end_,
                position tok = span_position start end_
                /\ lineno tok = 1 + py_count newline (slice 0 start s))
         (debug_tokenize_spans s spans verbatim line upto).
Proof.
  induction spans as [|[start end_] rest IH]; intros upto verbatim line Hline Hord.
  - cbn [debug_tokenize_spans].
    destruct (slice upto (String.length s) s) as [|a r]; constructor; [|constructor].
    intros tok [Hpos Hl]%create_token_lineno.
    exists upto, (upto + String.length (String a r))%nat. by rewrite Hl, Hline.
  - cbn [spans_in_order] in Hord. destruct Hord as (Hle & Hlt & Hend & Hrest).
    cbn [debug_tokenize_spans].
    destruct (Nat.ltb_spec upto start) as [Hup|Hup].
    + destruct (Lexer_create_token verbatim (slice upto start s)
                  (span_position upto start) line false) as [t vb] eqn:Ht.
      destruct (Lexer_create_token vb (slice start end_ s)
                  (span_position start end_) _ true) as [t' vb'] eqn:Ht'.
      assert (Hstart : line + py_count newline (slice upto start s)
                       = 1 + py_count newline (slice 0 start s)).
      { rewrite Hline, <- (py_count_slice newline upto start s) by lia. lia. }
      constructor; [|constructor].
      * intros tok ->. pose proof (create_token_lineno verbatim _ _ _ _ tok
                                     ltac:(by rewrite Ht)) as [Hpos Hl].
        exists upto, start. by rewrite Hl, Hline.
      * intros tok ->. pose proof (create_token_lineno vb _ _ _ _ tok
                                     ltac:(by rewrite Ht')) as [Hpos Hl].
        exists start, end_. by rewrite Hl, Hstart.
      * apply IH; [|exact Hrest].
        rewrite Hstart, <- (py_count_slice newline start end_ s) by lia. lia.
    + assert (upto = start) as -> by lia.
      destruct (Lexer_create_token verbatim (slice start end_ s)
                  (span_position start end_) line true) as [t' vb'] eqn:Ht'.
      constructor.
      * intros tok ->. pose proof (create_token_lineno verbatim _ _ _ _ tok
                                     ltac:(by rewrite Ht')) as [Hpos Hl].
        exists start, end_. by rewrite Hl, Hline.
      * apply IH; [|exact Hrest].
        rewrite Hline, <- (py_count_slice newline start end_ s) by lia. lia.
Qed.
End lexer_linenos.

(** The line number of a token is the number of the line its first
    character is on: one more than the number of newlines of the template
    before the start of the token's span. *)
Theorem lineno_counts_the_newlines_before_the_token (template_string : string) :
  Forall (fun t : option Token =>
            forall tok, t = Some tok ->
              exists start end_,
                position tok = span_position start end_
                /\ lineno tok
                   = 1 + py_count newline (slice 0 start template_string))
         (DebugLexer_tokenize template_string).
Proof.
  unfold DebugLexer_tokenize. apply debug_loop_linenos.
  - rewrite slice_nothing. reflexivity.
  - apply finditer_in_order.
Qed.

(** ** Line breaks *)

Section line_breaks.

Lemma after_newlines_sorted l : forall pos,
  StronglySorted lt (after_newlines pos l ++ [(pos + length l + 1)%nat])
  /\ Forall (lt pos) (after_newlines pos l ++ [(pos + length l + 1)%nat]).
Proof.
  induction l as [|a l IH]; intros pos; cbn [after_newlines length].
  - split; repeat constructor. lia.
  - destruct (IH (S pos)) as [Hsorted Hlt].
    replace (S pos + length l + 1)%nat with (pos + S (length l) + 1)%nat in * by lia.
    assert (Hpos : Forall (lt pos)
                     (after_newlines (S pos) l ++ [(pos + S (length l) + 1)%nat])).
    { eapply Forall_impl; [exact Hlt|]. intros x Hx. simpl in Hx. lia. }
    destruct (Ascii.eqb a newline); [|by split].
    split.
    + constructor; assumption.
    + constructor; [lia|assumption].
Qed.

Lemma after_newlines_length l : forall pos,
  length (after_newlines pos l) = count_occ ascii_dec l newline.
Proof.
  induction l as [|a l IH]; intros pos; [reflexivity|].
  cbn [after_newlines count_occ].
  destruct (Ascii.eqb_spec a newline) as [->|Hne].
  - destruct (ascii_dec newline newline); [|congruence]. simpl. by rewrite IH.
  - destruct (ascii_dec a newline); [congruence|]. apply IH.
Qed.
End line_breaks.

(** The positions [linebreak_iter] yields begin with 0, increase strictly,
    and end with the length of the source plus one; there is one for each
    newline of the source besides these two, so each pair of neighbours
    bounds one line. *)
Theorem linebreak_iter_increases (template_source : string) :
  StronglySorted lt (linebreak_iter template_source)
  /\ head (linebreak_iter template_source) = Some 0%nat
  /\ last (linebreak_iter template_source)
     = Some (String.length template_source + 1)%nat
  /\ length (linebreak_iter template_source)
     = (2 + count_occ ascii_dec (chars template_source) newline)%nat.
Proof.
  unfold linebreak_iter.
  destruct (after_newlines_sorted (chars template_source) 0) as [Hsorted Hlt].
  rewrite length_chars in Hsorted, Hlt. simpl in Hsorted, Hlt.
  split; [|split; [reflexivity|split]].
  - constructor; assumption.
  - rewrite app_comm_cons. apply last_snoc.
  - simpl. rewrite length_app, after_newlines_length. simpl. lia.
Qed.

(** ** Searching a node tree *)

Section node_search.
Variable isinstance : Node -> bool.

Lemma Node_get_nodes_by_type_instances : forall node,
  Forall (fun n => isinstance n = true) (Node_get_nodes_by_type isinstance node).
Proof.
  fix IH 1. intros [k tok org].
  cbn [Node_get_nodes_by_type]. apply Forall_app. split.
  - destruct (isinstance (MkNode k tok org)) eqn:E; repeat constructor. exact E.
  - destruct k as [s|fe|cn mbf r children]; try constructor.
    induction children as [|nl children IHc]; simpl; [constructor|].
    apply Forall_app. split; [|exact IHc].
    clear IHc. induction nl as [|n nl IHn]; simpl; [constructor|].
    apply Forall_app. split; [apply IH|exact IHn].
Qed.

Lemma flat_map_childless nodes :
  Forall (fun n => match node_kind n with
                   | TagNode _ _ _ (_ :: _) => False
                   | _ => True
                   end) nodes ->
  NodeList_get_nodes_by_type isinstance nodes = List.filter isinstance nodes.
Proof.
  unfold NodeList_get_nodes_by_type.
  induction 1 as [|n nodes Hn _ IH]; [reflexivity|].
  cbn [List.flat_map List.filter]. rewrite IH.
  destruct n as [k tok org]. cbn [Node_get_nodes_by_type].
  destruct k as [s|fe|cn mbf r [|nl children]]; simpl in Hn; try contradiction;
    simpl; destruct (isinstance _); reflexivity.
Qed.
End node_search.

(** [get_nodes_by_type] returns only nodes of the type asked for, from a
    node as from a node list; a node of that type comes before the nodes
    found below it, and on a list of nodes without child lists the search
    is the filter of the list by the type. *)
Theorem get_nodes_by_type_returns_instances (isinstance : Node -> bool) :
  (forall node,
      Forall (fun n => isinstance n = true) (Node_get_nodes_by_type isinstance node))
  /\ (forall nodes,
      Forall (fun n => isinstance n = true) (NodeList_get_nodes_by_type isinstance nodes))
  /\ (forall node, isinstance node = true ->
      head (Node_get_nodes_by_type isinstance node) = Some node)
  /\ (forall org ts,
      NodeList_get_nodes_by_type isinstance (text_nodes org ts)
      = List.filter isinstance (text_nodes org ts)).
Proof.
  split; [apply Node_get_nodes_by_type_instances|]. split; [|split].
  - intros nodes. unfold NodeList_get_nodes_by_type.
    induction nodes as [|n nodes IH]; simpl; [constructor|].
    apply Forall_app. split; [apply Node_get_nodes_by_type_instances|exact IH].
  - intros [k tok org] Hinst. cbn [Node_get_nodes_by_type]. rewrite Hinst. reflexivity.
  - intros org ts. apply flat_map_childless.
    induction ts as [|t ts IH]; [constructor|].
    rewrite text_nodes_cons. destruct (token_type t); simpl; try exact IH.
    constructor; [exact I|exact IH].
Qed.

(** ** Errors while rendering *)

Section render_errors.
Context {ext : Externals}.

Lemma render_bits_failing render_tag annotate context node after e before :
  Forall (fun n => exists bit, Node_render render_tag n context = Ok bit) before ->
  Node_render_annotated render_tag annotate node context = Raise e ->
  render_bits render_tag annotate (before ++ node :: after) context = Raise e.
Proof.
  intros Hbefore Hnode. induction Hbefore as [|n before [bit Hn] _ IH]; simpl.
  - by rewrite Hnode.
  - unfold Node_render_annotated at 1. rewrite Hn. simpl. by rewrite IH.
Qed.
End render_errors.

(** [NodeList.render] ends at the first node whose [render] raises.  What
    the caller sees depends on the context: bound to a template of an
    engine with [debug] off it is that exception; with [debug] on it is
    what the annotation leaves; and on a context bound to no template it
    is an [AttributeError], whatever the node raised, because the handler
    reads the engine of the missing template. *)
Theorem first_failing_node_ends_the_render `{Externals}
    (render_tag : Node -> Context_ -> res value)
    (annotate : pyexn -> Node -> Context_ -> pyexn)
    (before after : list Node) (node : Node) (context : Context_) (e : pyexn) :
  Forall (fun n => exists bit, Node_render render_tag n context = Ok bit) before ->
  Node_render render_tag node context = Raise e ->
  NodeList_render render_tag annotate (before ++ node :: after) context
  = match template context with
    | None => Raise AttributeError
    | Some t => if debug (engine t) then Raise (annotate e node context) else Raise e
    end.
Proof.
  intros Hbefore Hnode. unfold NodeList_render.
  assert (Hann : Node_render_annotated render_tag annotate node context
                 = match template context with
                   | None => Raise AttributeError
                   | Some t => if debug (engine t) then Raise (annotate e node context)
                               else Raise e
                   end).
  { unfold Node_render_annotated. rewrite Hnode.
    destruct (template context) as [t|]; [destruct (debug (engine t))|]; reflexivity. }
  destruct (template context) as [t|]; [destruct (debug (engine t))|];
    by rewrite (render_bits_failing _ _ _ _ _ _ _ Hbefore Hann).
Qed.

Lemma first_failing_node_ends_the_render_witness :
  @NodeList_render plain_externals (fun _ _ => Raise KeyError) (fun e _ _ => e)
    ([MkNode (TextNode "a") None None]
       ++ MkNode (TagNode "LoadNode" false "<LoadNode>" []) None None
       :: [MkNode (TextNode "b") None None])
    unescaped_context
  = Raise AttributeError.
Proof.
  apply (@first_failing_node_ends_the_render plain_externals
           (fun _ _ => Raise KeyError) (fun e _ _ => e)
           [MkNode (TextNode "a") None None] [MkNode (TextNode "b") None None]
           (MkNode (TagNode "LoadNode" false "<LoadNode>" []) None None)
           unescaped_context KeyError).
  - constructor; [by eexists|constructor].
  - reflexivity.
Defined.

(** ** Keyword arguments *)

Section keyword_arguments.
Variable compile_filter : string -> res FilterExpression.

Lemma kwargs_loop_suffix bits : forall kwargs,
  exists consumed, bits = consumed ++ (kwargs_loop compile_filter bits kwargs).2.
Proof.
  induction bits as [|bit rest IH]; intros kwargs; cbn [kwargs_loop].
  - by exists [].
  - destruct (kwarg_re_match bit) as [[[key|] val]|]; try by exists [].
    destruct (compile_filter val) as [fe|e].
    + destruct (IH (<[key := fe]> kwargs)) as [consumed Hc].
      exists (bit :: consumed). simpl. by rewrite <- Hc.
    + by exists [bit].
Qed.

Lemma legacy_loop_suffix n : forall bits kwargs,
  (length bits <= n)%nat ->
  exists consumed, bits = consumed ++ (legacy_loop compile_filter bits kwargs).2.
Proof.
  induction n as [|n IH]; intros bits kwargs Hlen.
  - destruct bits; [|simpl in Hlen; lia]. by exists [].
  - destruct bits as [|val [|as_ [|key rest]]]; try by exists [].
    cbn [legacy_loop]. destruct (String.eqb as_ "as"); [|by exists []].
    destruct (compile_filter val) as [fe|e]; [|by exists [val; as_; key]].
    destruct rest as [|and_ rest']; [by exists [val; as_; key]|].
    destruct (String.eqb and_ "and"); [|by exists [val; as_; key]].
    destruct (IH rest' (<[key := fe]> kwargs)) as [consumed Hc].
    { simpl in Hlen. lia. }
    exists (val :: as_ :: key :: and_ :: consumed). simpl. by rewrite <- Hc.
Qed.

Lemma kwargs_loop_stops_at_other_bit bits : forall kwargs result first rest,
  kwargs_loop compile_filter bits kwargs = (Ok result, first :: rest) ->
  kwarg_key first = None.
Proof.
  induction bits as [|bit bits IH]; intros kwargs result first rest;
    cbn [kwargs_loop]; [discriminate|].
  unfold kwarg_key.
  destruct (kwarg_re_match bit) as [[[key|] val]|] eqn:Hbit.
  - destruct (compile_filter val) as [fe|e]; [|discriminate].
    intros Hloop. exact (IH _ _ _ _ Hloop).
  - intros [= _ <- _]. by rewrite Hbit.
  - intros [= _ <- _]. by rewrite Hbit.
Qed.

Lemma kwargs_loop_leading (args : list (string * string * string * FilterExpression))
    (rest : list string) : forall kwargs,
  Forall (fun a : string * string * string * FilterExpression =>
            kwarg_re_match a.1.1.1 = Some (Some a.1.1.2, a.1.2)
            /\ compile_filter a.1.2 = Ok a.2) args ->
  match rest with [] => True | bit :: _ => kwarg_key bit = None end ->
  kwargs_loop compile_filter (((fun a => a.1.1.1) <$> args) ++ rest) kwargs
  = (Ok (foldl (fun m a => <[a.1.1.2 := a.2]> m) kwargs args), rest).
Proof.
  intros kwargs Hargs Hrest. revert kwargs.
  induction Hargs as [|[[[bit key] val] fe] args [Hbit Hfe] _ IH]; intros kwargs.
  - simpl. destruct rest as [|bit rest']; [reflexivity|].
    cbn [kwargs_loop]. unfold kwarg_key in Hrest.
    by destruct (kwarg_re_match bit) as [[[key|] val]|].
  - cbn [fst snd] in *. cbn [fmap list_fmap app kwargs_loop fst snd foldl].
    rewrite Hbit, Hfe. apply IH.
Qed.
End keyword_arguments.

(** [token_kwargs] removes bits from the front of the list only: what it
    leaves is a suffix of what it was given.  Without legacy support a
    list whose first bit is not of the form [key=value] is left as it is
    and gives the empty dictionary; and when the first bit is of that form
    and the call returns, the first bit left over is not. *)
Theorem token_kwargs_only_removes_from_the_front
    (compile_filter : string -> res FilterExpression) :
  (forall bits support_legacy,
      exists consumed,
        bits = consumed ++ (token_kwargs compile_filter bits support_legacy).2)
  /\ (forall first rest,
      kwarg_key first = None ->
      token_kwargs compile_filter (first :: rest) false = (Ok ∅, first :: rest))
  /\ (forall first rest support_legacy result left_first left_rest,
      is_Some (kwarg_key first) ->
      token_kwargs compile_filter (first :: rest) support_legacy
      = (Ok result, left_first :: left_rest) ->
      kwarg_key left_first = None).
Proof.
  split; [|split].
  - intros bits support_legacy. unfold token_kwargs.
    destruct bits as [|first rest]; [by exists []|].
    destruct (kwarg_key first); [apply kwargs_loop_suffix|].
    destruct (negb support_legacy); [by exists []|].
    destruct rest as [|as_ [|key rest]]; try by exists [].
    destruct (String.eqb as_ "as"); [|by exists []].
    by eapply legacy_loop_suffix.
  - intros first rest Hfirst. unfold token_kwargs. by rewrite Hfirst.
  - intros first rest support_legacy result left_first left_rest [key Hkey].
    unfold token_kwargs. rewrite Hkey. apply kwargs_loop_stops_at_other_bit.
Qed.

(** In the keyword format [token_kwargs] compiles the value of each
    leading [key=value] bit with [parser.compile_filter] and binds it to
    its key, a later binding of a key replacing an earlier one; it stops
    at the first bit that is not of that form and leaves that bit and the
    rest in the list. *)
Theorem token_kwargs_compiles_the_leading_keyword_bits
    (compile_filter : string -> res FilterExpression)
    (args : list (string * string * string * FilterExpression))
    (rest : list string) (support_legacy : bool) :
  args <> [] ->
  Forall (fun a : string * string * string * FilterExpression =>
            kwarg_re_match a.1.1.1 = Some (Some a.1.1.2, a.1.2)
            /\ compile_filter a.1.2 = Ok a.2) args ->
  match rest with [] => True | bit :: _ => kwarg_key bit = None end ->
  token_kwargs compile_filter (((fun a => a.1.1.1) <$> args) ++ rest) support_legacy
  = (Ok (foldl (fun m a => <[a.1.1.2 := a.2]> m) ∅ args), rest).
Proof.
  intros Hne Hargs Hrest.
  pose proof (kwargs_loop_leading compile_filter args rest ∅ Hargs Hrest) as Hloop.
  destruct args as [|[[[bit key] val] fe] args]; [done|].
  apply Forall_cons in Hargs as [[Hbit _] _]. cbn [fst snd] in Hbit.
  unfold token_kwargs. cbn [fmap list_fmap app fst snd] in *.
  unfold kwarg_key. rewrite Hbit. exact Hloop.
Qed.

Lemma token_kwargs_compiles_the_leading_keyword_bits_witness :
  token_kwargs (@Parser_compile_filter plain_externals sample_filters)
    (((fun a : string * string * string * FilterExpression => a.1.1.1)
        <$> [("a=x", "a", "x",
              mkFilterExpression "x" []
                (Some (VarVariable (mkVariable "x" VNone (Some ["x"]) false None))));
             ("a=7", "a", "7", mkFilterExpression "7" []
                (Some (VarVariable (mkVariable "7" (VInt 7) None false None))))])
       ++ ["only"; "b=1"]) false
  = (Ok (foldl (fun m (a : string * string * string * FilterExpression) =>
                  <[a.1.1.2 := a.2]> m) ∅
           [("a=x", "a", "x",
             mkFilterExpression "x" []
               (Some (VarVariable (mkVariable "x" VNone (Some ["x"]) false None))));
            ("a=7", "a", "7", mkFilterExpression "7" []
                (Some (VarVariable (mkVariable "7" (VInt 7) None false None))))]),
     ["only"; "b=1"]).
Proof.
  apply (token_kwargs_compiles_the_leading_keyword_bits
           (@Parser_compile_filter plain_externals sample_filters)).
  - discriminate.
  - repeat constructor.
  - reflexivity.
Defined.

(** ** Binding a context to a template *)

(** On a context bound to no template, [bind_template] binds it for the
    body and unbinds it afterwards, whatever the body returns or raises.
    Inside the body the engine's fallback for missing variables can be
    read, which is an [AttributeError] outside; and a second
    [bind_template] inside the body raises [RuntimeError] without running
    its own body. *)
Theorem bind_template_is_scoped_and_does_not_nest {A : Type}
    (t t' : Template) (body : ctxM A) (c : Context_) :
  template c = None ->
  template (Context_bind_template t body c).2 = None
  /\ (Context_bind_template t body c).1 = (body (set_template c (Some t))).1
  /\ Context_string_if_invalid c = Raise AttributeError
  /\ Context_bind_template t (fun c' => (Context_string_if_invalid c', c')) c
     = (Ok (string_if_invalid (engine t)), c)
  /\ Context_bind_template t (Context_bind_template t' body) c
     = (Raise RuntimeError, c).
Proof.
  intros Hc. destruct c as [ds ae l10n tz tn tpl]. simpl in Hc. subst tpl.
  unfold Context_bind_template, Context_string_if_invalid. simpl.
  destruct (body _) as [r c']. simpl. repeat split.
Qed.

Lemma bind_template_is_scoped_and_does_not_nest_witness :
  @Context_bind_template unit (mkTemplate None (mkEngine "n/a" false))
    (Context_bind_template (mkTemplate None (mkEngine "" true))
       (BaseContext_setitem (KStr "x") VNone))
    unescaped_context
  = (Raise RuntimeError, unescaped_context).
Proof.
  apply (@bind_template_is_scoped_and_does_not_nest unit
           (mkTemplate None (mkEngine "n/a" false))
           (mkTemplate None (mkEngine "" true))
           (BaseContext_setitem (KStr "x") VNone) unescaped_context).
  reflexivity.
Defined.

(** ** A template without tags *)

Section plain_text.

Lemma tag_scan_without_brace l : forall skip pos,
  Forall (fun a => a <> "{"%char) l -> tag_scan skip pos l = [].
Proof.
  induction l as [|a l IH]; intros skip pos Hl; [reflexivity|].
  apply Forall_cons in Hl as [Ha Hl]. cbn [tag_scan].
  destruct skip as [|k]; [|by apply IH].
  assert (Hat : tag_at (a :: l) = None).
  { unfold tag_at. destruct l as [|x rest]; [reflexivity|].
    destruct (Ascii.eqb_spec a "{"); [contradiction|reflexivity]. }
  rewrite Hat. by apply IH.
Qed.

Lemma substring_whole s : String.substring 0 (String.length s) s = s.
Proof. induction s as [|a s IH]; simpl; [reflexivity|]. by rewrite IH. Qed.
End plain_text.

(** A template that is not empty and has no opening brace is one text
    token on line 1 holding the whole template; it parses to one text
    node and renders, in any context and without escaping, to the
    template itself. *)
Theorem template_without_tags_renders_to_itself `{Externals}
    (tags : gmap string compile_func) (registry : gmap string Filter)
    (render_tag : Node -> Context_ -> res value)
    (annotate : pyexn -> Node -> Context_ -> pyexn)
    (template_string : string) (org : option Origin) (context : Context_) :
  template_string <> "" ->
  Forall (fun a => a <> "{"%char) (chars template_string) ->
  Lexer_tokenize template_string = [Some (mkToken TEXT template_string None 1)]
  /\ exists nodelist,
       Parser_parse 2 tags registry [] (mkParser [mkToken TEXT template_string None 1] [] org)
       = Some (Ok nodelist, mkParser [] [] org)
       /\ NodeList_render render_tag annotate (nodes nodelist) context
          = Ok (VSafe template_string).
Proof.
  intros Hne Hplain. split.
  - unfold Lexer_tokenize, tag_re_split, tag_re_finditer.
    rewrite tag_scan_without_brace by exact Hplain.
    cbn [split_bits]. unfold slice. rewrite Nat.sub_0_r, substring_whole.
    destruct template_string as [|a r]; [done|]. reflexivity.
  - eexists. split; [reflexivity|]. reflexivity.
Qed.

Lemma template_without_tags_renders_to_itself_witness :
  Lexer_tokenize "<b>Hi</b>" = [Some (mkToken TEXT "<b>Hi</b>" None 1)]
  /\ exists nodelist,
       @Parser_parse plain_externals 2 sample_tags sample_filters []
         (mkParser [mkToken TEXT "<b>Hi</b>" None 1] [] None)
       = Some (Ok nodelist, mkParser [] [] None)
       /\ @NodeList_render plain_externals (fun _ _ => Ok VNone) (fun e _ _ => e)
            (nodes nodelist) unescaped_context
          = Ok (VSafe "<b>Hi</b>").
Proof.
  apply (@template_without_tags_renders_to_itself plain_externals sample_tags
           sample_filters (fun _ _ => Ok VNone) (fun e _ _ => e) "<b>Hi</b>" None
           unescaped_context).
  - discriminate.
  - repeat constructor; discriminate.
Defined.

(** ** Splitting the contents of a token *)

Section split_contents.

Lemma append_empty_r s : s +:+ "" = s.
Proof.
  induction s as [|a s IH]; [reflexivity|].
  change (String a (s +:+ "") = String a s). by rewrite IH.
Qed.

Lemma join_spaced x l : py_join " " (x :: l) = x +:+ spaced l.
Proof.
  revert x. induction l as [|y l IH]; intros x.
  - symmetry. apply append_empty_r.
  - change (py_join " " (x :: y :: l)) with (x +:+ " " +:+ py_join " " (y :: l)).
    by rewrite IH.
Qed.

Lemma spaced_join l : l <> [] -> spaced l = " " +:+ py_join " " l.
Proof.
  destruct l as [|x l]; [done|]. intros _. by rewrite join_spaced.
Qed.

Lemma spaced_app a b : spaced (a ++ b) = spaced a +:+ spaced b.
Proof.
  induction a as [|x a IH]; [reflexivity|].
  change (" " +:+ x +:+ spaced (a ++ b) = (" " +:+ x +:+ spaced a) +:+ spaced b).
  rewrite IH. change (String " " (x +:+ spaced a +:+ spaced b)
                      = String " " ((x +:+ spaced a) +:+ spaced b)).
  by rewrite string_app_assoc.
Qed.

Lemma spaced_joined trans rest :
  trans <> [] -> spaced (py_join " " trans :: rest) = spaced (trans ++ rest).
Proof.
  intros Hne. rewrite (spaced_app trans rest), (spaced_join trans Hne).
  reflexivity.
Qed.

Lemma spaced_determines_join a b : spaced a = spaced b -> py_join " " a = py_join " " b.
Proof.
  destruct a as [|x a], b as [|y b]; try reflexivity; try discriminate.
  rewrite (spaced_join (x :: a)), (spaced_join (y :: b)) by discriminate.
  intros [= Hjoin]. exact Hjoin.
Qed.

Lemma split_contents_go_spaced bits : forall pending result,
  split_contents_go pending bits = Ok result ->
  match pending with
  | None => spaced result = spaced bits
  | Some (_, trans_bit) => trans_bit <> [] -> spaced result = spaced (trans_bit ++ bits)
  end.
Proof.
  induction bits as [|bit rest IH]; intros pending result; cbn [split_contents_go].
  - destruct pending as [[sentinel trans]|]; [discriminate|]. by intros [= <-].
  - destruct pending as [[sentinel trans]|].
    + destruct (endswith bit sentinel).
      * destruct (split_contents_go None rest) as [split|] eqn:Hrest; [|discriminate].
        simpl. intros [= <-] Hne. specialize (IH None split Hrest). simpl in IH.
        rewrite spaced_joined by (by destruct trans).
        rewrite !spaced_app, IH.
        change (bit :: rest) with ([bit] ++ rest). by rewrite !spaced_app, string_app_assoc.
      * intros Hgo Hne. specialize (IH _ _ Hgo). simpl in IH.
        rewrite IH by (by destruct trans). by rewrite <- app_assoc.
    + assert (Hplain : forall split,
                split_contents_go None rest = Ok split ->
                spaced (bit :: split) = spaced (bit :: rest)).
      { intros split Hrest. specialize (IH None split Hrest). simpl in IH.
        change (" " +:+ bit +:+ spaced split = " " +:+ bit +:+ spaced rest).
        by rewrite IH. }
      destruct (starts_translation bit).
      * destruct (endswith bit _).
        -- destruct (split_contents_go None rest) as [split|] eqn:Hrest; [|discriminate].
           simpl. intros [= <-]. by apply Hplain.
        -- intros Hgo. specialize (IH _ _ Hgo). simpl in IH. by apply IH.
      * destruct (split_contents_go None rest) as [split|] eqn:Hrest; [|discriminate].
        simpl. intros [= <-]. by apply Hplain.
Qed.

Lemma split_contents_go_plain bits :
  Forall (fun b => starts_translation b = false) bits ->
  split_contents_go None bits = Ok bits.
Proof.
  induction 1 as [|bit rest Hbit _ IH]; [reflexivity|].
  cbn [split_contents_go]. by rewrite Hbit, IH.
Qed.

Lemma split_contents_go_unterminated sentinel rest : forall trans_bit,
  Forall (fun b => endswith b sentinel = false) rest ->
  split_contents_go (Some (sentinel, trans_bit)) rest = Raise StopIteration.
Proof.
  induction rest as [|bit rest IH]; intros trans Hrest; [reflexivity|].
  apply Forall_cons in Hrest as [Hbit Hrest].
  cbn [split_contents_go]. rewrite Hbit. by apply IH.
Qed.
End split_contents.

(** [split_contents] only regroups the pieces of [smart_split]: joined by
    single spaces, what it returns is what it was given.  Pieces none of
    which opens a translation literal are returned as they are.  A
    translation literal that no later piece closes makes the call raise
    [StopIteration]. *)
Theorem split_contents_regroups_the_pieces :
  (forall bits result,
      Token_split_contents bits = Ok result ->
      py_join " " result = py_join " " bits)
  /\ (forall bits,
      Forall (fun b => starts_translation b = false) bits ->
      Token_split_contents bits = Ok bits)
  /\ (forall plain opening rest,
      Forall (fun b => starts_translation b = false) plain ->
      starts_translation opening = true ->
      Forall (fun b => endswith b (slice 2 3 opening +:+ ")") = false) (opening :: rest) ->
      Token_split_contents (plain ++ opening :: rest) = Raise StopIteration).
Proof.
  split; [|split].
  - intros bits result Hsplit. apply spaced_determines_join.
    exact (split_contents_go_spaced bits None result Hsplit).
  - apply split_contents_go_plain.
  - intros plain opening rest Hplain Hopen Hrest. unfold Token_split_contents.
    apply Forall_cons in Hrest as [Hopening Hrest].
    induction Hplain as [|bit plain Hbit _ IH].
    + cbn [app split_contents_go]. rewrite Hopen, Hopening.
      by apply split_contents_go_unterminated.
    + rewrite <- app_comm_cons. cbn [split_contents_go]. by rewrite Hbit, IH.
Qed.

(** ** Tags that must come first *)

(** A tag whose node has [must_be_first] set is accepted after text and
    comment tokens: its node joins the text nodes, carrying the tag's token
    and the parser's origin, and the command stack is as before.  After a
    variable node the same tag is refused with the must-be-first error at
    the tag's token, and its command stays on the command stack. *)
Theorem must_be_first_tag_may_follow_text_only `{Externals}
    (tags : gmap string compile_func) (registry : gmap string Filter)
    (compile : compile_func) (token : Token) (command : string) (words : list string)
    (node : Node) (texts : list Token) (stack : list (string * Token))
    (org : option Origin) (fuel : nat) :
  tags !! command = Some compile ->
  token_type token = BLOCK ->
  py_split (contents token) = command :: words ->
  (forall parse p, compile parse token p = Some (Ok node, p)) ->
  node_must_be_first node = true ->
  forallb inert texts = true ->
  (length texts + 1 < fuel)%nat ->
  Parser_parse fuel tags registry [] (mkParser (texts ++ [token]) stack org)
  = Some (Ok (mkNodeList (text_nodes org texts ++ [MkNode (node_kind node) (Some token) org])
                         true),
          mkParser [] stack org)
  /\ (forall var_token fe rest,
      token_type var_token = VAR ->
      contents var_token <> "" ->
      Parser_compile_filter registry (contents var_token) = Ok fe ->
      Parser_parse fuel tags registry [] (mkParser (var_token :: token :: rest) stack org)
      = Some (Raise (Parser_error_msg token
                       (node_repr node +:+ " must be the first tag in the template.")),
              mkParser rest (stack ++ [(command, token)]) org)).
Proof.
  intros Htag Hty Hsplit Hcompile Hfirst Hinert Hfuel.
  assert (Hkind : is_TextNode node = false).
  { unfold node_must_be_first in Hfirst. unfold is_TextNode.
    by destruct (node_kind node). }
  split.
  - unfold Parser_parse.
    replace fuel with (length texts + S (S (fuel - length texts - 2)))%nat by lia.
    rewrite parse_loop_text_prefix by exact Hinert.
    cbn [parse_loop tokens set_tokens]. rewrite Hty, Hsplit.
    cbn [bool_decide decide_rel]. rewrite bool_decide_eq_false_2 by set_solver.
    cbn [command_stack set_command_stack tokens origin].
    match goal with
    | |- context [match ?x with Some _ => _ | None => _ end] =>
        assert (Hx : x = Some compile) by exact Htag; rewrite Hx
    end.
    rewrite Hcompile. unfold Parser_extend_nodelist.
    cbn [contains_nontext nodes origin command_stack set_command_stack set_tokens
         tokens empty_NodeList].
    rewrite andb_false_r, list_pop_snoc, Hkind. reflexivity.
  - intros var_token fe rest Hvar Hcontents Hfe. unfold Parser_parse.
    destruct fuel as [|[|fuel]]; [lia|lia|].
    cbn [parse_loop tokens set_tokens]. rewrite Hvar.
    rewrite (proj2 (String.eqb_neq _ _) Hcontents), Hfe.
    unfold Parser_extend_nodelist at 1.
    cbn [node_must_be_first node_kind andb contains_nontext nodes empty_NodeList
         origin tokens set_tokens app is_TextNode negb orb].
    rewrite Hty, Hsplit. rewrite bool_decide_eq_false_2 by set_solver.
    cbn [command_stack set_command_stack tokens origin].
    match goal with
    | |- context [match ?x with Some _ => _ | None => _ end] =>
        assert (Hx : x = Some compile) by exact Htag; rewrite Hx
    end.
    rewrite Hcompile. unfold Parser_extend_nodelist.
    cbn [contains_nontext nodes origin command_stack set_command_stack set_tokens
         tokens empty_NodeList].
    rewrite Hfirst. reflexivity.
Qed.

Lemma must_be_first_tag_may_follow_text_only_witness :
  @Parser_parse plain_externals 3 {[ "extends" := simple_tag extends_node ]}
    sample_filters []
    (mkParser ([mkToken TEXT " " None 1] ++ [mkToken BLOCK "extends 'base.html'" None 1])
              [] None)
  = Some (Ok (mkNodeList
                (text_nodes None [mkToken TEXT " " None 1]
                   ++ [MkNode (node_kind extends_node)
                              (Some (mkToken BLOCK "extends 'base.html'" None 1)) None])
                true),
          mkParser [] [] None).
Proof.
  apply (@must_be_first_tag_may_follow_text_only plain_externals
           {[ "extends" := simple_tag extends_node ]} sample_filters
           (simple_tag extends_node) (mkToken BLOCK "extends 'base.html'" None 1)
           "extends" ["'base.html'"] extends_node [mkToken TEXT " " None 1] [] None 3%nat).
  - reflexivity.
  - reflexivity.
  - reflexivity.
  - reflexivity.
  - reflexivity.
  - reflexivity.
  - simpl. lia.
Defined.
